(** * Seat reservation engine of the theater application

    A shallow embedding of the booking path of the Django application
    ([movie/utils.py], [movie/views.py], [movie/serializers.py],
    [movie/constants.py], [movie/types.py]) and the properties its
    specification states about it.

    Conventions of the embedding.

    - Python [int] is [Z]; a [date] is the number of its day (a proleptic
      ordinal), a [time] the number of seconds since midnight, a [datetime]
      the number of seconds [86400 * date + time]; the clock
      ([timezone.now()], and the clock of the cache backend) is an explicit
      argument [now]; a [timedelta] is a number of seconds.
    - Prices are Python [float]s, here binary64 primitive floats.
    - A database table is the list of its rows in insertion order; a query
      returns rows in table order; a primary key is assigned by
      [next_id], one more than the number of rows (no row of these tables
      is deleted on the path modelled here).
    - An exception is a value of [exn]; the functions that read or write
      the database or the cache live in the monad [M], whose state is the
      database and the cache.
    - The functions of [movie/utils.py] take the arguments their
      signatures and [movie/types.py] declare: seats are lists of seat
      keys.  The views hand them what the serializer and the form give:
      [Seat] instances in [BookingViewSet.booking], [str]s in
      [book_seats].
    - Requests are handled one at a time. *)

From Stdlib Require Import ZArith List Ascii String Lia PrimFloat.
From stdpp Require Import base option list gmap strings pretty.

Local Open Scope Z_scope.

(** ** Python helpers *)

(** [range(a, b)] *)
Definition range (a b : Z) : list Z :=
  (λ k : nat, a + Z.of_nat k) <$> seq 0 (Z.to_nat (b - a)).

(** The position [l[i]] denotes in Python: negative indices count from
    the end, anything else out of range raises [IndexError] ([None]). *)
Definition py_index {A} (l : list A) (i : Z) : option nat :=
  let n := Z.of_nat (length l) in
  if bool_decide (0 ≤ i < n) then Some (Z.to_nat i)
  else if bool_decide (- n ≤ i < 0) then Some (Z.to_nat (n + i))
  else None.

(** The primary key given to the next row of a table. *)
Definition next_id {A} (table : list A) : Z := Z.of_nat (length table) + 1.

(** ** movie/constants.py *)

Definition MIN_SEATS_PER_BOOKING : Z := 1.
Definition MAX_SEATS_PER_BOOKING : Z := 10.
Definition MIN_BOOKING_HOURS_BEFORE : Z := 2.
Definition SHOW_CACHE_TIMEOUT : Z := 1800.

Inductive error_key : Type :=
  | seats_unavailable
  | invalid_seat_count
  | show_full
  | past_show
  | booking_window_expired
  | invalid_date_range.

Definition ERROR_MESSAGES (k : error_key) : string :=
  match k with
  | seats_unavailable => "The selected seats are not available"
  | invalid_seat_count =>
      "Number of seats must be between " +:+ pretty MIN_SEATS_PER_BOOKING
        +:+ " and " +:+ pretty MAX_SEATS_PER_BOOKING
  | show_full => "This show is fully booked"
  | past_show => "Cannot book tickets for past shows"
  | booking_window_expired =>
      "Booking must be done at least " +:+ pretty MIN_BOOKING_HOURS_BEFORE
        +:+ " hours before show time"
  | invalid_date_range => "End date must be after start date"
  end.

(** ** movie/types.py *)

Record SeatTypeDict : Type := {
  st_seat_type : string;
  st_rows : Z;
  st_columns : Z;
  st_order : Z
}.

Record BookingRequestDict : Type := {
  req_seats : list Z;
  req_show_date : Z
}.

(** ** The tables *)

(** Modelled from the spec: [movie/models.py], which declares the tables, is
    not among the sources.  This record and the six after it have the
    entities of the spec's data model, with the names and fields under
    which the sources read and write them; a foreign key is the key of the
    row it points to. *)
Record Screen : Type := {
  screen_id : Z;
  screen_number : Z;
  total_seat : Z
}.

Record ScreenSeatTypesMapping : Type := {
  mapping_id : Z;
  mapping_screen : Z;          (* foreign key: Screen *)
  seat_type : string
}.

Record Seat : Type := {
  seat_id : Z;
  seat_number : string;
  row : Z;
  col : Z;
  type : Z                     (* foreign key: ScreenSeatTypesMapping *)
}.

Record ShowDetail : Type := {
  show_id : Z;
  movie : Z;
  screen : Z;                  (* foreign key: Screen *)
  start_time : Z;
  end_time : Z;
  start_date : Z;
  end_date : Z;
  available_seats : Z
}.

Record ShowSeatPrice : Type := {
  price_id : Z;
  price_show_detail : Z;       (* foreign key: ShowDetail *)
  price_seat_type : Z;         (* foreign key: ScreenSeatTypesMapping *)
  price : float
}.

Record BookedShowDetail : Type := {
  booked_id : Z;
  booked_show_detail : Z;      (* foreign key: ShowDetail *)
  show_date : Z;
  booked_available_seats : Z
}.

(** [booked_show] is the only link from a booking to a date: the ledger
    query of [get_available_seats] goes through it, the test helper
    [create_test_booking] fills it, and the [Booking.objects.create] of
    the two views ([BookingViewSet.booking], [book_seats]) does not pass
    it.  The column is therefore taken to accept a missing value.  [seats]
    is the many-to-many relation, a set of seat keys. *)
Record Booking : Type := {
  booking_id : Z;
  user : Z;
  showtime : Z;                (* foreign key: ShowDetail *)
  booked_show : option Z;      (* foreign key: BookedShowDetail *)
  total_amount : float;
  seats : list Z
}.

Record DB : Type := {
  Screen_objects : list Screen;
  ScreenSeatTypesMapping_objects : list ScreenSeatTypesMapping;
  Seat_objects : list Seat;
  ShowDetail_objects : list ShowDetail;
  ShowSeatPrice_objects : list ShowSeatPrice;
  BookedShowDetail_objects : list BookedShowDetail;
  Booking_objects : list Booking
}.

Definition empty_db : DB :=
  {| Screen_objects := []; ScreenSeatTypesMapping_objects := [];
     Seat_objects := []; ShowDetail_objects := [];
     ShowSeatPrice_objects := []; BookedShowDetail_objects := [];
     Booking_objects := [] |}.

#[global] Instance Seat_eq_dec : EqDecision Seat.
Proof. solve_decision. Defined.

(** ** Provisioning: movie/utils.py, create_screen_with_seats and
       order_seat_types *)

Module Provisioning.

Definition ScreenSeatTypesMapping_create (scr : Z) (label : string) (db : DB)
  : ScreenSeatTypesMapping * DB :=
  let m := {| mapping_id := next_id (ScreenSeatTypesMapping_objects db);
              mapping_screen := scr; seat_type := label |} in
  (m, {| Screen_objects := Screen_objects db;
         ScreenSeatTypesMapping_objects :=
           ScreenSeatTypesMapping_objects db ++ [m];
         Seat_objects := Seat_objects db;
         ShowDetail_objects := ShowDetail_objects db;
         ShowSeatPrice_objects := ShowSeatPrice_objects db;
         BookedShowDetail_objects := BookedShowDetail_objects db;
         Booking_objects := Booking_objects db |}).

Definition Seat_create (number : string) (r c ty : Z) (db : DB) : DB :=
  let s := {| seat_id := next_id (Seat_objects db); seat_number := number;
              row := r; col := c; type := ty |} in
  {| Screen_objects := Screen_objects db;
     ScreenSeatTypesMapping_objects := ScreenSeatTypesMapping_objects db;
     Seat_objects := Seat_objects db ++ [s];
     ShowDetail_objects := ShowDetail_objects db;
     ShowSeatPrice_objects := ShowSeatPrice_objects db;
     BookedShowDetail_objects := BookedShowDetail_objects db;
     Booking_objects := Booking_objects db |}.

(** [screen.save()] at the end of [create_screen_with_seats]: the row of
    the screen with the key it got from [Screen.objects.create] and the
    final [total_seat].  No other screen is created in between, so the
    row is appended here, once, with its final content. *)
Definition Screen_save (s : Screen) (db : DB) : DB :=
  {| Screen_objects := Screen_objects db ++ [s];
     ScreenSeatTypesMapping_objects := ScreenSeatTypesMapping_objects db;
     Seat_objects := Seat_objects db;
     ShowDetail_objects := ShowDetail_objects db;
     ShowSeatPrice_objects := ShowSeatPrice_objects db;
     BookedShowDetail_objects := BookedShowDetail_objects db;
     Booking_objects := Booking_objects db |}.

(** The two inner loops:
    [for i in range(rows, type_row): for j in range(type_col): ...] *)
Definition create_seats (rows type_row type_col ty : Z) (db : DB) : DB :=
  fold_left
    (λ db i,
       fold_left
         (λ db j, Seat_create (pretty i +:+ pretty j) (rows + i) (j + 1) ty db)
         (range 0 type_col) db)
    (range rows type_row) db.

(** The state of the outer loop: the database, [rows] and [total_seat]. *)
Definition seat_type_step (scr : Z) (st : DB * Z * Z) (seat_type : SeatTypeDict)
  : DB * Z * Z :=
  let '(db, rows, total) := st in
  let '(screen_seat, db) :=
    ScreenSeatTypesMapping_create scr (st_seat_type seat_type) db in
  let type_row := st_rows seat_type + rows in
  let type_col := st_columns seat_type in
  let db := create_seats rows type_row type_col (mapping_id screen_seat) db in
  (db, type_row, total + st_rows seat_type * st_columns seat_type).

Definition create_screen_with_seats (number : Z) (seat_types : list SeatTypeDict)
    (db : DB) : Screen * DB :=
  let sid := next_id (Screen_objects db) in
  let '(db, _, total) := fold_left (seat_type_step sid) seat_types (db, 1, 0) in
  let scr := {| screen_id := sid; screen_number := number; total_seat := total |} in
  (scr, Screen_save scr db).

(** [seat_types_ordered[seat_type["order"] - 1] = seat_type], where the
    list may already be lost to an [IndexError]. *)
Definition assign (acc : option (list (option SeatTypeDict))) (seat_type : SeatTypeDict)
  : option (list (option SeatTypeDict)) :=
  ordered ← acc;
  k ← py_index ordered (st_order seat_type - 1);
  Some (<[k := Some seat_type]> ordered).

(** [seat_types_ordered = [{}] * len(seat_types)], then one indexed
    assignment per seat type.  A slot still holding [{}] is [None]; an
    [IndexError] makes the whole result [None]. *)
Definition order_seat_types (seat_types : list SeatTypeDict)
  : option (list (option SeatTypeDict)) :=
  fold_left assign seat_types (Some (replicate (length seat_types) None)).

(** [AddScreenSerializer]: [seat_types] is a [ListField] with
    [allow_empty=False], and [validate_seat_types] asks every entry for
    the four keys, which a [SeatTypeDict] has. *)
Definition AddScreenSerializer_is_valid (seat_types : list SeatTypeDict)
  : option (list SeatTypeDict) :=
  match seat_types with
  | [] => None
  | _ => Some seat_types
  end.

(** [ScreenViewSet.create]: validate, order the seat types, then create
    the screen.  Reading ["seat_type"] from a slot left at [{}] raises
    [KeyError].  [None]: the request fails, refused by the serializer or
    with an exception under [transaction.atomic], and nothing is created. *)
Definition ScreenViewSet_create (number : Z) (seat_types : list SeatTypeDict)
    (db : DB) : option (Screen * DB) :=
  seat_types ← AddScreenSerializer_is_valid seat_types;
  seat_types_ordered ← order_seat_types seat_types;
  seat_types_ordered ← mapM id seat_types_ordered;
  Some (create_screen_with_seats number seat_types_ordered db).

End Provisioning.

(** ** Queries shared by the booking path *)

Definition mapping_of (db : DB) (key : Z) : option ScreenSeatTypesMapping :=
  snd <$> list_find (λ m, mapping_id m = key) (ScreenSeatTypesMapping_objects db).

(** [seat.type.seat_type] and [seat.type.screen] *)
Definition seat_label (db : DB) (s : Seat) : option string :=
  seat_type <$> mapping_of db (type s).

Definition seat_screen (db : DB) (s : Seat) : option Z :=
  mapping_screen <$> mapping_of db (type s).

(** [Seat.objects.filter(type__screen=scr)] *)
Definition seats_of_screen (db : DB) (scr : Z) : list Seat :=
  filter (λ s, seat_screen db s = Some scr) (Seat_objects db).

Definition show_of (db : DB) (key : Z) : option ShowDetail :=
  snd <$> list_find (λ s, show_id s = key) (ShowDetail_objects db).

Definition screen_of (db : DB) (key : Z) : option Screen :=
  snd <$> list_find (λ s, screen_id s = key) (Screen_objects db).

Definition booked_show_of (db : DB) (key : Z) : option BookedShowDetail :=
  snd <$> list_find (λ r, booked_id r = key) (BookedShowDetail_objects db).

(** [booking.booked_show.show_date], through the optional foreign key *)
Definition booking_show_date (db : DB) (b : Booking) : option Z :=
  show_date <$> (booked_show b ≫= booked_show_of db).

(** The ledger query of [get_available_seats]:
    [Booking.objects.filter(showtime_id=show_id,
       booked_show__show_date=show_date).values_list("seats", flat=True)],
    the seat keys of the bookings of the show that are linked to a row of
    that date. *)
Definition booked_seats (db : DB) (show : Z) (date : Z) : list Z :=
  b ← filter (λ b, showtime b = show ∧ booking_show_date db b = Some date)
        (Booking_objects db);
  seats b.

(** ** QuerySets and the cache

    [get_available_seats] returns, and stores in the cache, a Django
    [QuerySet]: the query [Seat.objects.exclude(id__in=booked_seats)] for
    one (show, date), together with the rows it fetched if it has been
    evaluated.  Storing it pickles it, which evaluates it, so an entry of
    the cache carries the rows as they were when the entry was written;
    those rows are what iterating or counting the returned object yields
    ([qs_rows]).  A method that derives a new query from a QuerySet, as
    [values_list] does in [validate_booking_request], starts from the
    query, not from the fetched rows, and is run against the database as
    it is at that moment ([values_list_id]). *)

Record QuerySet : Type := {
  qs_show_id : Z;
  qs_show_date : Z;
  qs_result_cache : option (list Seat)
}.

(** [Seat.objects.exclude(id__in=booked_seats)], run against [db] *)
Definition run_query (db : DB) (show : Z) (date : Z) : list Seat :=
  filter (λ s, seat_id s ∉ booked_seats db show date) (Seat_objects db).

(** The rows seen by whoever iterates or counts the QuerySet. *)
Definition qs_rows (db : DB) (qs : QuerySet) : list Seat :=
  match qs_result_cache qs with
  | Some rows => rows
  | None => run_query db (qs_show_id qs) (qs_show_date qs)
  end.

(** [qs.values_list("id", flat=True)], iterated *)
Definition values_list_id (db : DB) (qs : QuerySet) : list Z :=
  seat_id <$> run_query db (qs_show_id qs) (qs_show_date qs).

(** The cache key [f"available_seats_{show_id}_{show_date:%Y%m%d}"] is
    the pair it is built from; an entry is a value and the time it
    expires at. *)
Abbreviation cache_key := (Z * Z)%type.
Abbreviation Cache := (gmap cache_key (QuerySet * Z)).

Record World : Type := {
  w_db : DB;
  w_cache : Cache
}.

(** ** Exceptions and the monad of the views *)

Inductive exn : Type :=
  | ValidationError (detail : string)
  | Http404
  | DoesNotExist.

Definition M (A : Type) : Type := World → (exn + A) * World.

#[global] Instance M_ret : MRet M := λ A x w, (inr x, w).
#[global] Instance M_bind : MBind M := λ A B f m w,
  match m w with
  | (inr x, w') => f x w'
  | (inl e, w') => (inl e, w')
  end.

Definition raise {A} (e : exn) : M A := λ w, (inl e, w).
Definition read_db : M DB := λ w, (inr (w_db w), w).
Definition write_db (db : DB) : M unit :=
  λ w, (inr (), {| w_db := db; w_cache := w_cache w |}).

(** [cache.get(key)]: an entry that has expired is not returned. *)
Definition cache_get (now : Z) (key : cache_key) : M (option QuerySet) :=
  λ w, (inr (match w_cache w !! key with
             | Some (v, expires) => if bool_decide (now < expires) then Some v else None
             | None => None
             end), w).

(** [cache.set(key, value, timeout)] *)
Definition cache_set (now : Z) (key : cache_key) (v : QuerySet) (timeout : Z) : M unit :=
  λ w, (inr (), {| w_db := w_db w;
                   w_cache := <[key := (v, now + timeout)]> (w_cache w) |}).

(** [@transaction.atomic]: an exception rolls the database back; the
    cache is not part of the transaction. *)
Definition transaction_atomic {A} (m : M A) : M A :=
  λ w, match m w with
       | (inl e, w') => (inl e, {| w_db := w_db w; w_cache := w_cache w' |})
       | r => r
       end.

Definition get_object_or_404 (key : Z) : M ShowDetail :=
  db ← read_db;
  match show_of db key with
  | Some s => mret s
  | None => raise Http404
  end.

(** ** movie/utils.py: availability, validation, pricing *)

Definition seconds_per_day : Z := 86400.

(** [now.date()] and [datetime.combine(date, time)] *)
Definition date_of (now : Z) : Z := now `div` seconds_per_day.
Definition combine (date time : Z) : Z := seconds_per_day * date + time.
Definition timedelta_hours (h : Z) : Z := 3600 * h.

Definition get_available_seats (now : Z) (show : Z) (date : Z) : M QuerySet :=
  let key := (show, date) in
  cached_seats ← cache_get now key;
  match cached_seats with
  | Some qs => mret qs
  | None =>
      db ← read_db;
      let available_seats :=
        {| qs_show_id := show; qs_show_date := date;
           qs_result_cache := Some (run_query db show date) |} in
      _ ← cache_set now key available_seats SHOW_CACHE_TIMEOUT;
      mret available_seats
  end.

Definition validate_booking_request (now : Z) (seats : list Z) (show : ShowDetail)
    (date : Z) : M unit :=
  if negb (bool_decide (MIN_SEATS_PER_BOOKING ≤ Z.of_nat (length seats)
                        ≤ MAX_SEATS_PER_BOOKING))
  then raise (ValidationError (ERROR_MESSAGES invalid_seat_count))
  else if bool_decide (date < date_of now)
  then raise (ValidationError (ERROR_MESSAGES past_show))
  else if bool_decide (combine date (start_time show) - now
                       < timedelta_hours MIN_BOOKING_HOURS_BEFORE)
  then raise (ValidationError (ERROR_MESSAGES booking_window_expired))
  else
    available_seats ← get_available_seats now (show_id show) date;
    db ← read_db;
    if negb (forallb (λ seat_id, bool_decide (seat_id ∈ values_list_id db available_seats))
               seats)
    then raise (ValidationError (ERROR_MESSAGES seats_unavailable))
    else mret ().

(** [validate_booking_request] as Python runs it on seat keys of any
    type: [py_in x ids] is the test [x in ids] against the integer keys
    the query yields.  On integer keys it is [validate_booking_request]
    ([validate_booking_request_of_int] below). *)
Definition validate_booking_request_of {A} (py_in : A → list Z → bool) (now : Z)
    (seats : list A) (show : ShowDetail) (date : Z) : M unit :=
  if negb (bool_decide (MIN_SEATS_PER_BOOKING ≤ Z.of_nat (length seats)
                        ≤ MAX_SEATS_PER_BOOKING))
  then raise (ValidationError (ERROR_MESSAGES invalid_seat_count))
  else if bool_decide (date < date_of now)
  then raise (ValidationError (ERROR_MESSAGES past_show))
  else if bool_decide (combine date (start_time show) - now
                       < timedelta_hours MIN_BOOKING_HOURS_BEFORE)
  then raise (ValidationError (ERROR_MESSAGES booking_window_expired))
  else
    available_seats ← get_available_seats now (show_id show) date;
    db ← read_db;
    if negb (forallb (λ seat_id, py_in seat_id (values_list_id db available_seats)) seats)
    then raise (ValidationError (ERROR_MESSAGES seats_unavailable))
    else mret ().

(** [x in ids] for an [int] *)
Definition int_in (x : Z) (ids : list Z) : bool := bool_decide (x ∈ ids).

(** [p.seat_type.seat_type] *)
Definition price_label (db : DB) (p : ShowSeatPrice) : option string :=
  seat_type <$> mapping_of db (price_seat_type p).

(** [next((p.price for p in prices if p.seat_type.seat_type == seat_type), 0)] *)
Definition next_price (db : DB) (prices : list ShowSeatPrice) (label : string) : float :=
  match list_find (λ p, price_label db p = Some label) prices with
  | Some (_, p) => price p
  | None => 0%float
  end.

(** [Seat.objects.filter(id__in=seats).values_list("type__seat_type", flat=True)] *)
Definition seat_types_of (db : DB) (seats : list Z) : list string :=
  omap (seat_label db) (filter (λ s, seat_id s ∈ seats) (Seat_objects db)).

(** [ShowDetail.objects.get(id=show_id).show_price_detail.all()] *)
Definition show_price_detail (db : DB) (show : Z) : list ShowSeatPrice :=
  filter (λ p, price_show_detail p = show) (ShowSeatPrice_objects db).

Definition calculate_total_price (seats : list Z) (show : Z) : M float :=
  db ← read_db;
  let seat_types := seat_types_of db seats in
  match show_of db show with
  | None => raise DoesNotExist
  | Some _ =>
      let prices := show_price_detail db show in
      mret (fold_left (λ total seat_type, (total + next_price db prices seat_type)%float)
              seat_types 0%float)
  end.

(** ** movie/serializers.py: BookingSerializer; movie/views.py:
       BookingViewSet.booking *)

Definition set_bookings (db : DB) (bookings : list Booking) : DB :=
  {| Screen_objects := Screen_objects db;
     ScreenSeatTypesMapping_objects := ScreenSeatTypesMapping_objects db;
     Seat_objects := Seat_objects db;
     ShowDetail_objects := ShowDetail_objects db;
     ShowSeatPrice_objects := ShowSeatPrice_objects db;
     BookedShowDetail_objects := BookedShowDetail_objects db;
     Booking_objects := bookings |}.

(** [Booking.objects.create(user=user, showtime=show_detail,
      total_amount=total_price)]: no [booked_show], no seats yet. *)
Definition Booking_create (usr : Z) (show : ShowDetail) (total : float) : M Booking :=
  db ← read_db;
  let b := {| booking_id := next_id (Booking_objects db); user := usr;
              showtime := show_id show; booked_show := None;
              total_amount := total; seats := [] |} in
  _ ← write_db (set_bookings db (Booking_objects db ++ [b]));
  mret b.

(** [booking.seats.set(seats)]: the relation becomes the set of the keys
    given. *)
Definition Booking_seats_set (b : Booking) (keys : list Z) : M Booking :=
  db ← read_db;
  let b' := {| booking_id := booking_id b; user := user b; showtime := showtime b;
               booked_show := booked_show b; total_amount := total_amount b;
               seats := remove_dups keys |} in
  _ ← write_db (set_bookings db
         ((λ x, if bool_decide (booking_id x = booking_id b) then b' else x)
            <$> Booking_objects db));
  mret b'.

(** [BookingSerializer] is a [ModelSerializer] over [Booking] with
    [fields = "__all__"].  Its field [seats], the to-many relation to
    [Seat], takes a list of primary keys and looks every key up
    ([PrimaryKeyRelatedField.to_internal_value]), in the order given and
    with repetitions kept: [validated_data["seats"]] is a list of [Seat]
    instances, and the first key that is no seat's is the error of the
    field.  The exception carries the message of the field. *)
Definition dquote : string := String (ascii_of_nat 34) EmptyString.

Definition invalid_pk (key : Z) : exn :=
  ValidationError ("Invalid pk " +:+ dquote +:+ pretty key +:+ dquote
                   +:+ " - object does not exist.").

(** [Seat.objects.get(pk=key)] *)
Definition Seat_get (db : DB) (key : Z) : option Seat :=
  snd <$> list_find (λ s, seat_id s = key) (Seat_objects db).

Fixpoint seats_to_internal_value (db : DB) (keys : list Z) : exn + list Seat :=
  match keys with
  | [] => inr []
  | key :: keys =>
      match Seat_get db key with
      | None => inl (invalid_pk key)
      | Some seat =>
          match seats_to_internal_value db keys with
          | inl e => inl e
          | inr seats => inr (seat :: seats)
          end
      end
  end.

(** [serializer.validated_data], as far as the view reads it *)
Record BookingValidated : Type := {
  validated_seats : list Seat;
  validated_show_date : Z
}.

(** [BookingSerializer.validate] *)
Definition BookingSerializer_validate (data : BookingValidated) : M BookingValidated :=
  match validated_seats data with
  | [] => raise (ValidationError "Seats are required")
  | _ => mret data
  end.

(** [seat in ids] for a [Seat] instance: [Model.__eq__] answers
    [NotImplemented] for what is not a model instance, so Python compares
    identities, and an instance equals no [int]. *)
Definition seat_eq_int (s : Seat) (id : Z) : bool := false.
Definition seat_in (s : Seat) (ids : list Z) : bool := existsb (seat_eq_int s) ids.

(** A request to the view, and a sequence of requests handled one after
    the other, with the outcome of each. *)
Record Request : Type := {
  rq_now : Z;
  rq_user : Z;
  rq_show : Z;
  rq_data : BookingRequestDict
}.

Section BookingView.

(** [movie/models.py] is not among the sources.  Whether it declares
    [Booking.seats] with [blank=True] decides if the field lets an empty
    list through to [validate] ([allow_empty]); the other fields of the
    serializer are those of the model, and a request is taken to carry
    what they require. *)
Variable seats_allow_empty : bool.

(** The statements after the validation ([calculate_total_price],
    [Booking.objects.create], [booking.seats.set]) receive the [Seat]
    instances; what Django makes of instances under [id__in] is not in
    the sources, and they are a parameter here, given the user, the
    instances and the show.  [book_by_key] below is one reading of them. *)
Variable after_validation : Z → list Seat → ShowDetail → M Booking.

(** [serializer.is_valid(raise_exception=True)]: the fields, then
    [validate]. *)
Definition BookingSerializer_is_valid (data : BookingRequestDict) : M BookingValidated :=
  db ← read_db;
  if negb seats_allow_empty && bool_decide (req_seats data = [])
  then raise (ValidationError "This list may not be empty.")
  else match seats_to_internal_value db (req_seats data) with
       | inl e => raise e
       | inr seats =>
           BookingSerializer_validate
             {| validated_seats := seats; validated_show_date := req_show_date data |}
       end.

Definition booking (now : Z) (usr : Z) (show : Z) (data : BookingRequestDict)
    : M Booking :=
  transaction_atomic (
    show_detail ← get_object_or_404 show;
    validated_data ← BookingSerializer_is_valid data;
    let seats := validated_seats validated_data in
    let show_date := validated_show_date validated_data in
    _ ← validate_booking_request_of seat_in now seats show_detail show_date;
    after_validation usr seats show_detail).

Fixpoint handle (rqs : list Request) (w : World) : list (Request * (exn + Booking)) * World :=
  match rqs with
  | [] => ([], w)
  | rq :: rqs =>
      let '(r, w) := booking (rq_now rq) (rq_user rq) (rq_show rq) (rq_data rq) w in
      let '(log, w) := handle rqs w in
      ((rq, r) :: log, w)
  end.

End BookingView.

(** The statements after the validation with every instance read as its
    key. *)
Definition book_by_key (usr : Z) (seats : list Seat) (show_detail : ShowDetail)
    : M Booking :=
  total_price ← calculate_total_price (seat_id <$> seats) (show_id show_detail);
  b ← Booking_create usr show_detail total_price;
  Booking_seats_set b (seat_id <$> seats).

(** The bookings a log committed for a ledger key. *)
Definition committed (log : list (Request * (exn + Booking))) (show date : Z)
    : list Booking :=
  omap (λ '(rq, r),
          match r with
          | inr b => if bool_decide (rq_show rq = show ∧ req_show_date (rq_data rq) = date)
                     then Some b else None
          | inl _ => None
          end) log.

(** ** movie/serializers.py: ShowDetailSerializer *)

(** [ShowDetailSerializer.get_seats]: the seats of the screen of the show
    that no booking of the show holds. *)
Definition ShowDetailSerializer_get_seats (db : DB) (obj : ShowDetail) : list Seat :=
  let booked_seat :=
    b ← filter (λ b, showtime b = show_id obj) (Booking_objects db); seats b in
  filter (λ s, seat_id s ∉ booked_seat) (seats_of_screen db (screen obj)).

Record ShowDetailData : Type := {
  data_movie : Z;
  data_screen : Screen;
  data_start_time : Z;
  data_end_time : Z;
  data_start_date : Z;
  data_end_date : Z;
  data_show_prices : list (Z * float)      (* seat type, price *)
}.

Definition ShowDetailSerializer_validate (data : ShowDetailData) : M ShowDetailData :=
  if bool_decide (data_start_date data > data_end_date data)
  then raise (ValidationError "End date must be after start date")
  else mret data.

Definition ShowDetail_create (data : ShowDetailData) (avail : Z) : M ShowDetail :=
  db ← read_db;
  let s := {| show_id := next_id (ShowDetail_objects db); movie := data_movie data;
              screen := screen_id (data_screen data);
              start_time := data_start_time data; end_time := data_end_time data;
              start_date := data_start_date data; end_date := data_end_date data;
              available_seats := avail |} in
  _ ← write_db {| Screen_objects := Screen_objects db;
                  ScreenSeatTypesMapping_objects := ScreenSeatTypesMapping_objects db;
                  Seat_objects := Seat_objects db;
                  ShowDetail_objects := ShowDetail_objects db ++ [s];
                  ShowSeatPrice_objects := ShowSeatPrice_objects db;
                  BookedShowDetail_objects := BookedShowDetail_objects db;
                  Booking_objects := Booking_objects db |};
  mret s.

Definition ShowSeatPrice_create (show : ShowDetail) (show_price : Z * float) : M unit :=
  db ← read_db;
  let p := {| price_id := next_id (ShowSeatPrice_objects db);
              price_show_detail := show_id show;
              price_seat_type := show_price.1; price := show_price.2 |} in
  write_db {| Screen_objects := Screen_objects db;
              ScreenSeatTypesMapping_objects := ScreenSeatTypesMapping_objects db;
              Seat_objects := Seat_objects db;
              ShowDetail_objects := ShowDetail_objects db;
              ShowSeatPrice_objects := ShowSeatPrice_objects db ++ [p];
              BookedShowDetail_objects := BookedShowDetail_objects db;
              Booking_objects := Booking_objects db |}.

Definition BookedShowDetail_create (show : ShowDetail) (date avail : Z) : M unit :=
  db ← read_db;
  let r := {| booked_id := next_id (BookedShowDetail_objects db);
              booked_show_detail := show_id show;
              show_date := date; booked_available_seats := avail |} in
  write_db {| Screen_objects := Screen_objects db;
              ScreenSeatTypesMapping_objects := ScreenSeatTypesMapping_objects db;
              Seat_objects := Seat_objects db;
              ShowDetail_objects := ShowDetail_objects db;
              ShowSeatPrice_objects := ShowSeatPrice_objects db;
              BookedShowDetail_objects := BookedShowDetail_objects db ++ [r];
              Booking_objects := Booking_objects db |}.

(** [for x in xs: body(x)] *)
Fixpoint for_each {A} (xs : list A) (body : A → M unit) : M unit :=
  match xs with
  | [] => mret ()
  | x :: xs => _ ← body x; for_each xs body
  end.

(** [ShowDetailSerializer.save]; the value returned here is the row
    created, which is what the claims speak about. *)
Definition ShowDetailSerializer_save (validated_data : ShowDetailData) : M ShowDetail :=
  let screen := data_screen validated_data in
  let available_seats := total_seat screen in
  let show_prices := data_show_prices validated_data in
  show_detail ← ShowDetail_create validated_data available_seats;
  _ ← for_each show_prices (ShowSeatPrice_create show_detail);
  let show_start_date := start_date show_detail in
  let show_end_date := end_date show_detail in
  _ ← for_each (range 0 (show_end_date - show_start_date + 1))
        (λ day, BookedShowDetail_create show_detail (show_start_date + day)
                  available_seats);
  mret show_detail.

(** * The vocabulary of the properties *)

(** ** Validation *)

(** The three rules that do not look at the inventory, as propositions. *)
Definition seat_count_ok (seats : list Z) : Prop :=
  MIN_SEATS_PER_BOOKING ≤ Z.of_nat (length seats) ≤ MAX_SEATS_PER_BOOKING.

Definition past (now date : Z) : Prop := date < date_of now.

#[global] Instance seat_count_ok_dec seats : Decision (seat_count_ok seats).
Proof. unfold seat_count_ok. apply _. Defined.

#[global] Instance past_dec now date : Decision (past now date).
Proof. unfold past. apply _. Defined.

Definition window_expired (now : Z) (show : ShowDetail) (date : Z) : Prop :=
  combine date (start_time show) - now < timedelta_hours MIN_BOOKING_HOURS_BEFORE.

#[global] Instance window_expired_dec now show date :
  Decision (window_expired now show date).
Proof. unfold window_expired. apply _. Defined.

(** The seat keys rule 4 tests membership in: what
    [get_available_seats(show.id, show_date).values_list("id")] yields. *)
Definition available_ids (now : Z) (show : ShowDetail) (date : Z) (w : World) : list Z :=
  match get_available_seats now (show_id show) date w with
  | (inr qs, w') => values_list_id (w_db w') qs
  | (inl _, _) => []
  end.

(** The answer [raise ValidationError(ERROR_MESSAGES[k])]. *)
Definition rejected (k : error_key) : exn + unit :=
  inl (ValidationError (ERROR_MESSAGES k)).

(** ** Pricing *)

(** The rows [Seat.objects.filter(id__in=seats)] selects. *)
Definition selected_seats (db : DB) (seats : list Z) : list Seat :=
  filter (λ s, seat_id s ∈ seats) (Seat_objects db).




(** ** Ledger, cache and bookings *)

(** Every entry of the cache holds the query of its key.  The cache is
    written by [get_available_seats] only, which keeps this. *)
Definition cache_keyed (c : Cache) : Prop :=
  ∀ k qs expires, c !! k = Some (qs, expires) → (qs_show_id qs, qs_show_date qs) = k.

(** The bookings of a ledger key: those the query of
    [get_available_seats] reads the booked seats from. *)
Definition bookings_of (db : DB) (show date : Z) : list Booking :=
  filter (λ b, showtime b = show ∧ booking_show_date db b = Some date)
    (Booking_objects db).




(** The error [validate_booking_request] raises for a list of that many
    seats of which none passes rule 4. *)
Definition rejection (now : Z) (seats : nat) (show : ShowDetail) (date : Z) : error_key :=
  if bool_decide (MIN_SEATS_PER_BOOKING ≤ Z.of_nat seats ≤ MAX_SEATS_PER_BOOKING)
  then if bool_decide (past now date) then past_show
       else if bool_decide (window_expired now show date) then booking_window_expired
       else seats_unavailable
  else invalid_seat_count.

(** No seat is held by two of the bookings. *)
Definition no_double_booking (bookings : list Booking) : Prop :=
  ∀ b1 b2 s, b1 ∈ bookings → b2 ∈ bookings → s ∈ seats b1 → s ∈ seats b2 → b1 = b2.

(** ** Seat layout *)

Definition row_col (s : Seat) : Z * Z := (row s, col s).

(** The sum over the seat types of rows times columns. *)
Definition seat_total (seat_types : list SeatTypeDict) : Z :=
  foldr (λ st acc, st_rows st * st_columns st + acc) 0 seat_types.

(** The positions the inner loops give to the seats of one type, when the
    loop is entered with [rows]. *)
Definition block (rows : Z) (st : SeatTypeDict) : list (Z * Z) :=
  i ← range rows (st_rows st + rows);
  (λ j, (rows + i, j + 1)) <$> range 0 (st_columns st).

(** The positions of the seats of a screen, type after type. *)
Fixpoint layout (rows : Z) (seat_types : list SeatTypeDict) : list (Z * Z) :=
  match seat_types with
  | [] => []
  | st :: seat_types => block rows st ++ layout (st_rows st + rows) seat_types
  end.

(** The position [order_seat_types] writes a seat type to. *)
Definition slot (st : SeatTypeDict) : nat := Z.to_nat (st_order st - 1).

(** ** Concrete data used by the examples below *)

Module Scenario.

Definition platinum (rows cols order : Z) : SeatTypeDict :=
  {| st_seat_type := "PLATINUM"; st_rows := rows; st_columns := cols; st_order := order |}.

Definition gold (rows cols order : Z) : SeatTypeDict :=
  {| st_seat_type := "GOLD"; st_rows := rows; st_columns := cols; st_order := order |}.

(** Screen 1: one row of three PLATINUM seats, with keys 1, 2, 3. *)
Definition hall : Screen * DB :=
  Eval vm_compute in
    default ({| screen_id := 0; screen_number := 0; total_seat := 0 |}, empty_db)
      (Provisioning.ScreenViewSet_create 1 [platinum 1 3 1] empty_db).

(** Show 1 on screen 1, daily at 20:00 on the days 100 and 101, PLATINUM
    at 10.0; nothing cached. *)
Definition opening_db : DB :=
  Eval vm_compute in
       w_db (ShowDetailSerializer_save
               {| data_movie := 1; data_screen := hall.1;
                  data_start_time := 72000; data_end_time := 82800;
                  data_start_date := 100; data_end_date := 101;
                  data_show_prices := [(1, 10%float)] |}
               {| w_db := hall.2; w_cache := ∅ |}).2.

Definition opening : World := {| w_db := opening_db; w_cache := ∅ |}.



(** A second screen, with one GOLD seat (key 4), next to screen 1 and its
    show. *)
Definition two_screens_db : DB :=
  Eval vm_compute in
    default opening_db
      (snd <$> Provisioning.ScreenViewSet_create 2 [gold 1 1 1] opening_db).

Definition two_screens : World := {| w_db := two_screens_db; w_cache := ∅ |}.

Definition seat4 : Seat :=
  {| seat_id := 4; seat_number := "10"; row := 2; col := 1; type := 2 |}.

Definition seat1 : Seat :=
  {| seat_id := 1; seat_number := "10"; row := 2; col := 1; type := 1 |}.

Definition the_show : ShowDetail :=
  {| show_id := 1; movie := 1; screen := 1; start_time := 72000; end_time := 82800;
     start_date := 100; end_date := 101; available_seats := 3 |}.

(** Noon of day 99: eight hours more than a day before the first showing. *)
Definition noon_before : Z := 86400 * 99 + 43200.

(** A request of user 7 for show 1 on day 100, sent at [noon_before]. *)
Definition request (seats : list Z) : Request :=
  {| rq_now := noon_before; rq_user := 7; rq_show := 1;
     rq_data := {| req_seats := seats; req_show_date := 100 |} |}.

(** The availability of show 1 on day 100 is read at [noon_before], which
    fills the cache with the three seats; then a booking of seat 1, linked
    to the row of day 100 the way [create_test_booking] of the tests links
    it, is added to the ledger.  The cache entry still lists seat 1. *)
Definition stale_db : DB :=
  Eval vm_compute in
       set_bookings opening_db
         [{| booking_id := 1; user := 8; showtime := 1; booked_show := Some 1;
             total_amount := 10; seats := [1] |}].

Definition stale : World :=
  {| w_db := stale_db;
     w_cache := w_cache (get_available_seats noon_before 1 100 opening).2 |}.

End Scenario.

(** * The other views and helpers *)

(** ** movie/views.py: book_seats *)

(** [s.split(",")]: the pieces between the commas, empty ones included. *)
Fixpoint split_comma (s : string) : list string :=
  match s with
  | EmptyString => [EmptyString]
  | String c s' =>
      if Ascii.eqb c ","%char then EmptyString :: split_comma s'
      else match split_comma s' with
           | [] => [String c EmptyString]
           | piece :: pieces => String c piece :: pieces
           end
  end.

(** [x in ids] for a [str]: a [str] equals no [int]. *)
Definition str_eq_int (x : string) (id : Z) : bool := false.
Definition str_in (x : string) (ids : list Z) : bool := existsb (str_eq_int x) ids.

Inductive BookSeatsResponse : Type :=
  | redirect_movie_list
  | redirect_booking_detail (booking : Z)
  | redirect_select_seats (show : Z).

(** [messages.success(request, text)] and [messages.error(request, str(e))] *)
Inductive Message : Type :=
  | message_success (text : string)
  | message_error (e : exn).

(** [try: body except Exception as e: handler(e)] *)
Definition try_except {A} (body : M A) (handler : exn → M A) : M A :=
  λ w, match body w with
       | (inl e, w') => handler e w'
       | r => r
       end.

Section BookSeats.

(** The four statements between the validation and the success message
    (pricing, [Booking.objects.create], [booking.seats.set]) receive the
    keys as [str]; what Django makes of them is not in the sources, and
    they are a parameter here. *)
Variable after_validation : list string → ShowDetail → M Booking.

Definition book_seats (now usr : Z) (method : string) (selected_seats : option string)
    (show : Z) : M (BookSeatsResponse * list Message) :=
  if negb (String.eqb method "POST") then mret (redirect_movie_list, [])
  else
    show_detail ← get_object_or_404 show;
    let selected_seats := split_comma (default EmptyString selected_seats) in
    try_except
      (_ ← validate_booking_request_of str_in now selected_seats show_detail (date_of now);
       b ← after_validation selected_seats show_detail;
       mret (redirect_booking_detail (booking_id b),
             [message_success "Booking confirmed successfully!"]))
      (λ e, mret (redirect_select_seats show, [message_error e])).

End BookSeats.

(** ** movie/utils.py: get_show_seat_layout *)

(** A row of [seats.values("id", "seat_number", "row", "col")] *)
Record SeatValues : Type := {
  values_id : Z;
  values_seat_number : string;
  values_row : Z;
  values_col : Z
}.

(** The entry of one seat type: ["rows"], ["columns"], ["seats"] *)
Record TypeLayout : Type := {
  entry_rows : Z;
  entry_columns : Z;
  entry_seats : list SeatValues
}.

(** The layout of a screen is a [dict] from seat type label to entry.  The
    cache keys [f"seat_layout_{screen_id}"] do not meet the keys of the
    availability; the entries are kept in a map of their own, by screen,
    each with the time it expires at, if it does. *)
Abbreviation Layout := (gmap string TypeLayout).
Abbreviation LayoutCache := (gmap Z (Layout * option Z)).

Definition seat_values (s : Seat) : SeatValues :=
  {| values_id := seat_id s; values_seat_number := seat_number s;
     values_row := row s; values_col := col s |}.

(** [qs.order_by("-f").first().f if qs.exists() else 0] *)
Definition first_descending (l : list Z) : Z :=
  match l with
  | [] => 0
  | x :: l => foldr Z.max x l
  end.

(** The body of the loop over the seat types of the screen. *)
Definition type_layout (db : DB) (m : ScreenSeatTypesMapping) : TypeLayout :=
  let seats := filter (λ s, type s = mapping_id m) (Seat_objects db) in
  {| entry_rows := first_descending (row <$> seats);
     entry_columns := first_descending (col <$> seats);
     entry_seats := seat_values <$> seats |}.

Definition screen_seat_types (db : DB) (scr : Z) : list ScreenSeatTypesMapping :=
  filter (λ m, mapping_screen m = scr) (ScreenSeatTypesMapping_objects db).

Definition compute_layout (db : DB) (scr : Z) : Layout :=
  fold_left (λ layout m, <[seat_type m := type_layout db m]> layout)
    (screen_seat_types db scr) ∅.

Section SeatLayout.

(** [cache.set(cache_key, layout)] gives no timeout: the entry lives for
    the default timeout of the cache backend, a setting that is not in the
    sources ([None]: for ever). *)
Variable DEFAULT_TIMEOUT : option Z.

Definition layout_cache_get (now : Z) (scr : Z) (c : LayoutCache) : option Layout :=
  match c !! scr with
  | Some (v, Some expires) => if bool_decide (now < expires) then Some v else None
  | Some (v, None) => Some v
  | None => None
  end.

Definition get_show_seat_layout (now : Z) (scr : Z) (db : DB) (c : LayoutCache)
    : Layout * LayoutCache :=
  match layout_cache_get now scr c with
  | Some cached_layout => (cached_layout, c)
  | None =>
      let layout := compute_layout db scr in
      (layout, <[scr := (layout, (λ t, now + t) <$> DEFAULT_TIMEOUT)]> c)
  end.

End SeatLayout.

(** ** movie/views.py: ShowDetailViewSet.update_price and create *)

(** [get_object_or_404(ShowSeatPrice, id=show_price_id, show_detail_id=show_id)] *)
Definition get_price_or_404 (show_price_id show : Z) : M ShowSeatPrice :=
  db ← read_db;
  match list_find (λ p, price_id p = show_price_id ∧ price_show_detail p = show)
          (ShowSeatPrice_objects db) with
  | Some (_, p) => mret p
  | None => raise Http404
  end.

(** [show_price.save()]: the row with the key of the object is rewritten. *)
Definition ShowSeatPrice_save (p : ShowSeatPrice) : M unit :=
  db ← read_db;
  write_db {| Screen_objects := Screen_objects db;
              ScreenSeatTypesMapping_objects := ScreenSeatTypesMapping_objects db;
              Seat_objects := Seat_objects db;
              ShowDetail_objects := ShowDetail_objects db;
              ShowSeatPrice_objects :=
                (λ x, if bool_decide (price_id x = price_id p) then p else x)
                  <$> ShowSeatPrice_objects db;
              BookedShowDetail_objects := BookedShowDetail_objects db;
              Booking_objects := Booking_objects db |}.

(** [update_price]; [data_price] is [request.data.get("price")] once
    [float] has read it, [None] when the request has no price.  The answer
    is the price of the response. *)
Definition update_price (show show_price_id : Z) (data_price : option float) : M float :=
  show_price ← get_price_or_404 show_price_id show;
  let new_price := default 0%float data_price in
  _ ← ShowSeatPrice_save
        {| price_id := price_id show_price;
           price_show_detail := price_show_detail show_price;
           price_seat_type := price_seat_type show_price;
           price := new_price |};
  mret new_price.

(** Creating a show through the view set: [serializer.is_valid], which
    runs [validate], then [serializer.save()]. *)
Definition ShowDetailViewSet_create (data : ShowDetailData) : M ShowDetail :=
  validated_data ← ShowDetailSerializer_validate data;
  ShowDetailSerializer_save validated_data.

(** ** The vocabulary of the further properties *)

(** Foreign keys of the catalog point to rows, and the keys of seat types
    and screens are those [next_id] hands out. *)
Definition catalog_wf (db : DB) : Prop :=
  (∀ i m, ScreenSeatTypesMapping_objects db !! i = Some m → mapping_id m = Z.of_nat i + 1)
  ∧ (∀ s, s ∈ Seat_objects db →
          1 ≤ type s ≤ Z.of_nat (length (ScreenSeatTypesMapping_objects db)))
  ∧ (∀ m, m ∈ ScreenSeatTypesMapping_objects db →
          1 ≤ mapping_screen m ≤ Z.of_nat (length (Screen_objects db))).

(** The number of seats the loops of [create_screen_with_seats] create. *)
Definition seats_created (seat_types : list SeatTypeDict) : Z :=
  foldr (λ st acc, Z.max 0 (st_rows st) * Z.max 0 (st_columns st) + acc) 0 seat_types.

(** A database with seat types and seats appended to its tables. *)
Definition add_catalog (db : DB) (seat_types : list ScreenSeatTypesMapping)
    (new_seats : list Seat) : DB :=
  {| Screen_objects := Screen_objects db;
     ScreenSeatTypesMapping_objects := ScreenSeatTypesMapping_objects db ++ seat_types;
     Seat_objects := Seat_objects db ++ new_seats;
     ShowDetail_objects := ShowDetail_objects db;
     ShowSeatPrice_objects := ShowSeatPrice_objects db;
     BookedShowDetail_objects := BookedShowDetail_objects db;
     Booking_objects := Booking_objects db |}.

(** The keys of the screens are those [next_id] hands out. *)
Definition screen_ids_sequential (db : DB) : Prop :=
  ∀ i scr, Screen_objects db !! i = Some scr → screen_id scr = Z.of_nat i + 1.

(** The row [update_price] writes for a row it has found. *)
Definition with_price (new_price : float) (p : ShowSeatPrice) : ShowSeatPrice :=
  {| price_id := price_id p; price_show_detail := price_show_detail p;
     price_seat_type := price_seat_type p; price := new_price |}.

(** Primary keys of shows as [next_id] hands them out, and prices that
    belong to shows of the table. *)
Definition show_ids_sequential (db : DB) : Prop :=
  ∀ i sd, ShowDetail_objects db !! i = Some sd → show_id sd = Z.of_nat i + 1.

Definition prices_of_shows (db : DB) : Prop :=
  ∀ p, p ∈ ShowSeatPrice_objects db →
       1 ≤ price_show_detail p ≤ Z.of_nat (length (ShowDetail_objects db)).

(** An entry of [show_prices] as a price row holds it. *)
Definition price_entry (p : ShowSeatPrice) : Z * float := (price_seat_type p, price p).

(** What the loops of [create_screen_with_seats] give a seat, its key
    apart. *)
Record Place : Type := {
  place_type : Z;
  place_number : string;
  place_row : Z;
  place_col : Z
}.

Definition seat_place (s : Seat) : Place :=
  {| place_type := type s; place_number := seat_number s;
     place_row := row s; place_col := col s |}.

(** The seats of the seat type with key [ty], when the loop reaches it
    with [rows]; and those of a screen, type after type. *)
Definition type_places (rows ty : Z) (st : SeatTypeDict) : list Place :=
  i ← range rows (st_rows st + rows);
  (λ j, {| place_type := ty; place_number := pretty i +:+ pretty j;
           place_row := rows + i; place_col := j + 1 |}) <$> range 0 (st_columns st).

Fixpoint places (rows ty : Z) (seat_types : list SeatTypeDict) : list Place :=
  match seat_types with
  | [] => []
  | st :: seat_types =>
      type_places rows ty st ++ places (st_rows st + rows) (ty + 1) seat_types
  end.

(** The value of [rows] when the loop reaches the entry at position [k],
    after it started with [rows]. *)
Definition rows_from (rows : Z) (seat_types : list SeatTypeDict) (k : nat) : Z :=
  fold_left (λ rows st, st_rows st + rows) (take k seat_types) rows.

(** * Properties *)

(** ** Lists *)

Section Lists.

Lemma filter_all {A} (P : A → Prop) `{∀ x, Decision (P x)} (l : list A) :
  Forall P l → filter P l = l.
Proof.
  induction 1 as [|x l Hx _ IH]; [done|]. by rewrite filter_cons_True, IH.
Qed.

Lemma filter_ext_in {A} (P1 P2 : A → Prop) `{∀ x, Decision (P1 x)} `{∀ x, Decision (P2 x)}
    (l : list A) :
  (∀ x, x ∈ l → P1 x ↔ P2 x) → filter P1 l = filter P2 l.
Proof.
  induction l as [|a l IH]; intros Hiff; [done|].
  assert (filter P1 l = filter P2 l) as IH'.
  { apply IH. intros x Hx. by apply Hiff, list_elem_of_further. }
  pose proof (Hiff a (list_elem_of_here _ _)) as Ha.
  destruct (decide (P1 a)).
  - rewrite !filter_cons_True by tauto. by rewrite IH'.
  - rewrite !filter_cons_False by tauto. by rewrite IH'.
Qed.

Lemma filter_none {A} (P : A → Prop) `{∀ x, Decision (P x)} (l : list A) :
  Forall (λ x, ¬ P x) l → filter P l = [].
Proof.
  induction 1 as [|x l Hx _ IH]; [done|]. by rewrite filter_cons_False, IH.
Qed.

Lemma filter_fmap {A B} (f : A → B) (P : B → Prop) `{!∀ y, Decision (P y)} (l : list A) :
  filter P (f <$> l) = f <$> filter (P ∘ f) l.
Proof.
  induction l as [|x l IH]; [done|]. rewrite fmap_cons, !filter_cons. simpl.
  destruct (decide (P (f x))); by rewrite IH.
Qed.

(** Rows of a table with distinct keys are equal when their keys are. *)
Lemma NoDup_key_inj {A B} (key : A → B) (rows : list A) (x y : A) :
  NoDup (key <$> rows) → x ∈ rows → y ∈ rows → key x = key y → x = y.
Proof.
  intros Hnd Hx Hy Hk.
  apply list_elem_of_lookup in Hx as [i Hi]. apply list_elem_of_lookup in Hy as [j Hj].
  assert (i = j) as ->; [|congruence].
  apply (NoDup_lookup (key <$> rows) i j (key x) Hnd).
  - by rewrite list_lookup_fmap, Hi.
  - by rewrite list_lookup_fmap, Hj, Hk.
Qed.

End Lists.

(** ** The validator (movie/utils.py, validate_booking_request) *)

Section Validator.

Lemma ERROR_MESSAGES_inj (k1 k2 : error_key) :
  ERROR_MESSAGES k1 = ERROR_MESSAGES k2 → k1 = k2.
Proof. destruct k1, k2; vm_compute; intros H; first [reflexivity | discriminate H]. Qed.

Lemma rejected_inj (k1 k2 : error_key) : rejected k1 = rejected k2 → k1 = k2.
Proof. unfold rejected. intros [= H]. by apply ERROR_MESSAGES_inj. Qed.

Lemma forallb_elem_of (ids seats : list Z) :
  forallb (λ x, bool_decide (x ∈ ids)) seats = true ↔ Forall (λ x, x ∈ ids) seats.
Proof.
  rewrite forallb_forall, Forall_forall. split; intros H x Hx.
  - apply list_elem_of_In in Hx. apply H in Hx. by apply bool_decide_eq_true in Hx.
  - apply bool_decide_eq_true, H, list_elem_of_In, Hx.
Qed.

Lemma get_available_seats_returns (now show date : Z) (w : World) :
  ∃ qs w', get_available_seats now show date w = (inr qs, w') ∧ w_db w' = w_db w.
Proof.
  unfold get_available_seats, mbind, M_bind, cache_get, cache_set, read_db, mret, M_ret.
  simpl. destruct (w_cache w !! (show, date)) as [[qs e]|]; [case_bool_decide|]; eauto.
Qed.

(** What [validate_booking_request] answers, rule by rule. *)
Lemma validate_cases (now : Z) (seats : list Z) (show : ShowDetail) (date : Z) (w : World) :
  (validate_booking_request now seats show date w).1 =
    if bool_decide (seat_count_ok seats) then
      if bool_decide (past now date) then rejected past_show
      else if bool_decide (window_expired now show date) then rejected booking_window_expired
      else if bool_decide (Forall (λ x, x ∈ available_ids now show date w) seats)
      then inr () else rejected seats_unavailable
    else rejected invalid_seat_count.
Proof.
  unfold validate_booking_request.
  rewrite (bool_decide_ext _ (seat_count_ok seats)) by done.
  rewrite (bool_decide_ext (date < date_of now) (past now date)) by done.
  rewrite (bool_decide_ext (_ < _) (window_expired now show date)) by done.
  destruct (bool_decide (seat_count_ok seats)); simpl; [|done].
  destruct (bool_decide (past now date)); simpl; [done|].
  destruct (bool_decide (window_expired now show date)); simpl; [done|].
  unfold available_ids, mbind, M_bind.
  destruct (get_available_seats_returns now (show_id show) date w) as (qs & w' & -> & Hdb).
  simpl.
  destruct (forallb _ seats) eqn:Hall; simpl.
  - apply forallb_elem_of in Hall. by rewrite bool_decide_eq_true_2.
  - rewrite bool_decide_eq_false_2; [done|].
    intros HF. apply forallb_elem_of in HF. congruence.
Qed.

End Validator.

(** C6.  The validator applies its four rules in the order seat count,
    past show, booking window, seat availability, and the first rule that
    fails gives the error: a request with a wrong number of seats is
    answered with the seat-count message whatever else is wrong with it,
    in particular when it is also inside the cut-off window, where the
    answer is not the booking-window message; a past date is reported only
    when the count is right, the expired window only when count and date
    are right, unavailable seats only when the first three rules pass; and
    the request is accepted exactly when all four pass. *)
Theorem validate_rule_order (now : Z) (seats : list Z) (show : ShowDetail) (date : Z)
    (w : World) :
  let r := (validate_booking_request now seats show date w).1 in
  (¬ seat_count_ok seats → r = rejected invalid_seat_count)
  ∧ (¬ seat_count_ok seats → window_expired now show date →
       r = rejected invalid_seat_count ∧ r ≠ rejected booking_window_expired)
  ∧ (seat_count_ok seats → past now date → r = rejected past_show)
  ∧ (seat_count_ok seats → ¬ past now date → window_expired now show date →
       r = rejected booking_window_expired)
  ∧ (seat_count_ok seats → ¬ past now date → ¬ window_expired now show date →
       ¬ Forall (λ x, x ∈ available_ids now show date w) seats →
       r = rejected seats_unavailable)
  ∧ (seat_count_ok seats → ¬ past now date → ¬ window_expired now show date →
       Forall (λ x, x ∈ available_ids now show date w) seats → r = inr ()).
Proof.
  intros r. subst r. rewrite validate_cases.
  repeat split; intros; repeat case_bool_decide; try done.
Qed.

Lemma validate_rule_order_witness :
  ¬ seat_count_ok (replicate 11 1)
  ∧ window_expired (86400 * 100 + 71000) Scenario.the_show 100
  ∧ (validate_booking_request (86400 * 100 + 71000) (replicate 11 1)
       Scenario.the_show 100 Scenario.opening).1 = rejected invalid_seat_count.
Proof.
  assert (H1 : ¬ seat_count_ok (replicate 11 1)).
  { unfold seat_count_ok, MIN_SEATS_PER_BOOKING, MAX_SEATS_PER_BOOKING. simpl. lia. }
  assert (H2 : window_expired (86400 * 100 + 71000) Scenario.the_show 100).
  { unfold window_expired, combine, timedelta_hours, MIN_BOOKING_HOURS_BEFORE,
      seconds_per_day. simpl. lia. }
  split; [exact H1|]. split; [exact H2|].
  exact (proj1 (proj1 (proj2 (validate_rule_order _ _ _ _ _)) H1 H2)).
Defined.

(** ** Creating a show (movie/serializers.py, ShowDetailSerializer.save) *)

Section ShowCreation.

Lemma range_shift (a n : Z) : (λ day, a + day) <$> range 0 n = range a (a + n).
Proof.
  unfold range. rewrite <- list_fmap_compose.
  replace (a + n - a) with (n - 0) by lia.
  apply list_fmap_ext. intros _ k _. simpl. lia.
Qed.

Lemma elem_of_range (a b d : Z) : d ∈ range a b ↔ a ≤ d < b.
Proof.
  unfold range. rewrite list_elem_of_fmap. split.
  - intros (k & -> & Hk). apply elem_of_seq in Hk. lia.
  - intros H. exists (Z.to_nat (d - a)). split; [lia|]. apply elem_of_seq. lia.
Qed.

Lemma NoDup_range (a b : Z) : NoDup (range a b).
Proof.
  unfold range.
  assert (Inj (=) (=) (λ k : nat, a + Z.of_nat k)) by (intros x y; lia).
  apply NoDup_fmap_2, NoDup_seq. done.
Qed.

(** A key occurs once in a duplicate-free list that has it, and not at all
    in a list that has not. *)
Lemma count_NoDup {A} (key : A → Z) (rows : list A) (d : Z) :
  NoDup (key <$> rows) →
  length (filter (λ r, key r = d) rows)
  = if bool_decide (d ∈ key <$> rows) then 1%nat else 0%nat.
Proof.
  induction rows as [|r rows IH]; intros Hnd.
  - rewrite bool_decide_eq_false_2; [done|]. rewrite fmap_nil. apply not_elem_of_nil.
  - rewrite fmap_cons in Hnd |- *. apply NoDup_cons in Hnd as [Hr Hnd].
    rewrite filter_cons. specialize (IH Hnd).
    destruct (decide (key r = d)) as [<-|Hne]; simpl.
    + rewrite IH. rewrite (bool_decide_eq_false_2 _ Hr).
      rewrite bool_decide_eq_true_2; [done|]. apply list_elem_of_here.
    + rewrite IH.
      rewrite (bool_decide_ext (d ∈ key r :: (key <$> rows)) (d ∈ key <$> rows)); [done|].
      rewrite elem_of_cons. split; [intros [->|Hd]; done | by right].
Qed.

(** The price loop writes prices only. *)
Lemma for_each_prices (sd : ShowDetail) (prices : list (Z * float)) (w : World) :
  ∃ w', for_each prices (ShowSeatPrice_create sd) w = (inr (), w')
        ∧ ShowDetail_objects (w_db w') = ShowDetail_objects (w_db w)
        ∧ BookedShowDetail_objects (w_db w') = BookedShowDetail_objects (w_db w).
Proof.
  revert w. induction prices as [|p prices IH]; intros w; simpl.
  - by exists w.
  - unfold mbind, M_bind. simpl.
    match goal with |- context [for_each prices _ ?w1] => destruct (IH w1) as (w' & -> & H1 & H2) end.
    exists w'. by repeat split.
Qed.

(** The day loop appends one row per element of the range, in order. *)
Lemma for_each_days (sd : ShowDetail) (start avail : Z) (days : list Z) (w : World) :
  ∃ w' rows,
    for_each days (λ day, BookedShowDetail_create sd (start + day) avail) w = (inr (), w')
    ∧ ShowDetail_objects (w_db w') = ShowDetail_objects (w_db w)
    ∧ BookedShowDetail_objects (w_db w') = BookedShowDetail_objects (w_db w) ++ rows
    ∧ show_date <$> rows = (λ day, start + day) <$> days
    ∧ Forall (λ r, booked_show_detail r = show_id sd ∧ booked_available_seats r = avail) rows.
Proof.
  revert w. induction days as [|day days IH]; intros w; simpl.
  - exists w, []. by rewrite app_nil_r.
  - unfold mbind, M_bind. simpl.
    match goal with |- context [for_each days _ ?w1] =>
      destruct (IH w1) as (w' & rows & -> & H1 & H2 & H3 & H4) end.
    simpl in H1, H2. eexists w', (_ :: rows). split; [done|].
    split; [done|]. split; [by rewrite H2, <- app_assoc|].
    split; [by rewrite !fmap_cons, H3|]. by constructor.
Qed.

(** The price loop appends one price row per entry, in order, and writes
    nothing else. *)
Lemma for_each_prices_rows (sd : ShowDetail) (prices : list (Z * float)) (w : World) :
  ∃ w' rows,
    for_each prices (ShowSeatPrice_create sd) w = (inr (), w')
    ∧ ShowSeatPrice_objects (w_db w') = ShowSeatPrice_objects (w_db w) ++ rows
    ∧ price_entry <$> rows = prices
    ∧ Forall (λ p, price_show_detail p = show_id sd) rows
    ∧ w_cache w' = w_cache w
    ∧ Screen_objects (w_db w') = Screen_objects (w_db w)
    ∧ ScreenSeatTypesMapping_objects (w_db w') = ScreenSeatTypesMapping_objects (w_db w)
    ∧ Seat_objects (w_db w') = Seat_objects (w_db w)
    ∧ ShowDetail_objects (w_db w') = ShowDetail_objects (w_db w)
    ∧ Booking_objects (w_db w') = Booking_objects (w_db w)
    ∧ BookedShowDetail_objects (w_db w') = BookedShowDetail_objects (w_db w).
Proof.
  revert w. induction prices as [|[ty pr] prices IH]; intros w; simpl.
  - exists w, []. by rewrite app_nil_r.
  - unfold mbind, M_bind. simpl.
    match goal with |- context [for_each prices _ ?w1] =>
      destruct (IH w1)
        as (w' & rows & -> & H1 & H2 & H3 & H4 & H5 & H6 & H7 & H8 & H9 & H10) end.
    simpl in *. eexists w', (_ :: rows). split; [done|].
    split; [by rewrite H1, <- app_assoc|].
    split; [by rewrite fmap_cons, H2|]. split; [by constructor|]. done.
Qed.

(** The day loop writes per-date rows only. *)
Lemma for_each_days_rest (sd : ShowDetail) (start avail : Z) (days : list Z) (w : World) :
  ∃ w', for_each days (λ day, BookedShowDetail_create sd (start + day) avail) w = (inr (), w')
        ∧ ShowSeatPrice_objects (w_db w') = ShowSeatPrice_objects (w_db w)
        ∧ w_cache w' = w_cache w
        ∧ Screen_objects (w_db w') = Screen_objects (w_db w)
        ∧ ScreenSeatTypesMapping_objects (w_db w') = ScreenSeatTypesMapping_objects (w_db w)
        ∧ Seat_objects (w_db w') = Seat_objects (w_db w)
        ∧ ShowDetail_objects (w_db w') = ShowDetail_objects (w_db w)
        ∧ Booking_objects (w_db w') = Booking_objects (w_db w).
Proof.
  revert w. induction days as [|day days IH]; intros w; simpl.
  - by exists w.
  - unfold mbind, M_bind. simpl.
    match goal with |- context [for_each days _ ?w1] =>
      destruct (IH w1) as (w' & -> & H) end.
    by exists w'.
Qed.

Lemma show_of_app (shows : list ShowDetail) (sd : ShowDetail) (key : Z) :
  show_id sd ≠ key →
  snd <$> list_find (λ s, show_id s = key) (shows ++ [sd])
  = snd <$> list_find (λ s, show_id s = key) shows.
Proof.
  intros Hne. destruct (list_find _ shows) as [[i x]|] eqn:Hfind.
  - by rewrite (list_find_app_l _ _ _ _ _ Hfind).
  - rewrite (list_find_app_r _ _ _ Hfind). simpl. by rewrite decide_False.
Qed.

Lemma show_of_new (shows : list ShowDetail) (sd : ShowDetail) :
  (∀ i x, shows !! i = Some x → show_id x = Z.of_nat i + 1) →
  show_id sd = next_id shows →
  snd <$> list_find (λ s, show_id s = show_id sd) (shows ++ [sd]) = Some sd.
Proof.
  intros Hseq Hid.
  assert (list_find (λ s, show_id s = show_id sd) shows = None) as Hnone.
  { apply list_find_None, Forall_forall. intros x Hx.
    apply list_elem_of_lookup in Hx as [i Hi]. rewrite (Hseq i x Hi), Hid.
    apply lookup_lt_Some in Hi. unfold next_id. lia. }
  rewrite (list_find_app_r _ _ _ Hnone). simpl. by rewrite decide_True.
Qed.


(** [validate] lets through exactly the date ranges that are not empty. *)
Lemma ShowDetailSerializer_validate_accepts (data : ShowDetailData) (w : World) :
  ShowDetailSerializer_validate data w = (inr data, w)
  ↔ data_start_date data ≤ data_end_date data.
Proof.
  unfold ShowDetailSerializer_validate. case_bool_decide; split; try done; lia.
Qed.

End ShowCreation.

(** C7.  Saving a show creates the ShowDetail row with [available_seats]
    equal to the screen's [total_seat], and appends to the per-date table
    rows of that show only, each with [available_seats] equal to the
    screen's [total_seat], exactly one for every day of the inclusive range
    from [start_date] to [end_date] and none for any other day. *)
Theorem save_creates_one_row_per_day (data : ShowDetailData) (w : World) :
  ∃ sd w' rows,
    ShowDetailSerializer_save data w = (inr sd, w')
    ∧ ShowDetail_objects (w_db w') = ShowDetail_objects (w_db w) ++ [sd]
    ∧ screen sd = screen_id (data_screen data)
    ∧ start_date sd = data_start_date data ∧ end_date sd = data_end_date data
    ∧ available_seats sd = total_seat (data_screen data)
    ∧ BookedShowDetail_objects (w_db w') = BookedShowDetail_objects (w_db w) ++ rows
    ∧ Forall (λ r, booked_show_detail r = show_id sd
                   ∧ booked_available_seats r = total_seat (data_screen data)) rows
    ∧ ∀ d, length (filter (λ r, show_date r = d) rows)
           = if bool_decide (data_start_date data ≤ d ≤ data_end_date data)
             then 1%nat else 0%nat.
Proof.
  unfold ShowDetailSerializer_save, ShowDetail_create, mbind, M_bind. simpl.
  match goal with |- context [for_each (data_show_prices data) (ShowSeatPrice_create ?sd) ?w1] =>
    destruct (for_each_prices sd (data_show_prices data) w1) as (w2 & -> & Hs2 & Hb2);
    set (show_detail := sd) in * end.
  simpl in Hs2, Hb2.
  match goal with |- context [for_each ?days ?body w2] =>
    destruct (for_each_days show_detail (data_start_date data)
                (total_seat (data_screen data)) days w2)
      as (w3 & rows & -> & Hs3 & Hb3 & Hdates & Hrows) end.
  exists show_detail, w3, rows. simpl.
  rewrite Hs3, Hs2, Hb3, Hb2. repeat split; try done.
  intros d. rewrite range_shift in Hdates.
  rewrite (count_NoDup show_date) by (rewrite Hdates; apply NoDup_range).
  rewrite Hdates.
  rewrite (bool_decide_ext (d ∈ range _ _) (data_start_date data ≤ d ≤ data_end_date data));
    [done|].
  rewrite elem_of_range. lia.
Qed.

(** ** Pricing (movie/utils.py, calculate_total_price) *)

Section Pricing.





Lemma seat_types_of_dups (db : DB) (seats : list Z) :
  seat_types_of db (remove_dups seats) = seat_types_of db seats.
Proof.
  unfold seat_types_of. f_equal. apply list_filter_iff.
  intros s. apply elem_of_remove_dups.
Qed.

End Pricing.




(** C10.  The total does not depend on how often a seat key is repeated
    in the list: it is the total of the list without its duplicates.  The
    validator, on the other hand, counts the entries of the list as given:
    a list longer than the maximum is rejected for its seat count however
    few distinct keys it has. *)
Theorem calculate_total_price_duplicates (seats : list Z) (show : Z) (w : World) :
  calculate_total_price seats show w = calculate_total_price (remove_dups seats) show w
  ∧ ∀ now sd date,
      MAX_SEATS_PER_BOOKING < Z.of_nat (length seats) →
      (validate_booking_request now seats sd date w).1 = rejected invalid_seat_count.
Proof.
  split.
  - unfold calculate_total_price, mbind, M_bind, read_db. simpl.
    by rewrite seat_types_of_dups.
  - intros now sd date Hlen.
    rewrite validate_cases, bool_decide_eq_false_2; [done|].
    unfold seat_count_ok. lia.
Qed.

Lemma calculate_total_price_duplicates_witness :
  seat_count_ok (remove_dups (replicate 11 1))
  ∧ calculate_total_price (replicate 11 1) 1 Scenario.opening
    = calculate_total_price [1] 1 Scenario.opening
  ∧ (validate_booking_request Scenario.noon_before (replicate 11 1) Scenario.the_show 100
       Scenario.opening).1 = rejected invalid_seat_count.
Proof.
  split; [vm_compute; split; discriminate|].
  split.
  - exact (proj1 (calculate_total_price_duplicates (replicate 11 1) 1 Scenario.opening)).
  - apply (proj2 (calculate_total_price_duplicates (replicate 11 1) 1 Scenario.opening)).
    unfold MAX_SEATS_PER_BOOKING. simpl. lia.
Defined.

(** ** The availability check against the ledger *)

Section Ledger.

Lemma cache_keyed_empty : cache_keyed ∅.
Proof. intros k qs e H. by rewrite lookup_empty in H. Qed.

Lemma get_available_seats_keyed (now show date : Z) (w : World) :
  cache_keyed (w_cache w) →
  ∃ qs w', get_available_seats now show date w = (inr qs, w')
           ∧ w_db w' = w_db w
           ∧ qs_show_id qs = show ∧ qs_show_date qs = date
           ∧ cache_keyed (w_cache w').
Proof.
  intros Hc.
  unfold get_available_seats, mbind, M_bind, cache_get, cache_set, read_db, mret, M_ret.
  simpl. destruct (w_cache w !! (show, date)) as [[qs e]|] eqn:E.
  - apply Hc in E as [= E1 E2]. case_bool_decide; simpl.
    + by exists qs, w.
    + eexists _, _. repeat split; try done. simpl.
      intros k qs' e' Hk. apply lookup_insert_Some in Hk as [[<- [= <- _]]|[_ Hk]]; [done|].
      by apply Hc in Hk.
  - eexists _, _. repeat split; try done. simpl.
    intros k qs' e' Hk. apply lookup_insert_Some in Hk as [[<- [= <- _]]|[_ Hk]]; [done|].
    by apply Hc in Hk.
Qed.

(** With such a cache, rule 4 tests membership in the seats the ledger has
    free at the moment of the request, whatever rows the cached QuerySet
    carries. *)
Lemma available_ids_ledger (now : Z) (sd : ShowDetail) (date : Z) (w : World) :
  cache_keyed (w_cache w) →
  available_ids now sd date w = seat_id <$> run_query (w_db w) (show_id sd) date.
Proof.
  intros Hc. unfold available_ids.
  destruct (get_available_seats_keyed now (show_id sd) date w Hc)
    as (qs & w' & -> & -> & Hs & Hd & _).
  unfold values_list_id. by rewrite Hs, Hd.
Qed.

Lemma booked_not_available (db : DB) (show date s : Z) :
  s ∈ booked_seats db show date → s ∉ seat_id <$> run_query db show date.
Proof.
  intros Hb Ha. apply list_elem_of_fmap in Ha as (x & -> & Hx).
  unfold run_query in Hx. by apply list_elem_of_filter in Hx as [Hx _].
Qed.

(** On a miss the rows returned are the seats of the whole table that the
    ledger has not booked for the key; the screen of the show plays no
    part. *)
Lemma get_available_seats_miss (now show date : Z) (w : World) :
  w_cache w !! (show, date) = None →
  ∃ qs w', get_available_seats now show date w = (inr qs, w')
           ∧ w_db w' = w_db w
           ∧ ∀ s, s ∈ qs_rows (w_db w') qs
                  ↔ s ∈ Seat_objects (w_db w) ∧ seat_id s ∉ booked_seats (w_db w) show date.
Proof.
  intros Hmiss.
  unfold get_available_seats, mbind, M_bind, cache_get, cache_set, read_db, mret, M_ret.
  simpl. rewrite Hmiss. eexists _, _. split; [done|]. split; [done|].
  intros s. unfold qs_rows, run_query. simpl. rewrite list_elem_of_filter. tauto.
Qed.

End Ledger.

(** ** The booking view commits nothing *)

Section BookingRefuses.

Variable seats_allow_empty : bool.
Variable after_validation : Z → list Seat → ShowDetail → M Booking.

Lemma validate_world (now : Z) (seats : list Z) (sd : ShowDetail) (date : Z) (w : World) :
  w_db (validate_booking_request now seats sd date w).2 = w_db w.
Proof.
  unfold validate_booking_request.
  repeat (case_bool_decide; simpl; try done).
  unfold mbind, M_bind.
  destruct (get_available_seats_returns now (show_id sd) date w) as (qs & w' & -> & Hdb).
  simpl. by destruct (forallb _ seats).
Qed.

Lemma calculate_world (seats : list Z) (show : Z) (w : World) :
  (calculate_total_price seats show w).2 = w.
Proof.
  unfold calculate_total_price, mbind, M_bind, read_db. simpl.
  by destruct (show_of (w_db w) show).
Qed.

Lemma seat_in_false (s : Seat) (ids : list Z) : seat_in s ids = false.
Proof. unfold seat_in. induction ids as [|id ids IH]; [done|]. simpl. exact IH. Qed.

(** With keys that equal no integer the validator rejects every list: an
    empty one for its length, any other at rule 4 at the latest. *)
Lemma validate_of_rejects {A} (py_in : A → list Z → bool) (now : Z) (seats : list A)
    (sd : ShowDetail) (date : Z) (w : World) :
  (∀ x ids, py_in x ids = false) →
  ∃ w', validate_booking_request_of py_in now seats sd date w
        = (inl (ValidationError (ERROR_MESSAGES (rejection now (length seats) sd date))), w')
        ∧ w_db w' = w_db w.
Proof.
  intros Hfalse. unfold validate_booking_request_of, rejection.
  rewrite (bool_decide_ext (date < date_of now) (past now date)) by done.
  rewrite (bool_decide_ext (_ - now < _) (window_expired now sd date)) by done.
  case_bool_decide as Hcount; simpl; [|by exists w].
  case_bool_decide; simpl; [by exists w|].
  case_bool_decide; simpl; [by exists w|].
  unfold mbind, M_bind.
  destruct (get_available_seats_returns now (show_id sd) date w) as (qs & w' & -> & Hdb).
  simpl.
  assert (forallb (λ seat_id, py_in seat_id (values_list_id (w_db w') qs)) seats = false)
    as ->.
  { destruct seats as [|x seats]; [|simpl; by rewrite Hfalse].
    exfalso. unfold MIN_SEATS_PER_BOOKING in Hcount. simpl in Hcount. lia. }
  simpl. by exists w'.
Qed.

Lemma seats_to_internal_value_inr (db : DB) (keys : list Z) (seats : list Seat) :
  seats_to_internal_value db keys = inr seats →
  seat_id <$> seats = keys ∧ Forall (λ s, s ∈ Seat_objects db) seats.
Proof.
  revert seats. induction keys as [|key keys IH]; intros seats; simpl.
  - by intros [= <-].
  - unfold Seat_get. destruct (list_find _ _) as [[i s]|] eqn:Hfind; simpl; [|done].
    destruct (seats_to_internal_value db keys) as [e|seats']; [done|].
    intros [= <-]. destruct (IH seats' eq_refl) as [Hk Hin].
    apply list_find_Some in Hfind as (Hi & Hid & _).
    split; [by rewrite fmap_cons, Hid, Hk|].
    constructor; [by eapply list_elem_of_lookup_2|done].
Qed.

Lemma seats_to_internal_value_found (db : DB) (keys : list Z) :
  Forall (λ k, is_Some (Seat_get db k)) keys →
  ∃ seats, seats_to_internal_value db keys = inr seats.
Proof.
  induction 1 as [|k keys [s Hs] _ [seats IH]]; simpl; [by eexists|].
  rewrite Hs, IH. by eexists.
Qed.

Lemma seats_to_internal_value_missing (db : DB) (keys : list Z) (key : Z) (keys' : list Z) :
  Forall (λ k, is_Some (Seat_get db k)) keys → Seat_get db key = None →
  seats_to_internal_value db (keys ++ key :: keys') = inl (invalid_pk key).
Proof.
  induction 1 as [|k keys [s Hs] _ IH]; intros Hkey; simpl; [by rewrite Hkey|].
  by rewrite Hs, IH.
Qed.

(** The answer to a request: for a show that does not exist; and, for
    one that exists, without seats, with a key that is no seat's, and with
    seats that exist. *)
Lemma booking_no_show (now usr show : Z) (data : BookingRequestDict) (w : World) :
  show_of (w_db w) show = None →
  booking seats_allow_empty after_validation now usr show data w = (inl Http404, w).
Proof.
  intros Hsd. unfold booking, transaction_atomic, get_object_or_404, mbind, M_bind, read_db.
  simpl. rewrite Hsd. simpl. by destruct w.
Qed.

Lemma booking_no_seats (now usr show : Z) (data : BookingRequestDict) (w : World) :
  is_Some (show_of (w_db w) show) → req_seats data = [] →
  booking seats_allow_empty after_validation now usr show data w
  = (inl (ValidationError (if seats_allow_empty then "Seats are required"
                           else "This list may not be empty.")), w).
Proof.
  intros [sd Hsd] Hnil.
  unfold booking, transaction_atomic, get_object_or_404, BookingSerializer_is_valid,
    mbind, M_bind, read_db.
  simpl. rewrite Hsd. simpl. rewrite Hnil. destruct seats_allow_empty; simpl; by destruct w.
Qed.

Lemma booking_invalid_pk (now usr show : Z) (data : BookingRequestDict) (w : World) (e : exn) :
  is_Some (show_of (w_db w) show) → req_seats data ≠ [] →
  seats_to_internal_value (w_db w) (req_seats data) = inl e →
  booking seats_allow_empty after_validation now usr show data w = (inl e, w).
Proof.
  intros [sd Hsd] Hne Hseats.
  unfold booking, transaction_atomic, get_object_or_404, BookingSerializer_is_valid,
    mbind, M_bind, read_db.
  simpl. rewrite Hsd. simpl.
  rewrite (bool_decide_eq_false_2 _ Hne), andb_false_r, Hseats. simpl. by destruct w.
Qed.

Lemma booking_rejects (now usr show : Z) (data : BookingRequestDict) (w : World)
    (sd : ShowDetail) (seats : list Seat) :
  show_of (w_db w) show = Some sd → req_seats data ≠ [] →
  seats_to_internal_value (w_db w) (req_seats data) = inr seats →
  ∃ w', booking seats_allow_empty after_validation now usr show data w
        = (inl (ValidationError
                  (ERROR_MESSAGES (rejection now (length (req_seats data)) sd
                                     (req_show_date data)))), w')
        ∧ w_db w' = w_db w.
Proof.
  intros Hsd Hne Hseats.
  destruct (seats_to_internal_value_inr _ _ _ Hseats) as [Hkeys _].
  assert (length (req_seats data) = length seats) as Hlen
    by (by rewrite <- Hkeys, length_fmap).
  unfold booking, transaction_atomic, get_object_or_404, BookingSerializer_is_valid,
    mbind, M_bind, read_db.
  simpl. rewrite Hsd. simpl.
  rewrite (bool_decide_eq_false_2 _ Hne), andb_false_r, Hseats.
  unfold BookingSerializer_validate. simpl.
  destruct seats as [|s seats]; [destruct (req_seats data); done|]. simpl.
  destruct (validate_of_rejects seat_in now (s :: seats) sd (req_show_date data) w
              seat_in_false) as (w' & -> & Hdb).
  rewrite Hlen. by eexists.
Qed.

(** No request is committed. *)
Lemma booking_refused (now usr show : Z) (data : BookingRequestDict) (w : World) :
  ∃ e w', booking seats_allow_empty after_validation now usr show data w = (inl e, w')
          ∧ w_db w' = w_db w.
Proof.
  destruct (show_of (w_db w) show) as [sd|] eqn:Hsd.
  2:{ exists Http404, w. by rewrite booking_no_show. }
  destruct (decide (req_seats data = [])) as [Hnil|Hne].
  { eexists _, w. by rewrite booking_no_seats. }
  destruct (seats_to_internal_value (w_db w) (req_seats data)) as [e|seats] eqn:Hseats.
  { exists e, w. by rewrite (booking_invalid_pk _ _ _ _ _ e). }
  destruct (booking_rejects now usr show data w sd seats Hsd Hne Hseats) as (w' & -> & Hdb).
  by eexists _, _.
Qed.

Lemma handle_refuses (rqs : list Request) (w : World) :
  Forall (λ o, ∃ e, o.2 = inl e) (handle seats_allow_empty after_validation rqs w).1
  ∧ w_db (handle seats_allow_empty after_validation rqs w).2 = w_db w.
Proof.
  revert w. induction rqs as [|rq rqs IH]; intros w; simpl; [by split|].
  destruct (booking_refused (rq_now rq) (rq_user rq) (rq_show rq) (rq_data rq) w)
    as (e & w1 & -> & Hdb).
  destruct (IH w1) as [Hlog Hdb']. destruct (handle _ _ rqs w1) as [log w2]. simpl in *.
  split; [|congruence]. constructor; [by exists e|done].
Qed.

Lemma committed_nil (log : list (Request * (exn + Booking))) (show date : Z) :
  Forall (λ o, ∃ e, o.2 = inl e) log → committed log show date = [].
Proof.
  induction 1 as [|[rq r] log [e He] _ IH]; [done|]. simpl in He. subst r.
  unfold committed in *. simpl. exact IH.
Qed.

End BookingRefuses.

(** C2.  A request for a seat the ledger has booked for its (show, date)
    is refused and creates no booking, whatever rows the cache entry of
    that key reports as free.  [validate_booking_request], given the keys
    of the request, answers with the seats-unavailable error when the
    seat-count, past-show and booking-window rules pass, because rule 4
    runs its query against the database of that moment; and the view,
    which gives it the seats themselves, refuses the request, with that
    same error when the requested seats exist and the three rules pass. *)
Theorem booking_checks_ledger (seats_allow_empty : bool)
    (after_validation : Z → list Seat → ShowDetail → M Booking)
    (now usr show : Z) (data : BookingRequestDict) (w : World) (s : Z) :
  cache_keyed (w_cache w) →
  s ∈ req_seats data →
  s ∈ booked_seats (w_db w) show (req_show_date data) →
  (∀ sd, show_id sd = show →
         ∃ e w',
           validate_booking_request now (req_seats data) sd (req_show_date data) w
           = (inl e, w')
           ∧ w_db w' = w_db w
           ∧ (seat_count_ok (req_seats data) →
              ¬ past now (req_show_date data) →
              ¬ window_expired now sd (req_show_date data) →
              e = ValidationError (ERROR_MESSAGES seats_unavailable)))
  ∧ ∃ e w',
      booking seats_allow_empty after_validation now usr show data w = (inl e, w')
      ∧ w_db w' = w_db w
      ∧ ∀ sd, show_of (w_db w) show = Some sd →
              Forall (λ k, is_Some (Seat_get (w_db w) k)) (req_seats data) →
              seat_count_ok (req_seats data) →
              ¬ past now (req_show_date data) →
              ¬ window_expired now sd (req_show_date data) →
              e = ValidationError (ERROR_MESSAGES seats_unavailable).
Proof.
  intros Hc Hs Hb. split.
  - intros sd Hid.
    pose proof (validate_cases now (req_seats data) sd (req_show_date data) w) as Hv.
    pose proof (validate_world now (req_seats data) sd (req_show_date data) w) as Hw.
    assert (¬ Forall (λ x, x ∈ available_ids now sd (req_show_date data) w) (req_seats data))
      as Hnot.
    { intros HF. rewrite Forall_forall in HF. specialize (HF s Hs).
      rewrite (available_ids_ledger _ _ _ _ Hc), Hid in HF.
      by apply (booked_not_available _ _ _ _ Hb). }
    rewrite (bool_decide_eq_false_2 _ Hnot) in Hv.
    destruct (validate_booking_request now (req_seats data) sd (req_show_date data) w)
      as [r w1]. simpl in Hv, Hw. subst r.
    repeat case_bool_decide; eexists _, w1; (split; [reflexivity|]); (split; [done|]);
      intros; done.
  - destruct (booking_refused seats_allow_empty after_validation now usr show data w)
      as (e & w' & Hbook & Hdb).
    exists e, w'. split; [done|]. split; [done|].
    intros sd Hsd Hseats Hcount Hpast Hwindow.
    destruct (seats_to_internal_value_found _ _ Hseats) as [seats Hfound].
    destruct (booking_rejects seats_allow_empty after_validation now usr show data w sd seats)
      as (w'' & Hbook' & _); [done|by intros Hnil; rewrite Hnil in Hs; apply elem_of_nil in Hs|done|].
    rewrite Hbook in Hbook'. injection Hbook' as -> _. unfold rejection.
    rewrite (bool_decide_eq_true_2 _ Hcount), (bool_decide_eq_false_2 _ Hpast),
      (bool_decide_eq_false_2 _ Hwindow). done.
Qed.

Lemma booking_checks_ledger_witness :
  (∃ qs expires, w_cache Scenario.stale !! (1, 100) = Some (qs, expires)
                 ∧ Scenario.noon_before < expires
                 ∧ Scenario.seat1 ∈ qs_rows (w_db Scenario.stale) qs)
  ∧ 1 ∈ booked_seats (w_db Scenario.stale) 1 100
  ∧ (∃ w', validate_booking_request Scenario.noon_before [1] Scenario.the_show 100
             Scenario.stale
           = (inl (ValidationError (ERROR_MESSAGES seats_unavailable)), w')
           ∧ w_db w' = w_db Scenario.stale)
  ∧ ∃ w', booking false book_by_key Scenario.noon_before 7 1
            {| req_seats := [1]; req_show_date := 100 |} Scenario.stale
          = (inl (ValidationError (ERROR_MESSAGES seats_unavailable)), w')
          ∧ w_db w' = w_db Scenario.stale.
Proof.
  assert (cache_keyed (w_cache Scenario.stale)) as Hc.
  { unfold Scenario.stale. simpl.
    by destruct (get_available_seats_keyed Scenario.noon_before 1 100 Scenario.opening
                   cache_keyed_empty) as (qs & w' & -> & _ & _ & _ & Hk). }
  assert (1 ∈ req_seats {| req_seats := [1]; req_show_date := 100 |}) as Hs
    by apply list_elem_of_here.
  assert (1 ∈ booked_seats (w_db Scenario.stale) 1 100) as Hb
    by (vm_compute; apply list_elem_of_here).
  split.
  { eexists _, _. split; [vm_compute; reflexivity|]. split; [reflexivity|].
    vm_compute. apply list_elem_of_here. }
  split; [exact Hb|].
  destruct (booking_checks_ledger false book_by_key Scenario.noon_before 7 1
              {| req_seats := [1]; req_show_date := 100 |} Scenario.stale 1 Hc Hs Hb)
    as [Hvalidator (e & w' & Hr & Hdb & He)].
  assert (seat_count_ok [1]) as Hcount by (vm_compute; split; discriminate).
  assert (¬ past Scenario.noon_before 100) as Hpast by (vm_compute; discriminate).
  assert (¬ window_expired Scenario.noon_before Scenario.the_show 100) as Hwindow
    by (vm_compute; discriminate).
  split.
  - destruct (Hvalidator Scenario.the_show eq_refl) as (e1 & w1 & Hv & Hdb1 & He1).
    exists w1. simpl in Hv. rewrite Hv, (He1 Hcount Hpast Hwindow). done.
  - assert (e = ValidationError (ERROR_MESSAGES seats_unavailable)) as Heq.
    { apply (He Scenario.the_show); [vm_compute; reflexivity| |done..].
      constructor; [vm_compute; eauto|constructor]. }
    exists w'. by rewrite Hr, Heq.
Defined.

(** ** No seat in two bookings *)

(** C1.  The view keeps every seat to one booking per (show, date),
    because it commits no booking at all: rule 4 of the validator looks
    for the [Seat] instances of the request among integer keys and finds
    none.  Whatever requests are handled, every one of them is refused,
    the database is what it was, and the bookings of a key, if no two of
    them shared a seat, still do not. *)
Theorem no_seat_booked_twice (seats_allow_empty : bool)
    (after_validation : Z → list Seat → ShowDetail → M Booking)
    (rqs : list Request) (w : World) (show date : Z) :
  no_double_booking (bookings_of (w_db w) show date) →
  let out := handle seats_allow_empty after_validation rqs w in
  Forall (λ o, ∃ e, o.2 = inl e) out.1
  ∧ committed out.1 show date = []
  ∧ w_db out.2 = w_db w
  ∧ no_double_booking (bookings_of (w_db out.2) show date).
Proof.
  intros Hinv out.
  destruct (handle_refuses seats_allow_empty after_validation rqs w) as [Hlog Hdb].
  fold out in Hlog, Hdb.
  split; [done|]. split; [by apply committed_nil|]. split; [done|]. by rewrite Hdb.
Qed.

Lemma no_seat_booked_twice_witness :
  let out := handle false book_by_key [Scenario.request [1]; Scenario.request [2]]
               Scenario.stale in
  seats <$> bookings_of (w_db Scenario.stale) 1 100 = [[1]]
  ∧ snd <$> out.1 = [inl (ValidationError (ERROR_MESSAGES seats_unavailable));
                     inl (ValidationError (ERROR_MESSAGES seats_unavailable))]
  ∧ committed out.1 1 100 = []
  ∧ w_db out.2 = w_db Scenario.stale
  ∧ no_double_booking (bookings_of (w_db out.2) 1 100).
Proof.
  intros out.
  split; [vm_compute; reflexivity|]. split; [vm_compute; reflexivity|].
  apply (no_seat_booked_twice false book_by_key
           [Scenario.request [1]; Scenario.request [2]] Scenario.stale 1 100).
  intros b1 b2 s H1 H2 _ _.
  apply list_elem_of_In in H1, H2. vm_compute in H1, H2.
  destruct H1 as [<-|[]]. by destruct H2 as [<-|[]].
Defined.

(** ** The per-date counter *)

Section Conservation.




End Conservation.



(** ** Reading the availability after a booking *)

(** C4.  Nothing invalidates or refreshes the entry of the availability
    cache when a booking is written.  The availability of show 1 on day
    100 is read, which caches the three seats; a booking of seat 1 linked
    to the row of that day is written, the way [create_test_booking] of
    the tests writes it (the view commits no booking); the availability is
    read again at the same time.  The second read answers from the cache
    with the three seats, seat 1 among them, where the ledger has two
    left. *)
Theorem availability_read_after_booking :
  let first := get_available_seats Scenario.noon_before 1 100 Scenario.opening in
  (∃ qs, first.1 = inr qs ∧ seat_id <$> qs_rows (w_db first.2) qs = [1; 2; 3])
  ∧ w_cache Scenario.stale = w_cache first.2
  ∧ (λ b, (showtime b, booking_show_date (w_db Scenario.stale) b, seats b))
      <$> Booking_objects (w_db Scenario.stale) = [(1, Some 100, [1])]
  ∧ seat_id <$> run_query (w_db Scenario.stale) 1 100 = [2; 3]
  ∧ ∃ qs w', get_available_seats Scenario.noon_before 1 100 Scenario.stale = (inr qs, w')
             ∧ seat_id <$> qs_rows (w_db w') qs = [1; 2; 3].
Proof.
  split; [eexists; split; vm_compute; reflexivity|].
  split; [reflexivity|].
  split; [vm_compute; reflexivity|].
  split; [vm_compute; reflexivity|].
  eexists _, _. split; [vm_compute; reflexivity|]. vm_compute. reflexivity.
Qed.

(** C5.  On a cache miss [get_available_seats] does not keep to the screen
    of the show: for show 1, which plays on screen 1, in a database that
    also has screen 2, the seat of screen 2 is among the seats returned.
    The seats [ShowDetailSerializer.get_seats] lists for the same show are
    those of screen 1.  ([get_available_seats_miss] above is the general
    fact.) *)
Theorem available_seats_of_other_screens :
  w_cache Scenario.two_screens !! (1, 100) = None
  ∧ show_of (w_db Scenario.two_screens) 1 = Some Scenario.the_show
  ∧ screen Scenario.the_show = 1
  ∧ seat_screen (w_db Scenario.two_screens) Scenario.seat4 = Some 2
  ∧ (∃ qs w', get_available_seats Scenario.noon_before 1 100 Scenario.two_screens
              = (inr qs, w')
              ∧ seat_id <$> qs_rows (w_db w') qs = [1; 2; 3; 4]
              ∧ Scenario.seat4 ∈ qs_rows (w_db w') qs)
  ∧ seat_id <$> ShowDetailSerializer_get_seats (w_db Scenario.two_screens) Scenario.the_show
    = [1; 2; 3].
Proof.
  split; [apply lookup_empty|].
  split; [vm_compute; reflexivity|].
  split; [reflexivity|].
  split; [vm_compute; reflexivity|].
  split; [|vm_compute; reflexivity].
  eexists _, _. split; [vm_compute; reflexivity|].
  split; [vm_compute; reflexivity|].
  vm_compute. do 3 apply list_elem_of_further. apply list_elem_of_here.
Qed.

(** ** The layout of a new screen *)

Section Layout.

Import Provisioning.

Lemma inner_loop_row_col (number : Z → string) (r ty : Z) (js : list Z) (db : DB) :
  row_col <$> Seat_objects
                (fold_left (λ db j, Seat_create (number j) r (j + 1) ty db) js db)
  = (row_col <$> Seat_objects db) ++ ((λ j, (r, j + 1)) <$> js).
Proof.
  revert db. induction js as [|j js IH]; intros db; simpl.
  - by rewrite app_nil_r.
  - rewrite IH. simpl. by rewrite fmap_app, <- app_assoc.
Qed.

Lemma create_seats_row_col (rows type_row type_col ty : Z) (db : DB) :
  row_col <$> Seat_objects (create_seats rows type_row type_col ty db)
  = (row_col <$> Seat_objects db)
    ++ (i ← range rows type_row; (λ j, (rows + i, j + 1)) <$> range 0 type_col).
Proof.
  unfold create_seats. generalize (range rows type_row) as rs.
  intros rs. revert db. induction rs as [|i rs IH]; intros db; simpl.
  - by rewrite app_nil_r.
  - rewrite IH, inner_loop_row_col. by rewrite <- app_assoc.
Qed.

(** The outer loop: the running total, the next free row and the seats. *)
Lemma seat_type_loop (sid : Z) (seat_types : list SeatTypeDict) (db : DB) (rows total : Z) :
  ∃ db' rows',
    fold_left (seat_type_step sid) seat_types (db, rows, total)
    = (db', rows', total + seat_total seat_types)
    ∧ row_col <$> Seat_objects db' = (row_col <$> Seat_objects db) ++ layout rows seat_types.
Proof.
  revert db rows total. induction seat_types as [|st sts IH]; intros db rows total.
  - exists db, rows. simpl. by rewrite Z.add_0_r, app_nil_r.
  - cbn [fold_left seat_type_step ScreenSeatTypesMapping_create].
    match goal with |- context [fold_left _ sts (?d, ?r, ?t)] =>
      destruct (IH d r t) as (db' & rows' & -> & Hseats) end.
    exists db', rows'. split.
    + f_equal. simpl. lia.
    + rewrite Hseats, create_seats_row_col. simpl. by rewrite <- app_assoc.
Qed.

(** The screen counts the sum of rows times columns, and the seats added to
    the table are those of [layout], from [rows = 1]. *)
Lemma create_screen_layout (number : Z) (seat_types : list SeatTypeDict) (db : DB) :
  let out := create_screen_with_seats number seat_types db in
  total_seat out.1 = seat_total seat_types
  ∧ row_col <$> Seat_objects out.2 = (row_col <$> Seat_objects db) ++ layout 1 seat_types.
Proof.
  unfold create_screen_with_seats.
  destruct (seat_type_loop (next_id (Screen_objects db)) seat_types db 1 0)
    as (db' & rows' & -> & Hseats).
  simpl. by rewrite Hseats.
Qed.

Lemma length_range (a b : Z) : length (range a b) = Z.to_nat (b - a).
Proof. unfold range. by rewrite length_fmap, length_seq. Qed.

Lemma length_block (rows : Z) (st : SeatTypeDict) :
  length (block rows st) = (Z.to_nat (st_rows st) * Z.to_nat (st_columns st))%nat.
Proof.
  unfold block. rewrite <- (Nat2Z.id (length _)).
  replace (Z.to_nat (st_rows st)) with (length (range rows (st_rows st + rows)))
    by (rewrite length_range; f_equal; lia).
  generalize (range rows (st_rows st + rows)) as rs. intros rs.
  rewrite Nat2Z.id.
  induction rs as [|i rs IH]; [done|].
  rewrite bind_cons, length_app, IH, length_fmap, length_range. simpl.
  replace (st_columns st - 0) with (st_columns st) by lia. lia.
Qed.

(** With no negative size, as many seats are created as the screen counts. *)
Lemma length_layout (rows : Z) (seat_types : list SeatTypeDict) :
  Forall (λ st, 0 ≤ st_rows st ∧ 0 ≤ st_columns st) seat_types →
  Z.of_nat (length (layout rows seat_types)) = seat_total seat_types.
Proof.
  intros H. revert rows. induction H as [|st sts [Hr Hc] _ IH]; intros rows; [done|].
  simpl. rewrite length_app, length_block, Nat2Z.inj_add, IH. nia.
Qed.

Lemma elem_of_block (rows : Z) (st : SeatTypeDict) (r c : Z) :
  (r, c) ∈ block rows st ↔
  2 * rows ≤ r < 2 * rows + st_rows st ∧ 1 ≤ c ≤ st_columns st.
Proof.
  unfold block. rewrite list_elem_of_bind. split.
  - intros (i & Hc & Hi). apply list_elem_of_fmap in Hc as (j & [= -> ->] & Hj).
    apply elem_of_range in Hi, Hj. lia.
  - intros [Hr Hc]. exists (r - rows). split.
    + apply list_elem_of_fmap. exists (c - 1). split; [f_equal; lia|].
      apply elem_of_range. lia.
    + apply elem_of_range. lia.
Qed.

Lemma NoDup_block (rows : Z) (st : SeatTypeDict) : NoDup (block rows st).
Proof.
  unfold block. apply NoDup_bind; [| |apply NoDup_range].
  - intros i1 i2 [r c] _ _ H1 H2.
    apply list_elem_of_fmap in H1 as (j1 & [= -> ->] & _).
    apply list_elem_of_fmap in H2 as (j2 & [= E _] & _). lia.
  - intros i _.
    assert (Inj (=) (=) (λ j : Z, (rows + i, j + 1))) by (intros x y [= E]; lia).
    apply NoDup_fmap_2, NoDup_range. done.
Qed.

Lemma layout_rows (rows : Z) (seat_types : list SeatTypeDict) (r c : Z) :
  Forall (λ st, 0 ≤ st_rows st) seat_types →
  (r, c) ∈ layout rows seat_types → 2 * rows ≤ r.
Proof.
  intros H. revert rows. induction H as [|st sts Hr _ IH]; intros rows; simpl.
  - by intros ?%elem_of_nil.
  - rewrite elem_of_app, elem_of_block. intros [?|Hin]; [lia|].
    apply IH in Hin. lia.
Qed.

(** With no negative number of rows, no two seats of the screen share
    their row and column. *)
Lemma NoDup_layout (rows : Z) (seat_types : list SeatTypeDict) :
  Forall (λ st, 0 ≤ st_rows st) seat_types → NoDup (layout rows seat_types).
Proof.
  intros H. revert rows. induction H as [|st sts Hr Hsts IH]; intros rows; simpl.
  - apply NoDup_nil_2.
  - apply NoDup_app. split; [apply NoDup_block|]. split; [|apply IH].
    intros [r c] Hb Hl. apply elem_of_block in Hb.
    apply (layout_rows _ _ _ _ Hsts) in Hl. lia.
Qed.

(** But no seat is in row 1: the rows of the first type start at row 2. *)
Lemma layout_from_row_two (seat_types : list SeatTypeDict) (r c : Z) :
  Forall (λ st, 0 ≤ st_rows st) seat_types →
  (r, c) ∈ layout 1 seat_types → 2 ≤ r.
Proof. intros H Hin. apply (layout_rows _ _ _ _ H) in Hin. lia. Qed.

(** *** order_seat_types on orders 1..N *)

Lemma assign_loop (l : list SeatTypeDict) (acc : list (option SeatTypeDict)) :
  Forall (λ st, 1 ≤ st_order st ≤ Z.of_nat (length acc)) l →
  NoDup (st_order <$> l) →
  ∃ acc', fold_left assign l (Some acc) = Some acc'
          ∧ length acc' = length acc
          ∧ (∀ st, st ∈ l → acc' !! slot st = Some (Some st))
          ∧ (∀ k, (∀ st, st ∈ l → slot st ≠ k) → acc' !! k = acc !! k).
Proof.
  intros Hb. revert acc Hb. induction l as [|x l IH]; intros acc Hb Hnd.
  - exists acc. split; [done|]. split; [done|].
    split; [by intros st ?%elem_of_nil|done].
  - apply Forall_cons in Hb as [Hx Hb]. rewrite fmap_cons in Hnd.
    apply NoDup_cons in Hnd as [Hfresh Hnd].
    assert (py_index acc (st_order x - 1) = Some (slot x)) as Hidx.
    { unfold py_index. by rewrite bool_decide_eq_true_2 by lia. }
    cbn [fold_left]. unfold assign at 2. simpl. rewrite Hidx. simpl.
    destruct (IH (<[slot x := Some x]> acc)) as (acc' & -> & Hlen & Hin & Hout).
    { by rewrite length_insert. }
    { done. }
    rewrite length_insert in Hlen.
    exists acc'. split; [done|]. split; [done|]. split.
    + intros st [->|Hst]%elem_of_cons; [|by apply Hin].
      rewrite Hout.
      * apply list_lookup_insert_eq. unfold slot. lia.
      * intros st Hst Heq. apply Hfresh, list_elem_of_fmap. exists st. split; [|done].
        apply (proj1 (Forall_forall _ _) Hb) in Hst. unfold slot in Heq. lia.
    + intros k Hk. rewrite Hout.
      * apply list_lookup_insert_ne. apply Hk, list_elem_of_here.
      * intros st Hst. by apply Hk, list_elem_of_further.
Qed.

Lemma all_filled {A} (acc : list (option A)) :
  (∀ k, (k < length acc)%nat → ∃ x, acc !! k = Some (Some x)) →
  ∃ l, acc = Some <$> l.
Proof.
  induction acc as [|o acc IH]; intros H.
  - by exists [].
  - destruct (H 0%nat) as [x Hx]; [simpl; lia|]. simpl in Hx. injection Hx as ->.
    destruct IH as [l ->].
    { intros k Hk. apply (H (S k)). simpl. lia. }
    by exists (x :: l).
Qed.

Lemma lookup_range (a b : Z) (k : nat) :
  (k < Z.to_nat (b - a))%nat → range a b !! k = Some (a + Z.of_nat k).
Proof.
  intros Hk. unfold range. rewrite list_lookup_fmap, lookup_seq_lt by done. done.
Qed.

(** When the orders are the numbers 1 to N, each once, the slots are
    filled with the seat types by increasing order. *)
Lemma order_seat_types_contiguous (seat_types : list SeatTypeDict) :
  st_order <$> seat_types ≡ₚ range 1 (Z.of_nat (length seat_types) + 1) →
  ∃ ordered,
    order_seat_types seat_types = Some (Some <$> ordered)
    ∧ ordered ≡ₚ seat_types
    ∧ st_order <$> ordered = range 1 (Z.of_nat (length seat_types) + 1).
Proof.
  intros Hperm. set (n := length seat_types) in *.
  assert (NoDup (st_order <$> seat_types)) as Hnd.
  { rewrite Hperm. apply NoDup_range. }
  assert (Forall (λ st, 1 ≤ st_order st ≤ Z.of_nat n) seat_types) as Hb.
  { apply Forall_forall. intros st Hst.
    assert (st_order st ∈ range 1 (Z.of_nat n + 1)) as Hin.
    { rewrite <- Hperm. apply list_elem_of_fmap. eauto. }
    apply elem_of_range in Hin. lia. }
  destruct (assign_loop seat_types (replicate n None)) as (acc & Hacc & Hlen & Hin & _).
  { by rewrite length_replicate. }
  { done. }
  rewrite length_replicate in Hlen.
  assert (∀ k, (k < n)%nat → ∃ st, st ∈ seat_types ∧ slot st = k
                                   ∧ acc !! k = Some (Some st)) as Hslot.
  { intros k Hk.
    assert (1 + Z.of_nat k ∈ st_order <$> seat_types) as Hord.
    { rewrite Hperm. apply elem_of_range. lia. }
    apply list_elem_of_fmap in Hord as (st & Hst & Hmem).
    assert (slot st = k) as <- by (unfold slot; lia).
    exists st. by repeat split; [|apply Hin]. }
  destruct (all_filled acc) as [ordered ->].
  { intros k Hk. rewrite Hlen in Hk. destruct (Hslot k Hk) as (st & _ & _ & ?). eauto. }
  rewrite length_fmap in Hlen.
  assert (∀ k st, ordered !! k = Some st → st ∈ seat_types ∧ slot st = k) as Hord.
  { intros k st Hk. pose proof (lookup_lt_Some _ _ _ Hk) as Hlt. rewrite Hlen in Hlt.
    destruct (Hslot k Hlt) as (st' & Hmem & Hs & Hk').
    rewrite list_lookup_fmap, Hk in Hk'. by injection Hk' as ->. }
  assert (st_order <$> ordered = range 1 (Z.of_nat n + 1)) as Horders.
  { apply (list_eq_same_length _ _ n); [rewrite length_range; lia|by rewrite length_fmap|].
    intros k o1 o2 Hk Ho1 Ho2.
    rewrite lookup_range in Ho2 by lia. injection Ho2 as <-.
    apply list_lookup_fmap_Some in Ho1 as (st & -> & Hst).
    destruct (Hord k st Hst) as [Hmem <-].
    apply (proj1 (Forall_forall _ _) Hb) in Hmem. unfold slot. lia. }
  exists ordered. split; [exact Hacc|]. split; [|exact Horders].
  apply NoDup_Permutation.
  - apply (NoDup_fmap_1 st_order). rewrite Horders. apply NoDup_range.
  - by apply (NoDup_fmap_1 st_order).
  - intros st. split.
    + intros [k Hk]%list_elem_of_lookup. by apply (Hord k st).
    + intros Hst. apply list_elem_of_lookup. exists (slot st).
      specialize (Hin st Hst). rewrite list_lookup_fmap in Hin.
      destruct (ordered !! slot st); by simplify_eq/=.
Qed.

(** [ScreenViewSet.create] on such a list creates the screen from the seat
    types sorted by order. *)
Lemma ScreenViewSet_create_valid (number : Z) (seat_types : list SeatTypeDict) (db : DB) :
  seat_types ≠ [] →
  ScreenViewSet_create number seat_types db
  = (seat_types_ordered ← order_seat_types seat_types;
     seat_types_ordered ← mapM id seat_types_ordered;
     Some (create_screen_with_seats number seat_types_ordered db)).
Proof. by destruct seat_types. Qed.

Lemma ScreenViewSet_create_contiguous (number : Z) (seat_types : list SeatTypeDict)
    (db : DB) :
  seat_types ≠ [] →
  st_order <$> seat_types ≡ₚ range 1 (Z.of_nat (length seat_types) + 1) →
  ∃ ordered,
    ordered ≡ₚ seat_types
    ∧ st_order <$> ordered = range 1 (Z.of_nat (length seat_types) + 1)
    ∧ ScreenViewSet_create number seat_types db
      = Some (create_screen_with_seats number ordered db).
Proof.
  intros Hne H.
  destruct (order_seat_types_contiguous seat_types H) as (ordered & Ho & Hp & Hr).
  exists ordered. split; [done|]. split; [done|].
  rewrite ScreenViewSet_create_valid by done. rewrite Ho. simpl.
  by rewrite (mapM_fmap_Some id Some ordered).
Qed.

End Layout.

(** C8.  The rows of a new screen are not laid out from row 1 without
    gaps: for one seat type of one row and one column, order 1, the screen
    counts one seat and one seat is created, but in row 2; with a second
    type of one row after it, the rows used are 2 and 4.  (The lemmas of
    the section above give the count, the number of seats, the uniqueness
    of (row, column) and the rows used in general.) *)
Theorem first_row_is_row_two :
  (λ out, (total_seat out.1, (λ s, (row s, col s)) <$> Seat_objects out.2))
    <$> Provisioning.ScreenViewSet_create 1 [Scenario.platinum 1 1 1] empty_db
  = Some (1, [(2, 1)])
  ∧ (λ out, (total_seat out.1, (λ s, (row s, col s)) <$> Seat_objects out.2))
      <$> Provisioning.ScreenViewSet_create 1
            [Scenario.gold 1 1 2; Scenario.platinum 1 1 1] empty_db
    = Some (2, [(2, 1); (4, 1)]).
Proof. split; vm_compute; reflexivity. Qed.

(** * Further properties *)

(** ** Provisioning a screen *)

Section ProvisioningFacts.

Import Provisioning.

Lemma assign_None (l : list SeatTypeDict) : fold_left assign l None = None.
Proof. by induction l. Qed.

Lemma py_index_None {A} (l : list A) (i : Z) :
  py_index l i = None ↔ ¬ (- Z.of_nat (length l) ≤ i < Z.of_nat (length l)).
Proof. unfold py_index. repeat case_bool_decide; split; (done || lia). Qed.

(** One assignment out of range loses the whole list. *)
Lemma assign_loop_IndexError (l : list SeatTypeDict) (acc : list (option SeatTypeDict)) :
  Exists (λ st, ¬ (- Z.of_nat (length acc) ≤ st_order st - 1 < Z.of_nat (length acc))) l →
  fold_left assign l (Some acc) = None.
Proof.
  revert acc. induction l as [|x l IH]; intros acc Hbad; [by apply Exists_nil in Hbad|].
  cbn [fold_left]. unfold assign at 2. simpl.
  destruct (py_index acc (st_order x - 1)) as [k|] eqn:Hk; simpl; [|apply assign_None].
  apply IH. rewrite length_insert.
  apply Exists_cons in Hbad as [Hx|Hl]; [|done].
  apply py_index_None in Hx. congruence.
Qed.

(** The slots no assignment names keep what they held. *)
Lemma assign_loop_untouched (l : list SeatTypeDict) (acc : list (option SeatTypeDict)) :
  Forall (λ st, 1 ≤ st_order st ≤ Z.of_nat (length acc)) l →
  ∃ acc', fold_left assign l (Some acc) = Some acc'
          ∧ length acc' = length acc
          ∧ ∀ k, (∀ st, st ∈ l → slot st ≠ k) → acc' !! k = acc !! k.
Proof.
  intros Hb. revert acc Hb. induction l as [|x l IH]; intros acc Hb.
  - by exists acc.
  - apply Forall_cons in Hb as [Hx Hb].
    assert (py_index acc (st_order x - 1) = Some (slot x)) as Hidx.
    { unfold py_index. by rewrite bool_decide_eq_true_2 by lia. }
    cbn [fold_left]. unfold assign at 2. simpl. rewrite Hidx. simpl.
    destruct (IH (<[slot x := Some x]> acc)) as (acc' & -> & Hlen & Hout).
    { by rewrite length_insert. }
    rewrite length_insert in Hlen.
    exists acc'. split; [done|]. split; [done|].
    intros k Hk. rewrite Hout.
    + apply list_lookup_insert_ne. apply Hk, list_elem_of_here.
    + intros st Hst. by apply Hk, list_elem_of_further.
Qed.

(** Fewer numbers than places leave a place out. *)
Lemma missing_order (orders : list Z) :
  Forall (λ o, 1 ≤ o ≤ Z.of_nat (length orders)) orders →
  ¬ NoDup orders →
  ∃ o, 1 ≤ o ≤ Z.of_nat (length orders) ∧ o ∉ orders.
Proof.
  intros Hb Hdup. set (n := length orders) in *.
  destruct (decide (Forall (λ o, o ∈ orders) (range 1 (Z.of_nat n + 1)))) as [Hall|Hex].
  - exfalso. apply Hdup.
    assert (range 1 (Z.of_nat n + 1) ≡ₚ orders) as <-; [|apply NoDup_range].
    apply submseteq_length_Permutation.
    + apply NoDup_submseteq; [apply NoDup_range|]. by apply Forall_forall.
    + rewrite length_range. unfold n. lia.
  - apply not_Forall_Exists in Hex; [|apply _].
    apply Exists_exists in Hex as (o & Ho & Hno).
    apply elem_of_range in Ho. exists o. split; [lia|done].
Qed.

Lemma mapM_id_None {A} (acc : list (option A)) (k : nat) :
  acc !! k = Some None → mapM id acc = None.
Proof.
  intros Hk. destruct (mapM id acc) as [l|] eqn:E; [|done].
  apply mapM_Some in E. eapply Forall2_lookup_l in E as (y & _ & Hy); [|exact Hk].
  done.
Qed.

Lemma assign_loop_in_range (l : list SeatTypeDict) (acc : list (option SeatTypeDict)) :
  Forall (λ st, - Z.of_nat (length acc) ≤ st_order st - 1 < Z.of_nat (length acc)) l →
  is_Some (fold_left assign l (Some acc)).
Proof.
  revert acc. induction l as [|x l IH]; intros acc Hb; [by eexists|].
  apply Forall_cons in Hb as [Hx Hb].
  cbn [fold_left]. unfold assign at 2. simpl.
  destruct (py_index acc (st_order x - 1)) as [k|] eqn:Hk; simpl.
  - apply IH. by rewrite length_insert.
  - apply py_index_None in Hk. done.
Qed.

Lemma add_catalog_nil (db : DB) : add_catalog db [] [] = db.
Proof. destruct db. unfold add_catalog. simpl. by rewrite !app_nil_r. Qed.

Lemma add_catalog_add (db : DB) (m1 m2 : list ScreenSeatTypesMapping) (s1 s2 : list Seat) :
  add_catalog (add_catalog db m1 s1) m2 s2 = add_catalog db (m1 ++ m2) (s1 ++ s2).
Proof. unfold add_catalog. simpl. by rewrite !app_assoc. Qed.

Lemma inner_loop_add (number : Z → string) (r ty : Z) (js : list Z) (db : DB) :
  ∃ new, fold_left (λ db j, Seat_create (number j) r (j + 1) ty db) js db
         = add_catalog db [] new
         ∧ Forall (λ s, type s = ty) new.
Proof.
  revert db. induction js as [|j js IH]; intros db.
  - exists []. by rewrite add_catalog_nil.
  - cbn [fold_left]. destruct (IH (Seat_create (number j) r (j + 1) ty db)) as (new & -> & Hty).
    eexists (_ :: new). split.
    + unfold Seat_create, add_catalog. simpl. rewrite !app_nil_r, <- app_assoc. done.
    + by constructor.
Qed.

Lemma create_seats_add (rows type_row type_col ty : Z) (db : DB) :
  ∃ new, create_seats rows type_row type_col ty db = add_catalog db [] new
         ∧ Forall (λ s, type s = ty) new.
Proof.
  unfold create_seats. generalize (range rows type_row) as rs.
  intros rs. revert db. induction rs as [|i rs IH]; intros db.
  - exists []. by rewrite add_catalog_nil.
  - cbn [fold_left].
    destruct (inner_loop_add (λ j, pretty i +:+ pretty j) (rows + i) ty (range 0 type_col) db)
      as (new1 & -> & H1).
    destruct (IH (add_catalog db [] new1)) as (new2 & -> & H2).
    exists (new1 ++ new2). rewrite add_catalog_add. split; [done|].
    by apply Forall_app.
Qed.

(** The outer loop appends one seat type per entry, for the screen, with
    the next keys, and seats of these seat types. *)
Lemma seat_type_loop_add (sid : Z) (seat_types : list SeatTypeDict) (db : DB)
    (rows total : Z) :
  ∃ rows' new_types new_seats,
    fold_left (seat_type_step sid) seat_types (db, rows, total)
    = (add_catalog db new_types new_seats, rows', total + seat_total seat_types)
    ∧ seat_type <$> new_types = st_seat_type <$> seat_types
    ∧ Forall (λ m, mapping_screen m = sid) new_types
    ∧ (∀ i m, new_types !! i = Some m →
              mapping_id m
              = Z.of_nat (length (ScreenSeatTypesMapping_objects db) + i) + 1)
    ∧ Forall (λ s, Z.of_nat (length (ScreenSeatTypesMapping_objects db)) < type s
                   ≤ Z.of_nat (length (ScreenSeatTypesMapping_objects db)
                               + length seat_types)) new_seats.
Proof.
  revert db rows total. induction seat_types as [|st sts IH]; intros db rows total.
  - exists rows, [], []. rewrite add_catalog_nil. simpl.
    rewrite Z.add_0_r. repeat split; done.
  - cbn [fold_left seat_type_step ScreenSeatTypesMapping_create].
    set (m := {| mapping_id := next_id (ScreenSeatTypesMapping_objects db);
                 mapping_screen := sid; seat_type := st_seat_type st |}).
    match goal with |- context [create_seats ?a ?b ?c ?d ?e] =>
      destruct (create_seats_add a b c d e) as (new1 & -> & H1) end.
    match goal with |- context [fold_left _ sts (?d, ?r, ?t)] =>
      destruct (IH d r t) as (rows' & maps & new2 & -> & Hlab & Hscr & Hids & Hty) end.
    simpl in Hids, Hty. rewrite !length_app in Hids, Hty. simpl in Hids, Hty.
    exists rows', (m :: maps), (new1 ++ new2). split.
    { f_equal; [f_equal|simpl; lia].
      unfold add_catalog. simpl. f_equal.
      - by rewrite app_nil_r, <- app_assoc.
      - by rewrite app_assoc. }
    split; [by rewrite !fmap_cons, Hlab|].
    split; [by constructor|].
    split.
    { intros [|i] m' Hi; simpl in Hi.
      - injection Hi as <-. simpl. unfold next_id. lia.
      - rewrite (Hids i m' Hi). lia. }
    apply Forall_app. split.
    + eapply Forall_impl; [exact H1|]. intros s ->. simpl. unfold next_id. lia.
    + eapply Forall_impl; [exact Hty|]. intros s Hs. simpl in *. lia.
Qed.

(** In a table with the keys [next_id] hands out, a key finds its row. *)
Lemma mapping_of_sequential (db : DB) (i : nat) (m : ScreenSeatTypesMapping) :
  (∀ i m, ScreenSeatTypesMapping_objects db !! i = Some m → mapping_id m = Z.of_nat i + 1) →
  ScreenSeatTypesMapping_objects db !! i = Some m →
  mapping_of db (Z.of_nat i + 1) = Some m.
Proof.
  intros Hseq Hi. unfold mapping_of. apply fmap_Some. exists (i, m). split; [|done].
  apply list_find_Some. split; [done|]. split; [by apply Hseq|].
  intros j y Hj Hlt Hy. rewrite (Hseq j y Hj) in Hy. lia.
Qed.

(** The screen created, and the database after it. *)
Lemma create_screen_shape (number : Z) (seat_types : list SeatTypeDict) (db : DB) :
  ∃ new_types new_seats,
    create_screen_with_seats number seat_types db
    = ({| screen_id := next_id (Screen_objects db); screen_number := number;
          total_seat := seat_total seat_types |},
       Screen_save {| screen_id := next_id (Screen_objects db); screen_number := number;
                      total_seat := seat_total seat_types |}
         (add_catalog db new_types new_seats))
    ∧ seat_type <$> new_types = st_seat_type <$> seat_types
    ∧ Forall (λ m, mapping_screen m = next_id (Screen_objects db)) new_types
    ∧ (∀ i m, new_types !! i = Some m →
              mapping_id m
              = Z.of_nat (length (ScreenSeatTypesMapping_objects db) + i) + 1)
    ∧ Forall (λ s, Z.of_nat (length (ScreenSeatTypesMapping_objects db)) < type s
                   ≤ Z.of_nat (length (ScreenSeatTypesMapping_objects db)
                               + length seat_types)) new_seats
    ∧ row_col <$> new_seats = layout 1 seat_types.
Proof.
  destruct (create_screen_layout number seat_types db) as [_ Hlayout]. revert Hlayout.
  unfold create_screen_with_seats.
  destruct (seat_type_loop_add (next_id (Screen_objects db)) seat_types db 1 0)
    as (rows' & new_types & new_seats & -> & Hlab & Hscr & Hids & Hty).
  simpl. rewrite fmap_app. intros Hlayout%app_inv_head.
  by exists new_types, new_seats.
Qed.

Lemma length_layout_created (rows : Z) (seat_types : list SeatTypeDict) :
  Z.of_nat (length (layout rows seat_types)) = seats_created seat_types.
Proof.
  revert rows. induction seat_types as [|st sts IH]; intros rows; [done|].
  simpl. rewrite length_app, length_block, Nat2Z.inj_add, Nat2Z.inj_mul, IH. lia.
Qed.

(** Creating a screen keeps the keys of the catalog in order; the seats
    that were there stay with their screens, the new ones are seats of the
    new screen. *)
Lemma create_screen_catalog (number : Z) (seat_types : list SeatTypeDict) (db : DB) :
  catalog_wf db → screen_ids_sequential db →
  let out := create_screen_with_seats number seat_types db in
  catalog_wf out.2 ∧ screen_ids_sequential out.2
  ∧ (∀ s, s ∈ Seat_objects db →
          seat_screen out.2 s = seat_screen db s
          ∧ seat_screen db s ≠ Some (screen_id out.1))
  ∧ (∀ s, s ∈ drop (length (Seat_objects db)) (Seat_objects out.2) →
          seat_screen out.2 s = Some (screen_id out.1)).
Proof.
  intros (Hseq & Htypes & Hscreens) Hsids.
  destruct (create_screen_shape number seat_types db)
    as (new_types & new_seats & -> & Hlab & Hscr & Hids & Hty & _).
  apply (f_equal length) in Hlab. rewrite !length_fmap in Hlab.
  set (db' := Screen_save _ _). simpl.
  assert (∀ i m, ScreenSeatTypesMapping_objects db' !! i = Some m
                 → mapping_id m = Z.of_nat i + 1) as Hseq'.
  { intros i m Hi. simpl in Hi. apply lookup_app_Some in Hi as [Hi|[Hge Hi]].
    - by apply Hseq.
    - rewrite (Hids _ _ Hi). lia. }
  assert (∀ s, s ∈ Seat_objects db →
               seat_screen db' s = seat_screen db s
               ∧ seat_screen db s ≠ Some (next_id (Screen_objects db))) as Hold.
  { intros s Hs. pose proof (Htypes s Hs) as Hrange.
    destruct (lookup_lt_is_Some_2 (ScreenSeatTypesMapping_objects db)
                (Z.to_nat (type s - 1))) as [m Hm]; [lia|].
    unfold seat_screen.
    replace (type s) with (Z.of_nat (Z.to_nat (type s - 1)) + 1) by lia.
    rewrite (mapping_of_sequential db _ m Hseq Hm).
    rewrite (mapping_of_sequential db' _ m Hseq'); [|by apply lookup_app_l_Some].
    split; [done|]. simpl. intros [= E].
    assert (m ∈ ScreenSeatTypesMapping_objects db) as Hin
      by (apply list_elem_of_lookup; eauto).
    apply Hscreens in Hin. unfold next_id in E. lia. }
  assert (∀ s, s ∈ new_seats → seat_screen db' s = Some (next_id (Screen_objects db)))
    as Hnew.
  { intros s Hs. apply (proj1 (Forall_forall _ _) Hty) in Hs.
    destruct (lookup_lt_is_Some_2 new_types
                (Z.to_nat (type s - 1) - length (ScreenSeatTypesMapping_objects db)))
      as [m Hm]; [lia|].
    unfold seat_screen.
    replace (type s) with (Z.of_nat (Z.to_nat (type s - 1)) + 1) by lia.
    rewrite (mapping_of_sequential db' _ m Hseq').
    - simpl. f_equal. eapply (proj1 (Forall_forall _ _) Hscr), list_elem_of_lookup; eauto.
    - simpl. rewrite lookup_app_r by lia. done. }
  split; [|split; [|split]].
  - split; [exact Hseq'|]. split.
    + intros s Hs. simpl in Hs |- *. rewrite length_app.
      apply elem_of_app in Hs as [Hs|Hs].
      * apply Htypes in Hs. lia.
      * apply (proj1 (Forall_forall _ _) Hty) in Hs. lia.
    + intros m Hm. simpl in Hm |- *. rewrite length_app. simpl.
      apply elem_of_app in Hm as [Hm|Hm].
      * apply Hscreens in Hm. lia.
      * apply (proj1 (Forall_forall _ _) Hscr) in Hm. rewrite Hm. unfold next_id. lia.
  - intros i scr Hi. simpl in Hi. apply lookup_app_Some in Hi as [Hi|[Hge Hi]].
    + by apply Hsids.
    + apply list_lookup_singleton_Some in Hi as [Hi <-]. simpl. unfold next_id. lia.
  - exact Hold.
  - intros s Hs. simpl in Hs. rewrite drop_app_length in Hs. by apply Hnew.
Qed.

Lemma catalog_wf_empty : catalog_wf empty_db ∧ screen_ids_sequential empty_db.
Proof.
  split; [split; [|split]|]; simpl.
  - intros i m Hi. done.
  - intros s Hs. by apply elem_of_nil in Hs.
  - intros m Hm. by apply elem_of_nil in Hm.
  - intros i scr Hi. done.
Qed.

End ProvisioningFacts.

(** X1.  When the list of seat types is not empty, which the serializer
    requires, and the orders of the seat types are the numbers 1 to N,
    each once, [order_seat_types] fills every slot, with the seat types by
    increasing order, and [ScreenViewSet.create] creates the screen from
    the seat types in that order. *)
Theorem screen_created_in_order (number : Z) (seat_types : list SeatTypeDict) (db : DB) :
  seat_types ≠ [] →
  st_order <$> seat_types ≡ₚ range 1 (Z.of_nat (length seat_types) + 1) →
  ∃ ordered,
    ordered ≡ₚ seat_types
    ∧ st_order <$> ordered = range 1 (Z.of_nat (length seat_types) + 1)
    ∧ Provisioning.order_seat_types seat_types = Some (Some <$> ordered)
    ∧ Provisioning.ScreenViewSet_create number seat_types db
      = Some (Provisioning.create_screen_with_seats number ordered db).
Proof.
  intros Hne H.
  destruct (order_seat_types_contiguous seat_types H) as (ordered & Ho & Hp & Hr).
  exists ordered. split; [done|]. split; [done|]. split; [done|].
  rewrite ScreenViewSet_create_valid by done. rewrite Ho. simpl.
  by rewrite (mapM_fmap_Some id Some ordered).
Qed.

Lemma screen_created_in_order_witness :
  ∃ ordered,
    ordered ≡ₚ [Scenario.gold 1 1 2; Scenario.platinum 1 1 1]
    ∧ st_order <$> ordered = range 1 (Z.of_nat 2 + 1)
    ∧ Provisioning.order_seat_types [Scenario.gold 1 1 2; Scenario.platinum 1 1 1]
      = Some (Some <$> ordered)
    ∧ Provisioning.ScreenViewSet_create 1 [Scenario.gold 1 1 2; Scenario.platinum 1 1 1]
        empty_db
      = Some (Provisioning.create_screen_with_seats 1 ordered empty_db).
Proof.
  apply (screen_created_in_order 1 [Scenario.gold 1 1 2; Scenario.platinum 1 1 1] empty_db).
  - done.
  - vm_compute. apply perm_swap.
Defined.

(** X2.  [order_seat_types] fails, with Python's [IndexError], exactly when
    some order is outside 1 - N .. N, N being the number of seat types: an
    order from 1 - N to 0 is accepted as an index counted from the end.
    When it fails [ScreenViewSet.create] creates nothing. *)
Theorem order_out_of_range (number : Z) (seat_types : list SeatTypeDict) (db : DB) :
  let n := Z.of_nat (length seat_types) in
  (Provisioning.order_seat_types seat_types = None
   ↔ Exists (λ st, st_order st < 1 - n ∨ n < st_order st) seat_types)
  ∧ (Provisioning.order_seat_types seat_types = None →
     Provisioning.ScreenViewSet_create number seat_types db = None).
Proof.
  intros n. split.
  - unfold Provisioning.order_seat_types. split.
    + intros Hnone.
      destruct (decide (Exists (λ st, st_order st < 1 - n ∨ n < st_order st) seat_types))
        as [|Hno]; [done|].
      apply not_Exists_Forall in Hno; [|apply _].
      destruct (assign_loop_in_range seat_types (replicate (length seat_types) None))
        as [acc Hacc]; [|congruence].
      rewrite length_replicate. eapply Forall_impl; [exact Hno|].
      intros st Hst. simpl in Hst. unfold n in Hst. lia.
    + intros Hbad. apply assign_loop_IndexError. rewrite length_replicate.
      eapply Exists_impl; [exact Hbad|]. intros st Hst. simpl in Hst. unfold n in Hst. lia.
  - intros Hnone. destruct (decide (seat_types = [])) as [->|Hne]; [done|].
    rewrite ScreenViewSet_create_valid by done. by rewrite Hnone.
Qed.

Lemma order_out_of_range_witness :
  Provisioning.order_seat_types [Scenario.platinum 1 1 2] = None
  ∧ Provisioning.ScreenViewSet_create 1 [Scenario.platinum 1 1 2] empty_db = None.
Proof.
  assert (Provisioning.order_seat_types [Scenario.platinum 1 1 2] = None) as H.
  { apply (proj1 (order_out_of_range 1 [Scenario.platinum 1 1 2] empty_db)).
    apply Exists_cons_hd. right. simpl. lia. }
  split; [exact H|].
  exact (proj2 (order_out_of_range 1 [Scenario.platinum 1 1 2] empty_db) H).
Defined.

(** X3.  When every order is between 1 and N but two seat types share an
    order, [order_seat_types] returns a list in which a slot still holds
    the empty placeholder, and [ScreenViewSet.create] fails on it (Python's
    [KeyError]) and creates nothing. *)
Theorem duplicate_order_leaves_a_gap (number : Z) (seat_types : list SeatTypeDict) (db : DB) :
  Forall (λ st, 1 ≤ st_order st ≤ Z.of_nat (length seat_types)) seat_types →
  ¬ NoDup (st_order <$> seat_types) →
  (∃ ordered k, Provisioning.order_seat_types seat_types = Some ordered
                ∧ ordered !! k = Some None)
  ∧ Provisioning.ScreenViewSet_create number seat_types db = None.
Proof.
  intros Hb Hdup.
  destruct (missing_order (st_order <$> seat_types)) as (o & Ho & Hfree).
  { apply Forall_fmap. rewrite length_fmap. by eapply Forall_impl. }
  { done. }
  rewrite length_fmap in Ho.
  destruct (assign_loop_untouched seat_types (replicate (length seat_types) None))
    as (acc & Hacc & Hlen & Hout).
  { by rewrite length_replicate. }
  assert (acc !! Z.to_nat (o - 1) = Some None) as Hgap.
  { rewrite Hout.
    - apply lookup_replicate_2. lia.
    - intros st Hst Hslot. apply Hfree, list_elem_of_fmap. exists st. split; [|done].
      apply (proj1 (Forall_forall _ _) Hb) in Hst. unfold slot in Hslot. lia. }
  split.
  - by exists acc, (Z.to_nat (o - 1)).
  - destruct (decide (seat_types = [])) as [->|Hne]; [done|].
    rewrite ScreenViewSet_create_valid by done. unfold Provisioning.order_seat_types.
    rewrite Hacc. simpl. by rewrite (mapM_id_None acc _ Hgap).
Qed.

Lemma duplicate_order_leaves_a_gap_witness :
  Provisioning.ScreenViewSet_create 1 [Scenario.platinum 1 1 1; Scenario.gold 1 1 1] empty_db
  = None.
Proof.
  apply (duplicate_order_leaves_a_gap 1 [Scenario.platinum 1 1 1; Scenario.gold 1 1 1]
           empty_db).
  - repeat constructor; simpl; lia.
  - simpl. intros H. apply NoDup_cons in H as [H _]. apply H, list_elem_of_here.
Defined.

(** X4.  [create_screen_with_seats] sets [total_seat] to the sum over the
    seat types of rows times columns, and adds to the Seat table, for each
    seat type, max(0, rows) times max(0, columns) seats.  The two numbers
    agree when no seat type has a negative size; the function does not
    check the sizes. *)
Theorem screen_seat_count (number : Z) (seat_types : list SeatTypeDict) (db : DB) :
  let out := Provisioning.create_screen_with_seats number seat_types db in
  total_seat out.1 = seat_total seat_types
  ∧ Z.of_nat (length (Seat_objects out.2))
    = Z.of_nat (length (Seat_objects db)) + seats_created seat_types
  ∧ (Forall (λ st, 0 ≤ st_rows st ∧ 0 ≤ st_columns st) seat_types →
     Z.of_nat (length (Seat_objects out.2))
     = Z.of_nat (length (Seat_objects db)) + total_seat out.1).
Proof.
  destruct (create_screen_shape number seat_types db)
    as (new_types & new_seats & -> & _ & _ & _ & _ & Hlayout).
  simpl.
  assert (Z.of_nat (length new_seats) = seats_created seat_types) as Hlen.
  { by rewrite <- (length_fmap row_col), Hlayout, length_layout_created. }
  split; [done|]. split; [rewrite length_app; lia|].
  intros Hpos. rewrite length_app, Nat2Z.inj_add, Hlen. f_equal.
  by rewrite <- (length_layout 1), length_layout_created.
Qed.

Lemma screen_seat_count_witness :
  let out := Provisioning.create_screen_with_seats 1
               [Scenario.platinum 4 10 1; Scenario.gold 6 10 2] empty_db in
  Z.of_nat (length (Seat_objects out.2)) = 0 + total_seat out.1.
Proof.
  apply (screen_seat_count 1 [Scenario.platinum 4 10 1; Scenario.gold 6 10 2] empty_db).
  repeat constructor; simpl; lia.
Defined.

(** X5.  When no seat type has a negative number of rows, no two of the
    seats [create_screen_with_seats] creates have the same row and
    column. *)
Theorem screen_seats_distinct_places (number : Z) (seat_types : list SeatTypeDict) (db : DB) :
  Forall (λ st, 0 ≤ st_rows st) seat_types →
  let out := Provisioning.create_screen_with_seats number seat_types db in
  NoDup (row_col <$> drop (length (Seat_objects db)) (Seat_objects out.2)).
Proof.
  intros Hpos.
  destruct (create_screen_shape number seat_types db)
    as (new_types & new_seats & -> & _ & _ & _ & _ & Hlayout).
  simpl. rewrite drop_app_length, Hlayout. by apply NoDup_layout.
Qed.

Lemma screen_seats_distinct_places_witness :
  let out := Provisioning.create_screen_with_seats 1
               [Scenario.platinum 4 10 1; Scenario.gold 6 10 2] empty_db in
  NoDup (row_col <$> drop (length (Seat_objects empty_db)) (Seat_objects out.2)).
Proof.
  apply (screen_seats_distinct_places 1 [Scenario.platinum 4 10 1; Scenario.gold 6 10 2]
           empty_db).
  repeat constructor; simpl; lia.
Defined.

(** X6.  In a database whose catalog keys are in order, the screen that
    [create_screen_with_seats] returns is the row stored under its key, the
    seats of that screen are exactly the seats the call creates, and, when
    no seat type has a negative size, their number is the [total_seat] of
    the screen. *)
Theorem new_screen_has_its_seats (number : Z) (seat_types : list SeatTypeDict) (db : DB) :
  catalog_wf db → screen_ids_sequential db →
  let out := Provisioning.create_screen_with_seats number seat_types db in
  screen_of out.2 (screen_id out.1) = Some out.1
  ∧ seats_of_screen out.2 (screen_id out.1)
    = drop (length (Seat_objects db)) (Seat_objects out.2)
  ∧ (Forall (λ st, 0 ≤ st_rows st ∧ 0 ≤ st_columns st) seat_types →
     Z.of_nat (length (seats_of_screen out.2 (screen_id out.1))) = total_seat out.1).
Proof.
  intros Hwf Hsids.
  pose proof (create_screen_catalog number seat_types db Hwf Hsids) as Hcat.
  destruct (create_screen_shape number seat_types db)
    as (new_types & new_seats & Heq & _ & _ & _ & _ & Hlayout).
  rewrite Heq in Hcat |- *. simpl in Hcat |- *.
  destruct Hcat as (_ & _ & Hold & Hnew). rewrite drop_app_length in Hnew |- *.
  assert (seats_of_screen
            (Provisioning.Screen_save
               {| screen_id := next_id (Screen_objects db); screen_number := number;
                  total_seat := seat_total seat_types |}
               (add_catalog db new_types new_seats))
            (next_id (Screen_objects db)) = new_seats) as Hseats.
  { unfold seats_of_screen. simpl. rewrite filter_app.
    rewrite filter_none, filter_all; [done| |].
    - apply Forall_forall. intros s Hs. by apply Hnew.
    - apply Forall_forall. intros s Hs. destruct (Hold s Hs) as [-> Hne]. done. }
  split; [|split].
  - unfold screen_of. simpl. rewrite list_find_app_r.
    + simpl. by rewrite decide_True.
    + apply list_find_None, Forall_forall. intros scr Hscr.
      apply list_elem_of_lookup in Hscr as [i Hi]. rewrite (Hsids i scr Hi).
      apply lookup_lt_Some in Hi. unfold next_id. lia.
  - exact Hseats.
  - intros Hpos. rewrite Hseats, <- (length_fmap row_col), Hlayout.
    by apply length_layout.
Qed.

Lemma new_screen_has_its_seats_witness :
  let out := Provisioning.create_screen_with_seats 1
               [Scenario.platinum 4 10 1; Scenario.gold 6 10 2] empty_db in
  Z.of_nat (length (seats_of_screen out.2 (screen_id out.1))) = total_seat out.1.
Proof.
  apply (new_screen_has_its_seats 1 [Scenario.platinum 4 10 1; Scenario.gold 6 10 2]
           empty_db (proj1 catalog_wf_empty) (proj2 catalog_wf_empty)).
  repeat constructor; simpl; lia.
Defined.

(** X7.  [create_screen_with_seats] keeps the catalog keys in order and
    leaves the rest as it was: every other screen keeps its row and its
    seats, and the tables of shows, prices, per-date rows and bookings are
    not written. *)
Theorem create_screen_keeps_the_rest (number : Z) (seat_types : list SeatTypeDict)
    (db : DB) :
  catalog_wf db → screen_ids_sequential db →
  let out := Provisioning.create_screen_with_seats number seat_types db in
  catalog_wf out.2 ∧ screen_ids_sequential out.2
  ∧ (∀ k, k ≠ screen_id out.1 →
          screen_of out.2 k = screen_of db k
          ∧ seats_of_screen out.2 k = seats_of_screen db k)
  ∧ ShowDetail_objects out.2 = ShowDetail_objects db
  ∧ ShowSeatPrice_objects out.2 = ShowSeatPrice_objects db
  ∧ BookedShowDetail_objects out.2 = BookedShowDetail_objects db
  ∧ Booking_objects out.2 = Booking_objects db.
Proof.
  intros Hwf Hsids.
  pose proof (create_screen_catalog number seat_types db Hwf Hsids) as Hcat.
  destruct (create_screen_shape number seat_types db)
    as (new_types & new_seats & Heq & _).
  rewrite Heq in Hcat |- *. simpl in Hcat |- *.
  destruct Hcat as (Hwf' & Hsids' & Hold & Hnew). rewrite drop_app_length in Hnew.
  split; [done|]. split; [done|]. split; [|done].
  intros k Hk. split.
  - unfold screen_of. simpl.
    destruct (list_find (λ s, screen_id s = k) (Screen_objects db)) as [[i scr]|] eqn:E.
    + by rewrite (list_find_app_l _ _ _ _ _ E).
    + rewrite (list_find_app_r _ _ _ E). simpl. by rewrite decide_False.
  - unfold seats_of_screen. simpl. rewrite filter_app.
    rewrite (filter_none _ new_seats), app_nil_r.
    + apply filter_ext_in. intros s Hs. by destruct (Hold s Hs) as [-> _].
    + apply Forall_forall. intros s Hs. rewrite (Hnew s Hs). intros [= E]. done.
Qed.

Lemma create_screen_keeps_the_rest_witness :
  let out := Provisioning.create_screen_with_seats 2 [Scenario.gold 1 1 1]
               Scenario.opening_db in
  seats_of_screen out.2 1 = seats_of_screen Scenario.opening_db 1.
Proof.
  assert (catalog_wf Scenario.opening_db) as Hwf.
  { split; [|split].
    - intros [|i] m Hi; simpl in Hi; [by injection Hi as <-|done].
    - intros s Hs. apply list_elem_of_In in Hs. simpl in Hs.
      destruct Hs as [<-|[<-|[<-|[]]]]; simpl; lia.
    - intros m Hm. apply list_elem_of_In in Hm. simpl in Hm.
      destruct Hm as [<-|[]]; simpl; lia. }
  assert (screen_ids_sequential Scenario.opening_db) as Hsids.
  { intros [|i] scr Hi; simpl in Hi; [by injection Hi as <-|done]. }
  apply (create_screen_keeps_the_rest 2 [Scenario.gold 1 1 1] Scenario.opening_db Hwf Hsids).
  simpl. unfold next_id. simpl. lia.
Defined.

(** ** Availability and validation *)

(** X8.  After [get_available_seats] has missed the cache for a (show,
    date), every read of that key before [SHOW_CACHE_TIMEOUT] seconds have
    passed returns the same rows and leaves the cache as it is, whatever
    the database holds by then; a read at or after that time computes the
    rows from the database again. *)
Theorem availability_cached_for_timeout (now show date : Z) (w : World) :
  (cache_get now (show, date) w).1 = inr None →
  ∃ qs w1,
    get_available_seats now show date w = (inr qs, w1)
    ∧ qs_rows (w_db w1) qs = run_query (w_db w) show date
    ∧ ∀ now' db',
        let w' := {| w_db := db'; w_cache := w_cache w1 |} in
        (now' < now + SHOW_CACHE_TIMEOUT →
         get_available_seats now' show date w' = (inr qs, w'))
        ∧ (now + SHOW_CACHE_TIMEOUT ≤ now' →
           ∃ qs' w2, get_available_seats now' show date w' = (inr qs', w2)
                     ∧ qs_rows (w_db w2) qs' = run_query db' show date).
Proof.
  intros Hmiss.
  unfold get_available_seats, mbind, M_bind, cache_set, read_db, mret, M_ret.
  destruct (cache_get now (show, date) w) as [r w0] eqn:Hget. simpl in Hmiss. subst r.
  assert (w0 = w) as -> by (unfold cache_get in Hget; by injection Hget).
  simpl. eexists _, _. split; [done|]. split; [done|].
  intros now' db'. unfold cache_get. simpl. rewrite lookup_insert_eq. split; intros Hnow.
  - by rewrite bool_decide_eq_true_2.
  - rewrite bool_decide_eq_false_2 by lia. simpl. by eexists _, _.
Qed.

Lemma availability_cached_for_timeout_witness :
  ∃ qs w1,
    get_available_seats Scenario.noon_before 1 100 Scenario.opening = (inr qs, w1)
    ∧ qs_rows (w_db w1) qs = run_query (w_db Scenario.opening) 1 100
    ∧ ∀ now' db',
        let w' := {| w_db := db'; w_cache := w_cache w1 |} in
        (now' < Scenario.noon_before + SHOW_CACHE_TIMEOUT →
         get_available_seats now' 1 100 w' = (inr qs, w'))
        ∧ (Scenario.noon_before + SHOW_CACHE_TIMEOUT ≤ now' →
           ∃ qs' w2, get_available_seats now' 1 100 w' = (inr qs', w2)
                     ∧ qs_rows (w_db w2) qs' = run_query db' 1 100).
Proof.
  apply (availability_cached_for_timeout Scenario.noon_before 1 100 Scenario.opening).
  reflexivity.
Defined.

(** X9.  For a show that starts at a time of day, a request for a date
    before today is also inside the booking window, so the past-show rule
    only chooses the message: [validate_booking_request] accepts a request
    exactly when the number of seats is in bounds, the show starts at
    least [MIN_BOOKING_HOURS_BEFORE] hours from now, and every seat is
    among the available ones. *)
Theorem validation_accepts_iff (now : Z) (seats : list Z) (show : ShowDetail) (date : Z)
    (w : World) :
  0 ≤ start_time show < seconds_per_day →
  (past now date → window_expired now show date)
  ∧ ((validate_booking_request now seats show date w).1 = inr ()
     ↔ seat_count_ok seats
       ∧ ¬ window_expired now show date
       ∧ Forall (λ x, x ∈ available_ids now show date w) seats).
Proof.
  intros Htime.
  assert (past now date → window_expired now show date) as Hpast.
  { unfold past, window_expired, date_of, combine, timedelta_hours,
      MIN_BOOKING_HOURS_BEFORE, seconds_per_day in *.
    intros Hp. pose proof (Z.mul_div_le now 86400). lia. }
  split; [exact Hpast|].
  rewrite validate_cases. unfold rejected.
  repeat case_bool_decide; split; try done; tauto.
Qed.

Lemma validation_accepts_iff_witness :
  (validate_booking_request Scenario.noon_before [1; 2] Scenario.the_show 100
     Scenario.opening).1 = inr ().
Proof.
  apply (validation_accepts_iff Scenario.noon_before [1; 2] Scenario.the_show 100
           Scenario.opening).
  - vm_compute. split; [discriminate|reflexivity].
  - split; [vm_compute; split; discriminate|].
    split; [vm_compute; discriminate|].
    constructor; [vm_compute; apply list_elem_of_here|].
    constructor; [vm_compute; apply list_elem_of_further, list_elem_of_here|].
    constructor.
Defined.

(** X10.  [validate_booking_request] never writes the database.  A request
    rejected for its seat count, its date or the booking window leaves the
    cache as it is too; a request that reaches the availability rule
    leaves a live cache entry for its (show, date). *)
Theorem validation_effects (now : Z) (seats : list Z) (show : ShowDetail) (date : Z)
    (w : World) :
  let w' := (validate_booking_request now seats show date w).2 in
  w_db w' = w_db w
  ∧ (¬ seat_count_ok seats ∨ past now date ∨ window_expired now show date → w' = w)
  ∧ (seat_count_ok seats → ¬ past now date → ¬ window_expired now show date →
     ∃ qs expires, w_cache w' !! (show_id show, date) = Some (qs, expires)
                   ∧ now < expires).
Proof.
  split; [apply validate_world|].
  unfold validate_booking_request.
  rewrite (bool_decide_ext _ (seat_count_ok seats)) by done.
  rewrite (bool_decide_ext (date < date_of now) (past now date)) by done.
  rewrite (bool_decide_ext (_ < _) (window_expired now show date)) by done.
  split.
  - intros Hrej. repeat (case_bool_decide; simpl; try done). tauto.
  - intros H1 H2 H3.
    rewrite (bool_decide_eq_true_2 _ H1), (bool_decide_eq_false_2 _ H2),
      (bool_decide_eq_false_2 _ H3). simpl.
    unfold get_available_seats, mbind, M_bind, cache_get, cache_set, read_db, mret, M_ret.
    simpl.
    destruct (w_cache w !! (show_id show, date)) as [[qs e]|] eqn:E; simpl.
    + case_bool_decide; simpl.
      * destruct (forallb _ seats); simpl; eauto.
      * destruct (forallb _ seats); simpl; rewrite lookup_insert_eq; eexists _, _;
          (split; [done|]); unfold SHOW_CACHE_TIMEOUT; lia.
    + destruct (forallb _ seats); simpl; rewrite lookup_insert_eq; eexists _, _;
        (split; [done|]); unfold SHOW_CACHE_TIMEOUT; lia.
Qed.

Lemma validation_effects_witness :
  (validate_booking_request Scenario.noon_before (replicate 11 1) Scenario.the_show 100
     Scenario.opening).2 = Scenario.opening.
Proof.
  apply (validation_effects Scenario.noon_before (replicate 11 1) Scenario.the_show 100
           Scenario.opening).
  left. unfold seat_count_ok, MIN_SEATS_PER_BOOKING, MAX_SEATS_PER_BOOKING. simpl. lia.
Defined.

(** ** The answers of the booking view *)

(** X12.  The errors of [BookingViewSet.booking] in the order in which they
    are found.  An unknown show gives the 404 answer, whatever the request
    holds.  For a show that exists, an empty list of seats is refused by
    the serializer, by the field or by [validate] as the model declares
    the field; the first key that is no seat's is refused by the field;
    these three leave database and cache as they are.  A request whose
    seats exist is refused by [validate_booking_request]: with the
    seat-count error for more than [MAX_SEATS_PER_BOOKING] seats, else
    with the past-show error, else with the booking-window error, and
    else with the seats-unavailable error, whatever the ledger holds. *)
Theorem booking_errors (seats_allow_empty : bool)
    (after_validation : Z → list Seat → ShowDetail → M Booking)
    (now usr show : Z) (data : BookingRequestDict) (w : World) :
  let answer := booking seats_allow_empty after_validation now usr show data w in
  let known := λ k, is_Some (Seat_get (w_db w) k) in
  (show_of (w_db w) show = None → answer = (inl Http404, w))
  ∧ (is_Some (show_of (w_db w) show) → req_seats data = [] →
     answer = (inl (ValidationError (if seats_allow_empty then "Seats are required"
                                     else "This list may not be empty.")), w))
  ∧ (is_Some (show_of (w_db w) show) →
     ∀ keys key keys', req_seats data = keys ++ key :: keys' →
                       Forall known keys → ¬ known key →
                       answer = (inl (invalid_pk key), w))
  ∧ (∀ sd, show_of (w_db w) show = Some sd →
           req_seats data ≠ [] → Forall known (req_seats data) →
           answer.1 = inl (ValidationError (ERROR_MESSAGES
                             (if bool_decide (MAX_SEATS_PER_BOOKING
                                              < Z.of_nat (length (req_seats data)))
                              then invalid_seat_count
                              else if bool_decide (past now (req_show_date data))
                              then past_show
                              else if bool_decide
                                        (window_expired now sd (req_show_date data))
                              then booking_window_expired
                              else seats_unavailable)))
           ∧ w_db answer.2 = w_db w).
Proof.
  intros answer known. subst answer known.
  split; [apply booking_no_show|]. split; [apply booking_no_seats|]. split.
  - intros Hsd keys key keys' Hkeys Hknown Hkey.
    apply booking_invalid_pk; [done|rewrite Hkeys; by destruct keys|].
    rewrite Hkeys. apply seats_to_internal_value_missing; [done|].
    by apply eq_None_not_Some.
  - intros sd Hsd Hne Hknown.
    destruct (seats_to_internal_value_found _ _ Hknown) as [seats Hseats].
    destruct (booking_rejects seats_allow_empty after_validation now usr show data w sd seats
                Hsd Hne Hseats) as (w' & -> & Hdb).
    split; [|done]. simpl. do 3 f_equal. unfold rejection.
    assert (1 ≤ Z.of_nat (length (req_seats data)))
      by (destruct (req_seats data); [done|simpl; lia]).
    unfold MIN_SEATS_PER_BOOKING, MAX_SEATS_PER_BOOKING.
    repeat case_bool_decide; (done || lia).
Qed.

Lemma booking_errors_witness :
  booking false book_by_key Scenario.noon_before 7 2
    {| req_seats := [1]; req_show_date := 100 |} Scenario.opening
  = (inl Http404, Scenario.opening)
  ∧ booking false book_by_key Scenario.noon_before 7 1
      {| req_seats := []; req_show_date := 100 |} Scenario.opening
    = (inl (ValidationError "This list may not be empty."), Scenario.opening)
  ∧ booking false book_by_key Scenario.noon_before 7 1
      {| req_seats := [1; 99; 98]; req_show_date := 100 |} Scenario.opening
    = (inl (invalid_pk 99), Scenario.opening)
  ∧ (booking false book_by_key Scenario.noon_before 7 1
       {| req_seats := [1; 2]; req_show_date := 100 |} Scenario.opening).1
    = inl (ValidationError (ERROR_MESSAGES seats_unavailable)).
Proof.
  split; [|split; [|split]].
  - apply (booking_errors false book_by_key Scenario.noon_before 7 2
             {| req_seats := [1]; req_show_date := 100 |} Scenario.opening).
    vm_compute. reflexivity.
  - apply (booking_errors false book_by_key Scenario.noon_before 7 1
             {| req_seats := []; req_show_date := 100 |} Scenario.opening);
      [vm_compute; eauto|reflexivity].
  - apply (proj1 (proj2 (proj2 (booking_errors false book_by_key Scenario.noon_before 7 1
             {| req_seats := [1; 99; 98]; req_show_date := 100 |} Scenario.opening)))
             ltac:(vm_compute; eauto) [1] 99 [98]).
    + reflexivity.
    + constructor; [vm_compute; eauto|constructor].
    + vm_compute. by intros [x Hx].
  - apply (proj2 (proj2 (proj2 (booking_errors false book_by_key Scenario.noon_before 7 1
             {| req_seats := [1; 2]; req_show_date := 100 |} Scenario.opening)))
             Scenario.the_show).
    + vm_compute. reflexivity.
    + done.
    + repeat (constructor; [vm_compute; eauto|]). constructor.
Defined.

(** ** Pricing and prices *)

(** X18.  [calculate_total_price] depends on the list of seat keys only
    through the seats of the table it selects: two lists that contain the
    same keys of existing seats, in any order and with any other keys
    beside them, give the same result. *)
Theorem total_price_of_selected_seats (seats seats' : list Z) (show : Z) (w : World) :
  (∀ s, s ∈ Seat_objects (w_db w) → seat_id s ∈ seats ↔ seat_id s ∈ seats') →
  calculate_total_price seats show w = calculate_total_price seats' show w.
Proof.
  intros Hsame.
  unfold calculate_total_price, seat_types_of, mbind, M_bind, read_db. simpl.
  by rewrite (filter_ext_in (λ s, seat_id s ∈ seats) (λ s, seat_id s ∈ seats') _ Hsame).
Qed.

Lemma total_price_of_selected_seats_witness :
  calculate_total_price [3; 1] 1 Scenario.opening
  = calculate_total_price [1; 99; 3; 1] 1 Scenario.opening.
Proof.
  apply (total_price_of_selected_seats [3; 1] [1; 99; 3; 1] 1 Scenario.opening).
  intros s Hs. apply list_elem_of_In in Hs. simpl in Hs.
  destruct Hs as [<-|[<-|[<-|[]]]]; simpl; rewrite !elem_of_cons, !elem_of_nil; lia.
Defined.

(** X19.  The edges of [calculate_total_price]: for a show that does not
    exist it raises [DoesNotExist]; for a show that exists and a list that
    names no seat of the table, the empty list among them, the total is
    [0.0]; and it never changes database or cache. *)
Theorem total_price_edges (seats : list Z) (show : Z) (w : World) :
  (calculate_total_price seats show w).2 = w
  ∧ (show_of (w_db w) show = None →
     (calculate_total_price seats show w).1 = inl DoesNotExist)
  ∧ (is_Some (show_of (w_db w) show) →
     (∀ s, s ∈ Seat_objects (w_db w) → seat_id s ∉ seats) →
     (calculate_total_price seats show w).1 = inr 0%float).
Proof.
  split; [apply calculate_world|].
  unfold calculate_total_price, seat_types_of, mbind, M_bind, read_db. simpl.
  split.
  - by intros ->.
  - intros [sd ->] Hnone. simpl.
    rewrite filter_none; [done|]. apply Forall_forall. intros s Hs. by apply Hnone.
Qed.

Lemma total_price_edges_witness :
  (calculate_total_price [] 2 Scenario.opening).1 = inl DoesNotExist
  ∧ (calculate_total_price [98; 99] 1 Scenario.opening).1 = inr 0%float.
Proof.
  split.
  - apply (total_price_edges [] 2 Scenario.opening). vm_compute. reflexivity.
  - apply (total_price_edges [98; 99] 1 Scenario.opening).
    + vm_compute. eauto.
    + intros s Hs. apply list_elem_of_In in Hs. simpl in Hs.
      destruct Hs as [<-|[<-|[<-|[]]]]; simpl; rewrite !elem_of_cons, !elem_of_nil; lia.
Defined.

Section PriceFacts.

(** [update_price] by cases on the row [get_object_or_404] finds. *)
Lemma update_price_cases (show pid : Z) (data_price : option float) (w : World) :
  update_price show pid data_price w
  = match list_find (λ p, price_id p = pid ∧ price_show_detail p = show)
            (ShowSeatPrice_objects (w_db w)) with
    | None => (inl Http404, w)
    | Some (_, p) =>
        (inr (default 0%float data_price),
         {| w_db :=
              {| Screen_objects := Screen_objects (w_db w);
                 ScreenSeatTypesMapping_objects := ScreenSeatTypesMapping_objects (w_db w);
                 Seat_objects := Seat_objects (w_db w);
                 ShowDetail_objects := ShowDetail_objects (w_db w);
                 ShowSeatPrice_objects :=
                   (λ x, if bool_decide (price_id x = pid)
                         then with_price (default 0%float data_price) p else x)
                     <$> ShowSeatPrice_objects (w_db w);
                 BookedShowDetail_objects := BookedShowDetail_objects (w_db w);
                 Booking_objects := Booking_objects (w_db w) |};
            w_cache := w_cache w |})
    end.
Proof.
  unfold update_price, get_price_or_404, ShowSeatPrice_save, mbind, M_bind, read_db. simpl.
  destruct (list_find _ _) as [[i p]|] eqn:Hfind; [|done]. simpl.
  apply list_find_Some in Hfind as (_ & [Hid _] & _). unfold with_price. by rewrite Hid.
Qed.

End PriceFacts.

(** X20.  [update_price] answers 404 and writes nothing exactly when no
    price row has both the given key and the given show, also when the key
    exists under another show.  Otherwise it answers the new price, [0.0]
    when the request carries none; reading the row back the same way then
    finds a row with the new price; rows with other keys stay where they
    are, no row is added or removed, and no other table and no cache entry
    changes. *)
Theorem update_price_outcome (show pid : Z) (data_price : option float) (w : World) :
  let prices := ShowSeatPrice_objects (w_db w) in
  match update_price show pid data_price w with
  | (inl e, w') =>
      e = Http404 ∧ w' = w
      ∧ ∀ p, p ∈ prices → price_id p = pid → price_show_detail p ≠ show
  | (inr answer, w') =>
      let prices' := ShowSeatPrice_objects (w_db w') in
      answer = default 0%float data_price
      ∧ (∃ p, p ∈ prices ∧ price_id p = pid ∧ price_show_detail p = show
              ∧ get_price_or_404 pid show w' = (inr (with_price answer p), w'))
      ∧ length prices' = length prices
      ∧ (∀ i q, prices !! i = Some q → price_id q ≠ pid → prices' !! i = Some q)
      ∧ Screen_objects (w_db w') = Screen_objects (w_db w)
      ∧ ScreenSeatTypesMapping_objects (w_db w') = ScreenSeatTypesMapping_objects (w_db w)
      ∧ Seat_objects (w_db w') = Seat_objects (w_db w)
      ∧ ShowDetail_objects (w_db w') = ShowDetail_objects (w_db w)
      ∧ BookedShowDetail_objects (w_db w') = BookedShowDetail_objects (w_db w)
      ∧ Booking_objects (w_db w') = Booking_objects (w_db w)
      ∧ w_cache w' = w_cache w
  end.
Proof.
  intros prices. rewrite update_price_cases. fold prices.
  destruct (list_find _ prices) as [[i p]|] eqn:Hfind.
  - apply list_find_Some in Hfind as (Hi & [Hid Hshow] & _). simpl.
    split; [done|]. split; [|split; [by rewrite length_fmap|split; [|done]]].
    + exists p. split; [by eapply list_elem_of_lookup_2|]. split; [done|]. split; [done|].
      unfold get_price_or_404, mbind, M_bind, read_db. simpl.
      set (new := with_price (default 0%float data_price) p).
      set (f := λ x, if bool_decide (price_id x = pid) then new else x).
      assert (new ∈ f <$> prices) as Hin.
      { apply list_elem_of_fmap. exists p. split; [|by eapply list_elem_of_lookup_2].
        unfold f. by rewrite bool_decide_eq_true_2. }
      destruct (list_find_elem_of (λ q, price_id q = pid ∧ price_show_detail q = show)
                  (f <$> prices) new Hin) as [[j q] Hq]; [done|].
      rewrite Hq. apply list_find_Some in Hq as (Hj & [Hqid _] & _).
      apply list_elem_of_lookup_2, list_elem_of_fmap in Hj as (x & -> & _).
      unfold f in Hqid |- *. by case_bool_decide.
    + intros k q Hk Hne. rewrite list_lookup_fmap, Hk. simpl.
      by rewrite bool_decide_eq_false_2.
  - split; [done|]. split; [done|]. intros p Hp Hid Hshow.
    apply list_find_None in Hfind. rewrite Forall_forall in Hfind. by apply (Hfind p).
Qed.

(** X21.  What [update_price] means for the pricing, in a table whose
    price keys are distinct: afterwards the price [calculate_total_price]
    looks up for a seat type label of a show is the new price when the row
    it finds is the updated one, and the price of the row it found before
    otherwise; the totals of every other show are what they were. *)
Theorem price_lookup_after_update (show pid : Z) (data_price : option float)
    (w w' : World) (answer : float) :
  NoDup (price_id <$> ShowSeatPrice_objects (w_db w)) →
  update_price show pid data_price w = (inr answer, w') →
  (∀ show' label,
     next_price (w_db w') (show_price_detail (w_db w') show') label
     = match list_find (λ p, price_label (w_db w) p = Some label)
               (show_price_detail (w_db w) show') with
       | Some (_, p) => if bool_decide (price_id p = pid) then answer else price p
       | None => 0%float
       end)
  ∧ ∀ seats show', show' ≠ show →
      (calculate_total_price seats show' w').1 = (calculate_total_price seats show' w).1.
Proof.
  intros Hnd. rewrite update_price_cases.
  destruct (list_find _ _) as [[i p]|] eqn:Hfind; [|done].
  apply list_find_Some in Hfind as (Hi & [Hid Hshow] & _).
  apply list_elem_of_lookup_2 in Hi.
  intros [= <- <-].
  set (new := default 0%float data_price).
  set (g := λ x, if bool_decide (price_id x = pid) then with_price new x else x).
  assert ((λ x, if bool_decide (price_id x = pid) then with_price new p else x)
            <$> ShowSeatPrice_objects (w_db w)
          = g <$> ShowSeatPrice_objects (w_db w)) as Hg.
  { apply list_fmap_ext. intros k x Hk. unfold g. case_bool_decide; [|done].
    apply list_elem_of_lookup_2 in Hk.
    by rewrite (NoDup_key_inj price_id _ x p Hnd Hk Hi) by congruence. }
  assert (∀ show', show_price_detail
                     {| Screen_objects := Screen_objects (w_db w);
                        ScreenSeatTypesMapping_objects := ScreenSeatTypesMapping_objects (w_db w);
                        Seat_objects := Seat_objects (w_db w);
                        ShowDetail_objects := ShowDetail_objects (w_db w);
                        ShowSeatPrice_objects := g <$> ShowSeatPrice_objects (w_db w);
                        BookedShowDetail_objects := BookedShowDetail_objects (w_db w);
                        Booking_objects := Booking_objects (w_db w) |} show'
                   = g <$> show_price_detail (w_db w) show') as Hdetail.
  { intros show'. unfold show_price_detail. simpl. rewrite filter_fmap.
    f_equal. apply list_filter_iff. intros x. unfold g. simpl. by case_bool_decide. }
  simpl. rewrite Hg. split.
  - intros show' label. rewrite Hdetail. unfold next_price.
    rewrite list_find_fmap.
    rewrite (list_find_ext _ (λ p, price_label (w_db w) p = Some label)).
    + destruct (list_find _ (show_price_detail (w_db w) show')) as [[k q]|]; [|done].
      simpl. unfold g. by case_bool_decide.
    + intros x. unfold g. simpl. by case_bool_decide.
  - intros seats show' Hne.
    unfold calculate_total_price, seat_types_of, mbind, M_bind, read_db, show_of. simpl.
    destruct (list_find _ (ShowDetail_objects (w_db w))) as [[k sd]|]; [|done]. simpl.
    f_equal. rewrite Hdetail.
    assert (g <$> show_price_detail (w_db w) show' = show_price_detail (w_db w) show') as ->.
    { rewrite <- (list_fmap_id (show_price_detail (w_db w) show')) at 2.
      apply list_fmap_ext. intros j x Hx. unfold g. case_bool_decide as Hx'; [|done].
      apply list_elem_of_lookup_2, list_elem_of_filter in Hx as [Hs Hx].
      exfalso. apply Hne. rewrite <- Hs, <- Hshow. f_equal.
      apply (NoDup_key_inj price_id _ x p Hnd Hx Hi). congruence. }
    done.
Qed.

Lemma price_lookup_after_update_witness :
  (∀ show' label,
     next_price (w_db (update_price 1 1 (Some 12%float) Scenario.opening).2)
       (show_price_detail (w_db (update_price 1 1 (Some 12%float) Scenario.opening).2) show')
       label
     = match list_find (λ p, price_label (w_db Scenario.opening) p = Some label)
               (show_price_detail (w_db Scenario.opening) show') with
       | Some (_, p) => if bool_decide (price_id p = 1) then 12%float else price p
       | None => 0%float
       end)
  ∧ ∀ seats show', show' ≠ 1 →
      (calculate_total_price seats show'
         (update_price 1 1 (Some 12%float) Scenario.opening).2).1
      = (calculate_total_price seats show' Scenario.opening).1.
Proof.
  apply (price_lookup_after_update 1 1 (Some 12%float) Scenario.opening
           (update_price 1 1 (Some 12%float) Scenario.opening).2 12%float).
  - vm_compute. apply NoDup_singleton.
  - vm_compute. reflexivity.
Defined.

(** ** Creating a show *)

(** X22.  [ShowDetailSerializer.save] and the prices.  In a database
    whose show keys are the sequential ones and whose price rows belong to
    shows of the table, the saved show is found under its key, its prices
    are the entries of [show_prices], one row per entry and in their order,
    every other show keeps its row and its prices, the keys of the shows
    stay sequential, and screens, seat types, seats, bookings and the cache
    are not written. *)
Theorem save_prices (data : ShowDetailData) (w : World) :
  show_ids_sequential (w_db w) →
  prices_of_shows (w_db w) →
  ∃ sd w',
    ShowDetailSerializer_save data w = (inr sd, w')
    ∧ show_of (w_db w') (show_id sd) = Some sd
    ∧ price_entry <$> show_price_detail (w_db w') (show_id sd) = data_show_prices data
    ∧ (∀ show', show' ≠ show_id sd →
         show_of (w_db w') show' = show_of (w_db w) show'
         ∧ show_price_detail (w_db w') show' = show_price_detail (w_db w) show')
    ∧ show_ids_sequential (w_db w') ∧ prices_of_shows (w_db w')
    ∧ Screen_objects (w_db w') = Screen_objects (w_db w)
    ∧ ScreenSeatTypesMapping_objects (w_db w') = ScreenSeatTypesMapping_objects (w_db w)
    ∧ Seat_objects (w_db w') = Seat_objects (w_db w)
    ∧ Booking_objects (w_db w') = Booking_objects (w_db w)
    ∧ w_cache w' = w_cache w.
Proof.
  intros Hseq Hfk.
  unfold ShowDetailSerializer_save, ShowDetail_create, mbind, M_bind. simpl.
  match goal with |- context [for_each (data_show_prices data) (ShowSeatPrice_create ?sd) ?w1] =>
    destruct (for_each_prices_rows sd (data_show_prices data) w1)
      as (w2 & rows & -> & Hp2 & Hentries & Hrows & Hc2 & Hs2 & Hm2 & Hseat2 & Hsd2 & Hb2
          & _);
    set (show_detail := sd) in * end.
  simpl in Hp2, Hc2, Hs2, Hm2, Hseat2, Hb2, Hsd2.
  match goal with |- context [for_each ?days ?body w2] =>
    destruct (for_each_days_rest show_detail (data_start_date data)
                (total_seat (data_screen data)) days w2)
      as (w3 & -> & Hp3 & Hc3 & Hs3 & Hm3 & Hseat3 & Hsd3 & Hb3) end.
  exists show_detail, w3.
  assert (show_id show_detail = next_id (ShowDetail_objects (w_db w))) as Hid by done.
  assert (∀ show', filter (λ p, price_show_detail p = show') rows
                   = if bool_decide (show' = show_id show_detail) then rows else []) as Hnew.
  { intros show'. case_bool_decide as Hs.
    - apply filter_all, Forall_forall. intros p Hp. rewrite Forall_forall in Hrows.
      by rewrite (Hrows p Hp).
    - apply filter_none, Forall_forall. intros p Hp. rewrite Forall_forall in Hrows.
      rewrite (Hrows p Hp). congruence. }
  split; [done|].
  split; [unfold show_of; rewrite Hsd3, Hsd2; by apply show_of_new|].
  split.
  { unfold show_price_detail. rewrite Hp3, Hp2, filter_app, Hnew, bool_decide_eq_true_2 by done.
    rewrite filter_none; [done|]. apply Forall_forall. intros p Hp.
    specialize (Hfk p Hp). rewrite Hid. unfold next_id. lia. }
  split.
  { intros show' Hne. split.
    - unfold show_of. rewrite Hsd3, Hsd2. by apply show_of_app.
    - unfold show_price_detail.
      rewrite Hp3, Hp2, filter_app, Hnew, bool_decide_eq_false_2, app_nil_r; done. }
  split.
  { intros i sd. rewrite Hsd3, Hsd2. intros Hi.
    apply lookup_app_Some in Hi as [Hi|[Hlen Hi]]; [by apply Hseq|].
    apply list_lookup_singleton_Some in Hi as [Hi <-].
    rewrite Hid. unfold next_id. lia. }
  split.
  { intros p. rewrite Hp3, Hp2, Hsd3, Hsd2, length_app. simpl. intros Hp.
    apply elem_of_app in Hp as [Hp|Hp].
    - specialize (Hfk p Hp). lia.
    - rewrite Forall_forall in Hrows. rewrite (Hrows p Hp), Hid. unfold next_id. lia. }
  by rewrite Hs3, Hs2, Hm3, Hm2, Hseat3, Hseat2, Hb3, Hb2, Hc3, Hc2.
Qed.

Lemma save_prices_witness :
  ∃ sd w',
    ShowDetailSerializer_save
      {| data_movie := 2; data_screen := Scenario.hall.1;
         data_start_time := 36000; data_end_time := 46800;
         data_start_date := 102; data_end_date := 103;
         data_show_prices := [(1, 8%float); (1, 9%float)] |} Scenario.opening = (inr sd, w')
    ∧ show_of (w_db w') (show_id sd) = Some sd
    ∧ price_entry <$> show_price_detail (w_db w') (show_id sd) = [(1, 8%float); (1, 9%float)]
    ∧ (∀ show', show' ≠ show_id sd →
         show_of (w_db w') show' = show_of (w_db Scenario.opening) show'
         ∧ show_price_detail (w_db w') show' = show_price_detail (w_db Scenario.opening) show')
    ∧ show_ids_sequential (w_db w') ∧ prices_of_shows (w_db w')
    ∧ Screen_objects (w_db w') = Screen_objects (w_db Scenario.opening)
    ∧ ScreenSeatTypesMapping_objects (w_db w')
      = ScreenSeatTypesMapping_objects (w_db Scenario.opening)
    ∧ Seat_objects (w_db w') = Seat_objects (w_db Scenario.opening)
    ∧ Booking_objects (w_db w') = Booking_objects (w_db Scenario.opening)
    ∧ w_cache w' = w_cache Scenario.opening.
Proof.
  apply (save_prices
           {| data_movie := 2; data_screen := Scenario.hall.1;
              data_start_time := 36000; data_end_time := 46800;
              data_start_date := 102; data_end_date := 103;
              data_show_prices := [(1, 8%float); (1, 9%float)] |} Scenario.opening).
  - intros [|i] sd Hi; [by injection Hi as <-|done].
  - intros p Hp. apply list_elem_of_In in Hp.
    destruct Hp as [<-|[]]. vm_compute. split; discriminate.
Defined.

(** X23.  Creating a show through the view set: the request is refused
    with "End date must be after start date", and nothing is written,
    exactly when the start date is after the end date; a show that is
    created has a per-date row for its first and for its last day, so no
    show is created without a day to book. *)
Theorem show_created_with_days (data : ShowDetailData) (w : World) :
  match ShowDetailViewSet_create data w with
  | (inl e, w') =>
      e = ValidationError "End date must be after start date" ∧ w' = w
      ∧ data_start_date data > data_end_date data
  | (inr sd, w') =>
      data_start_date data ≤ data_end_date data
      ∧ ShowDetailSerializer_save data w = (inr sd, w')
      ∧ ∀ d, d = start_date sd ∨ d = end_date sd →
             ∃ r, r ∈ BookedShowDetail_objects (w_db w')
                  ∧ booked_show_detail r = show_id sd ∧ show_date r = d
  end.
Proof.
  unfold ShowDetailViewSet_create, ShowDetailSerializer_validate, mbind, M_bind.
  case_bool_decide as Hdates; simpl; [done|].
  unfold ShowDetailSerializer_save, ShowDetail_create, mbind, M_bind. simpl.
  match goal with |- context [for_each (data_show_prices data) (ShowSeatPrice_create ?sd) ?w1] =>
    destruct (for_each_prices sd (data_show_prices data) w1) as (w2 & -> & _ & _);
    set (show_detail := sd) in * end.
  match goal with |- context [for_each ?days ?body w2] =>
    destruct (for_each_days show_detail (data_start_date data)
                (total_seat (data_screen data)) days w2)
      as (w3 & rows & -> & _ & Hb3 & Hdays & Hrows) end.
  split; [lia|]. split; [done|]. intros d Hd.
  assert (d ∈ show_date <$> rows) as Hin.
  { rewrite Hdays, range_shift, elem_of_range. simpl in Hd. lia. }
  apply list_elem_of_fmap in Hin as (r & -> & Hr).
  exists r. rewrite Hb3. split; [apply elem_of_app; by right|]. split; [|done].
  rewrite Forall_forall in Hrows. by apply Hrows.
Qed.

(** ** The template view book_seats *)

Section BookSeatsFacts.

Lemma split_comma_nonempty (s : string) : split_comma s ≠ [].
Proof.
  induction s as [|c s IH]; simpl; [done|].
  destruct (Ascii.eqb c ","); [done|]. by destruct (split_comma s).
Qed.

(** On integer keys the validator is [validate_booking_request]. *)
Lemma validate_booking_request_of_int (now : Z) (seats : list Z) (show : ShowDetail)
    (date : Z) :
  validate_booking_request_of int_in now seats show date
  = validate_booking_request now seats show date.
Proof. reflexivity. Qed.

Lemma str_in_false (x : string) (ids : list Z) : str_in x ids = false.
Proof. unfold str_in. induction ids as [|id ids IH]; [done|]. simpl. exact IH. Qed.

(** On [str] keys the validator rejects every list that is not empty. *)
Lemma validate_str_rejects (now : Z) (seats : list string) (show : ShowDetail) (date : Z)
    (w : World) :
  seats ≠ [] →
  ∃ k w', validate_booking_request_of str_in now seats show date w
          = (inl (ValidationError (ERROR_MESSAGES k)), w')
          ∧ w_db w' = w_db w
          ∧ (k = invalid_seat_count ↔ MAX_SEATS_PER_BOOKING < Z.of_nat (length seats)).
Proof.
  intros Hne. unfold validate_booking_request_of.
  assert (1 ≤ Z.of_nat (length seats)) by (destruct seats; [done|simpl; lia]).
  unfold MIN_SEATS_PER_BOOKING, MAX_SEATS_PER_BOOKING.
  case_bool_decide as Hcount; simpl.
  2:{ exists invalid_seat_count, w. split; [done|]. split; [done|]. split; [lia|done]. }
  case_bool_decide; simpl.
  { exists past_show, w. split; [done|]. split; [done|]. split; [done|lia]. }
  case_bool_decide; simpl.
  { exists booking_window_expired, w. split; [done|]. split; [done|]. split; [done|lia]. }
  unfold mbind, M_bind.
  destruct (get_available_seats_returns now (show_id show) date w) as (qs & w' & -> & Hdb).
  simpl.
  assert (forallb (λ seat_id, str_in seat_id (values_list_id (w_db w') qs)) seats = false)
    as ->.
  { destruct seats as [|x seats]; [done|]. simpl. by rewrite str_in_false. }
  simpl. exists seats_unavailable, w'. split; [done|]. split; [done|]. split; [done|lia].
Qed.

End BookSeatsFacts.

(** X24.  [book_seats] never books.  It hands the validator the pieces of
    the form field as [str], and no [str] is among the integer keys of the
    available seats, so rule 4 rejects every request the three rules
    before it let through.  Whatever the statements after the validation
    would do: the database is never written, the answer is never the
    redirect to a booking, a POST for a show that exists is always answered
    with the redirect to the seat selection and one error message, which is
    the seat-count message exactly when the field has more than ten
    pieces; a POST for a missing show is a 404 and any other method is
    redirected to the movie list. *)
Theorem book_seats_never_books (after_validation : list string → ShowDetail → M Booking)
    (now usr : Z) (method : string) (selected_seats : option string) (show : Z) (w : World) :
  let r := book_seats after_validation now usr method selected_seats show w in
  let pieces := split_comma (default EmptyString selected_seats) in
  w_db r.2 = w_db w
  ∧ (∀ key msgs, r.1 ≠ inr (redirect_booking_detail key, msgs))
  ∧ (method ≠ "POST" → r = (inr (redirect_movie_list, []), w))
  ∧ (method = "POST" → show_of (w_db w) show = None → r = (inl Http404, w))
  ∧ (method = "POST" → is_Some (show_of (w_db w) show) →
     ∃ k, r.1 = inr (redirect_select_seats show,
                     [message_error (ValidationError (ERROR_MESSAGES k))])
          ∧ (k = invalid_seat_count
             ↔ MAX_SEATS_PER_BOOKING < Z.of_nat (length pieces))).
Proof.
  intros r pieces. subst r. unfold book_seats.
  destruct (String.eqb method "POST") eqn:Hm; simpl.
  - apply String.eqb_eq in Hm.
    unfold get_object_or_404, mbind, M_bind, read_db. simpl.
    destruct (show_of (w_db w) show) as [sd|] eqn:Hsd; simpl.
    + unfold try_except, mbind, M_bind. fold pieces.
      destruct (validate_str_rejects now pieces sd (date_of now) w
                  (split_comma_nonempty _)) as (k & w' & -> & Hdb & Hk).
      simpl. split; [done|]. split; [done|]. split; [done|]. split; [done|].
      intros _ _. by exists k.
    + split; [done|]. split; [done|]. split; [done|]. split; [done|].
      by intros _ [sd' [=]].
  - apply String.eqb_neq in Hm.
    split; [done|]. split; [done|]. split; [done|]. split; done.
Qed.

Lemma book_seats_never_books_witness :
  let r := book_seats (λ _ _, raise DoesNotExist) Scenario.noon_before 7 "POST"
             (Some "1,2") 1 Scenario.opening in
  w_db r.2 = w_db Scenario.opening
  ∧ ∃ k, r.1 = inr (redirect_select_seats 1,
                    [message_error (ValidationError (ERROR_MESSAGES k))])
         ∧ (k = invalid_seat_count
            ↔ MAX_SEATS_PER_BOOKING < Z.of_nat (length (split_comma "1,2"))).
Proof.
  pose proof (book_seats_never_books (λ _ _, raise DoesNotExist) Scenario.noon_before 7 "POST"
                (Some "1,2") 1 Scenario.opening) as (Hdb & _ & _ & _ & Hpost).
  split; [exact Hdb|]. apply Hpost; [reflexivity|]. vm_compute. eauto.
Defined.

(** ** The seat layout of a screen *)

Section SeatLayoutFacts.

Lemma foldr_max_ge (x : Z) (l : list Z) (y : Z) : y ∈ x :: l → y ≤ foldr Z.max x l.
Proof.
  induction l as [|z l IH]; simpl.
  - intros ->%list_elem_of_singleton. lia.
  - rewrite !elem_of_cons. intros [->|[->|Hy]]; [|lia|].
    + specialize (IH (list_elem_of_here _ _)). lia.
    + specialize (IH (list_elem_of_further _ _ _ Hy)). lia.
Qed.

Lemma foldr_max_in (x : Z) (l : list Z) : foldr Z.max x l ∈ x :: l.
Proof.
  induction l as [|z l IH]; simpl; [apply list_elem_of_here|].
  destruct (Z.max_spec z (foldr Z.max x l)) as [[_ ->]|[_ ->]].
  - apply elem_of_cons in IH as [->|IH]; [apply list_elem_of_here|].
    by do 2 apply list_elem_of_further.
  - apply list_elem_of_further, list_elem_of_here.
Qed.

(** [first_descending] is the largest element of a list that has one. *)
Lemma first_descending_max (l : list Z) (m : Z) :
  m ∈ l → (∀ x, x ∈ l → x ≤ m) → first_descending l = m.
Proof.
  destruct l as [|x l]; [by intros ?%elem_of_nil|]. intros Hm Hub. simpl.
  pose proof (foldr_max_ge x l m Hm). pose proof (Hub _ (foldr_max_in x l)). lia.
Qed.

(** Assigning to the keys of a dict one after the other: the last
    assignment to a key is the one that stays. *)
Lemma compute_layout_lookup (db : DB) (scr : Z) (label : string) :
  compute_layout db scr !! label
  = type_layout db <$> last (filter (λ m, seat_type m = label) (screen_seat_types db scr)).
Proof.
  unfold compute_layout. generalize (screen_seat_types db scr) as ms. intros ms.
  assert (∀ acc : Layout,
            fold_left (λ layout m, <[seat_type m := type_layout db m]> layout) ms acc !! label
            = match last (filter (λ m, seat_type m = label) ms) with
              | Some m => Some (type_layout db m)
              | None => acc !! label
              end) as Hgen.
  { induction ms as [|m ms IH]; intros acc; [done|]. cbn [fold_left]. rewrite IH.
    rewrite filter_cons. destruct (decide (seat_type m = label)) as [<-|Hne].
    - rewrite last_cons. destruct (last _); [done|]. by rewrite lookup_insert_eq.
    - destruct (last _); [done|]. by rewrite lookup_insert_ne. }
  rewrite Hgen. by destruct (last _).
Qed.

End SeatLayoutFacts.

(** X25.  The layout [get_show_seat_layout] computes when the cache has
    none.  The entry of a label is the entry of the last seat type of the
    screen with that label: of two sections of a screen with the same
    label only the later one is in the layout.  In every entry, "rows" and
    "columns" are the largest row and the largest column among the listed
    seats, each carried by one of them, and both are [0] when no seat is
    listed; they are not the numbers of rows and columns. *)
Theorem seat_layout_entries (timeout : option Z) (now scr : Z) (db : DB) (c : LayoutCache) :
  layout_cache_get now scr c = None →
  let seat_layout := (get_show_seat_layout timeout now scr db c).1 in
  (∀ label,
     seat_layout !! label
     = type_layout db <$> last (filter (λ m, seat_type m = label) (screen_seat_types db scr)))
  ∧ ∀ label e, seat_layout !! label = Some e →
      (∀ v, v ∈ entry_seats e →
            values_row v ≤ entry_rows e ∧ values_col v ≤ entry_columns e)
      ∧ (entry_seats e = [] → entry_rows e = 0 ∧ entry_columns e = 0)
      ∧ (entry_seats e ≠ [] →
         (∃ v, v ∈ entry_seats e ∧ values_row v = entry_rows e)
         ∧ (∃ v, v ∈ entry_seats e ∧ values_col v = entry_columns e)).
Proof.
  intros Hmiss seat_layout. subst seat_layout. unfold get_show_seat_layout.
  rewrite Hmiss. simpl. split; [apply compute_layout_lookup|].
  intros label e. rewrite compute_layout_lookup.
  destruct (last _) as [m|]; [|done]. intros [= <-].
  unfold type_layout. simpl.
  set (seats := filter (λ s, type s = mapping_id m) (Seat_objects db)).
  split; [|split].
  - intros v (s & -> & Hs)%list_elem_of_fmap. simpl. split.
    + destruct (row <$> seats) as [|x l] eqn:Hl.
      * apply (f_equal length) in Hl. rewrite length_fmap in Hl.
        destruct seats; [by apply elem_of_nil in Hs|done].
      * apply foldr_max_ge. rewrite <- Hl. apply list_elem_of_fmap. by exists s.
    + destruct (col <$> seats) as [|x l] eqn:Hl.
      * apply (f_equal length) in Hl. rewrite length_fmap in Hl.
        destruct seats; [by apply elem_of_nil in Hs|done].
      * apply foldr_max_ge. rewrite <- Hl. apply list_elem_of_fmap. by exists s.
  - intros Hnil%fmap_nil_inv. by rewrite Hnil.
  - intros Hne. destruct seats as [|s0 seats0] eqn:Hseats; [done|]. split.
    + pose proof (foldr_max_in (row s0) (row <$> seats0)) as Hin.
      change (row s0 :: (row <$> seats0)) with (row <$> s0 :: seats0) in Hin.
      apply list_elem_of_fmap in Hin as (s & Hrow & Hs).
      exists (seat_values s). split; [apply list_elem_of_fmap; by exists s|].
      simpl. by rewrite <- Hrow.
    + pose proof (foldr_max_in (col s0) (col <$> seats0)) as Hin.
      change (col s0 :: (col <$> seats0)) with (col <$> s0 :: seats0) in Hin.
      apply list_elem_of_fmap in Hin as (s & Hcol & Hs).
      exists (seat_values s). split; [apply list_elem_of_fmap; by exists s|].
      simpl. by rewrite <- Hcol.
Qed.

Lemma seat_layout_entries_witness :
  let seat_layout := (get_show_seat_layout None 0 1 Scenario.opening_db ∅).1 in
  (∀ label,
     seat_layout !! label
     = type_layout Scenario.opening_db
         <$> last (filter (λ m, seat_type m = label)
                     (screen_seat_types Scenario.opening_db 1)))
  ∧ ∀ label e, seat_layout !! label = Some e →
      (∀ v, v ∈ entry_seats e →
            values_row v ≤ entry_rows e ∧ values_col v ≤ entry_columns e)
      ∧ (entry_seats e = [] → entry_rows e = 0 ∧ entry_columns e = 0)
      ∧ (entry_seats e ≠ [] →
         (∃ v, v ∈ entry_seats e ∧ values_row v = entry_rows e)
         ∧ (∃ v, v ∈ entry_seats e ∧ values_col v = entry_columns e)).
Proof.
  apply (seat_layout_entries None 0 1 Scenario.opening_db ∅). reflexivity.
Defined.

(** X26.  The layout is cached by screen.  Once computed it is the answer
    for that screen whatever the database has become, until the default
    timeout of the cache has passed, and for ever when there is none; from
    the expiry on it is computed again from the database of that moment.
    The entries of the other screens are not touched. *)
Theorem seat_layout_cached (timeout : option Z) (now scr : Z) (db : DB) (c : LayoutCache) :
  layout_cache_get now scr c = None →
  let out := get_show_seat_layout timeout now scr db c in
  out.1 = compute_layout db scr
  ∧ (∀ scr', scr' ≠ scr → out.2 !! scr' = c !! scr')
  ∧ (∀ now' db', match timeout with Some t => now' < now + t | None => True end →
       get_show_seat_layout timeout now' scr db' out.2 = out)
  ∧ (∀ now' db' t, timeout = Some t → now + t ≤ now' →
       (get_show_seat_layout timeout now' scr db' out.2).1 = compute_layout db' scr).
Proof.
  intros Hmiss out.
  assert (out = (compute_layout db scr,
                 <[scr := (compute_layout db scr, (λ t, now + t) <$> timeout)]> c)) as ->.
  { subst out. unfold get_show_seat_layout. by rewrite Hmiss. }
  simpl. split; [done|].
  split; [intros scr' Hne; by rewrite lookup_insert_ne|]. split.
  - intros now' db' Hlive. unfold get_show_seat_layout, layout_cache_get.
    rewrite (lookup_insert_eq (M:=gmap Z)). destruct timeout as [t|]; simpl; [|done].
    by rewrite bool_decide_eq_true_2.
  - intros now' db' t -> Hexp. unfold get_show_seat_layout, layout_cache_get.
    rewrite (lookup_insert_eq (M:=gmap Z)). simpl. rewrite bool_decide_eq_false_2 by lia. done.
Qed.

Lemma seat_layout_cached_witness :
  let out := get_show_seat_layout (Some 300) 0 1 Scenario.opening_db ∅ in
  out.1 = compute_layout Scenario.opening_db 1
  ∧ get_show_seat_layout (Some 300) 299 1 empty_db out.2 = out
  ∧ (get_show_seat_layout (Some 300) 300 1 empty_db out.2).1 = compute_layout empty_db 1.
Proof.
  pose proof (seat_layout_cached (Some 300) 0 1 Scenario.opening_db ∅ eq_refl)
    as (Hfirst & _ & Hlive & Hexpired).
  split; [exact Hfirst|]. split.
  - apply (Hlive 299 empty_db). simpl. lia.
  - apply (Hexpired 300 empty_db 300); [reflexivity|lia].
Defined.

Section CreatedSeats.

Import Provisioning.

Lemma inner_loop_places (number : Z → string) (r ty : Z) (js : list Z) (db : DB) :
  seat_place <$> Seat_objects
                   (fold_left (λ db j, Seat_create (number j) r (j + 1) ty db) js db)
  = (seat_place <$> Seat_objects db)
    ++ ((λ j, {| place_type := ty; place_number := number j;
                 place_row := r; place_col := j + 1 |}) <$> js).
Proof.
  revert db. induction js as [|j js IH]; intros db; simpl.
  - by rewrite app_nil_r.
  - rewrite IH. simpl. by rewrite fmap_app, <- app_assoc.
Qed.

Lemma create_seats_places (rows ty : Z) (st : SeatTypeDict) (db : DB) :
  seat_place <$> Seat_objects (create_seats rows (st_rows st + rows) (st_columns st) ty db)
  = (seat_place <$> Seat_objects db) ++ type_places rows ty st.
Proof.
  unfold create_seats, type_places. generalize (range rows (st_rows st + rows)) as rs.
  intros rs. revert db. induction rs as [|i rs IH]; intros db; simpl.
  - by rewrite app_nil_r.
  - rewrite IH, inner_loop_places. by rewrite <- app_assoc.
Qed.

Lemma create_seats_types (rows type_row type_col ty : Z) (db : DB) :
  ScreenSeatTypesMapping_objects (create_seats rows type_row type_col ty db)
  = ScreenSeatTypesMapping_objects db.
Proof.
  destruct (create_seats_add rows type_row type_col ty db) as (new & -> & _).
  simpl. by rewrite app_nil_r.
Qed.

(** The seats the outer loop creates, type after type. *)
Lemma seat_type_loop_places (sid : Z) (seat_types : list SeatTypeDict) (db : DB)
    (rows total : Z) :
  seat_place <$> Seat_objects (fold_left (seat_type_step sid) seat_types (db, rows, total)).1.1
  = (seat_place <$> Seat_objects db)
    ++ places rows (next_id (ScreenSeatTypesMapping_objects db)) seat_types.
Proof.
  revert db rows total. induction seat_types as [|st sts IH]; intros db rows total.
  - simpl. by rewrite app_nil_r.
  - cbn [fold_left seat_type_step ScreenSeatTypesMapping_create places].
    rewrite IH, create_seats_places, create_seats_types. simpl.
    rewrite <- app_assoc. do 3 f_equal. unfold next_id. rewrite length_app. simpl. lia.
Qed.

Lemma create_screen_places (number : Z) (seat_types : list SeatTypeDict) (db : DB) :
  seat_place <$> Seat_objects (create_screen_with_seats number seat_types db).2
  = (seat_place <$> Seat_objects db)
    ++ places 1 (next_id (ScreenSeatTypesMapping_objects db)) seat_types.
Proof.
  rewrite <- (seat_type_loop_places (next_id (Screen_objects db)) seat_types db 1 0).
  unfold create_screen_with_seats.
  by destruct (fold_left _ seat_types _) as [[db' rows'] total'].
Qed.

Lemma elem_of_type_places (rows ty : Z) (st : SeatTypeDict) (p : Place) :
  p ∈ type_places rows ty st ↔
  ∃ i j, rows ≤ i < st_rows st + rows ∧ 0 ≤ j < st_columns st
         ∧ p = {| place_type := ty; place_number := pretty i +:+ pretty j;
                  place_row := rows + i; place_col := j + 1 |}.
Proof.
  unfold type_places. rewrite list_elem_of_bind. split.
  - intros (i & Hp & Hi). apply list_elem_of_fmap in Hp as (j & -> & Hj).
    apply elem_of_range in Hi, Hj. by exists i, j.
  - intros (i & j & Hi & Hj & ->). exists i. split; [|by apply elem_of_range].
    apply list_elem_of_fmap. exists j. split; [done|]. by apply elem_of_range.
Qed.

Lemma type_places_block (rows ty : Z) (st : SeatTypeDict) :
  (λ p, (place_row p, place_col p)) <$> type_places rows ty st = block rows st.
Proof.
  unfold type_places, block. generalize (range rows (st_rows st + rows)) as rs.
  intros rs. induction rs as [|i rs IH]; [done|].
  rewrite !bind_cons, fmap_app, IH. f_equal. by rewrite <- list_fmap_compose.
Qed.

Lemma places_types (rows ty : Z) (seat_types : list SeatTypeDict) (p : Place) :
  p ∈ places rows ty seat_types →
  ty ≤ place_type p < ty + Z.of_nat (length seat_types).
Proof.
  revert rows ty. induction seat_types as [|st sts IH]; intros rows ty; simpl.
  - by intros ?%elem_of_nil.
  - intros [Hp|Hp]%elem_of_app.
    + apply elem_of_type_places in Hp as (i & j & _ & _ & ->). simpl. lia.
    + apply IH in Hp. lia.
Qed.

(** The seats of the type at position [k]. *)
Lemma places_filter (rows ty : Z) (seat_types : list SeatTypeDict) (k : nat)
    (st : SeatTypeDict) :
  seat_types !! k = Some st →
  filter (λ p, place_type p = ty + Z.of_nat k) (places rows ty seat_types)
  = type_places (rows_from rows seat_types k) (ty + Z.of_nat k) st.
Proof.
  revert rows ty k. induction seat_types as [|st0 sts IH]; intros rows ty k; [done|].
  cbn [places]. rewrite filter_app. destruct k as [|k].
  - intros [= ->]. cbn [Z.of_nat]. rewrite Z.add_0_r.
    rewrite filter_all, filter_none, app_nil_r; [done| |].
    + apply Forall_forall. intros p Hp%places_types. lia.
    + apply Forall_forall. by intros p (i & j & _ & _ & ->)%elem_of_type_places.
  - intros Hk. change (sts !! k = Some st) in Hk.
    change (rows_from rows (st0 :: sts) (S k)) with (rows_from (st_rows st0 + rows) sts k).
    replace (ty + Z.of_nat (S k)) with (ty + 1 + Z.of_nat k) by lia.
    rewrite filter_none; [by apply IH|].
    apply Forall_forall. intros p (i & j & _ & _ & ->)%elem_of_type_places. simpl. lia.
Qed.

Lemma type_places_max (rows ty : Z) (st : SeatTypeDict) :
  1 ≤ st_rows st → 1 ≤ st_columns st →
  first_descending (place_row <$> type_places rows ty st) = 2 * rows + st_rows st - 1
  ∧ first_descending (place_col <$> type_places rows ty st) = st_columns st.
Proof.
  intros Hr Hc. split; apply first_descending_max.
  - apply list_elem_of_fmap.
    exists {| place_type := ty;
              place_number := pretty (rows + st_rows st - 1) +:+ pretty 0;
              place_row := rows + (rows + st_rows st - 1); place_col := 0 + 1 |}.
    split; [simpl; lia|]. apply elem_of_type_places.
    exists (rows + st_rows st - 1), 0. split; [lia|]. split; [lia|done].
  - intros x (p & -> & Hp)%list_elem_of_fmap.
    apply elem_of_type_places in Hp as (i & j & Hi & _ & ->). simpl. lia.
  - apply list_elem_of_fmap.
    exists {| place_type := ty;
              place_number := pretty rows +:+ pretty (st_columns st - 1);
              place_row := rows + rows; place_col := st_columns st - 1 + 1 |}.
    split; [simpl; lia|]. apply elem_of_type_places.
    exists rows, (st_columns st - 1). split; [lia|]. split; [lia|done].
  - intros x (p & -> & Hp)%list_elem_of_fmap.
    apply elem_of_type_places in Hp as (i & j & _ & Hj & ->). simpl. lia.
Qed.

(** One row of a table with distinct labels carries a given label. *)
Lemma filter_NoDup_key {A} (key : A → string) (rows : list A) (k : nat) (x : A) :
  NoDup (key <$> rows) → rows !! k = Some x →
  filter (λ y, key y = key x) rows = [x].
Proof.
  revert k. induction rows as [|y rows IH]; intros k Hnd Hk; [done|].
  rewrite fmap_cons in Hnd. apply NoDup_cons in Hnd as [Hy Hnd].
  destruct k as [|k]; simpl in Hk.
  - injection Hk as ->. rewrite filter_cons_True by done. f_equal.
    apply filter_none, Forall_forall. intros z Hz Heq. apply Hy.
    rewrite <- Heq. apply list_elem_of_fmap. by exists z.
  - rewrite filter_cons_False; [by apply (IH k)|].
    intros Heq. apply Hy. rewrite Heq. apply list_elem_of_fmap. exists x.
    split; [done|]. by eapply list_elem_of_lookup_2.
Qed.

End CreatedSeats.

(** X27.  The layout of a screen [create_screen_with_seats] has just
    created from seat types with distinct labels, in a well-formed
    catalog: one entry per label and none for other labels; the entry of a
    seat type lists as many seats as the loops created for it, its
    "columns" is the configured number of columns, and its "rows" is the
    row of its last seat, which is twice the value of [rows] the loop
    reached the type with, plus the configured rows, minus one: one more
    than the configured rows for the first type, and further above them
    for every type after it. *)
Theorem layout_of_created_screen (timeout : option Z) (now number : Z)
    (seat_types : list SeatTypeDict) (db : DB) (c : LayoutCache) :
  catalog_wf db →
  NoDup (st_seat_type <$> seat_types) →
  let out := Provisioning.create_screen_with_seats number seat_types db in
  layout_cache_get now (screen_id out.1) c = None →
  let seat_layout := (get_show_seat_layout timeout now (screen_id out.1) out.2 c).1 in
  (∀ label, label ∉ st_seat_type <$> seat_types → seat_layout !! label = None)
  ∧ ∀ k st, seat_types !! k = Some st →
      ∃ e, seat_layout !! st_seat_type st = Some e
           ∧ Z.of_nat (length (entry_seats e))
             = Z.max 0 (st_rows st) * Z.max 0 (st_columns st)
           ∧ (1 ≤ st_rows st → 1 ≤ st_columns st →
              entry_rows e = 2 * rows_from 1 seat_types k + st_rows st - 1
              ∧ entry_columns e = st_columns st).
Proof.
  intros (Hmids & Hstypes & Hmscr) Hnd out.
  pose proof (create_screen_places number seat_types db) as Hplaces. fold out in Hplaces.
  destruct (create_screen_shape number seat_types db)
    as (new_types & new_seats & Hout & Hlab & Hscr & Hids & _ & _).
  fold out in Hout. rewrite Hout in Hplaces |- *. clear Hout out. simpl in Hplaces.
  rewrite fmap_app in Hplaces. apply app_inv_head in Hplaces.
  cbn [fst snd screen_id]. intros Hmiss.
  unfold get_show_seat_layout. rewrite Hmiss. cbn [fst].
  set (sid := next_id (Screen_objects db)) in *.
  set (db' := Provisioning.Screen_save _ _).
  assert (screen_seat_types db' sid = new_types) as Htypes.
  { unfold screen_seat_types. simpl. rewrite filter_app, filter_none, filter_all; [done| |].
    - done.
    - apply Forall_forall. intros m Hm. specialize (Hmscr m Hm). unfold sid, next_id. lia. }
  split.
  - intros label Hlabel. rewrite compute_layout_lookup, Htypes, filter_none; [done|].
    apply Forall_forall. intros m Hm Heq. apply Hlabel. rewrite <- Hlab, <- Heq.
    apply list_elem_of_fmap. by exists m.
  - intros k st Hk.
    assert (∃ m, new_types !! k = Some m ∧ seat_type m = st_seat_type st) as (m & Hm & Hml).
    { assert ((seat_type <$> new_types) !! k = Some (st_seat_type st)) as Hl
        by (by rewrite Hlab, list_lookup_fmap, Hk).
      rewrite list_lookup_fmap in Hl. destruct (new_types !! k) as [m|]; [|done].
      exists m. split; [done|]. by injection Hl. }
    exists (type_layout db' m). rewrite compute_layout_lookup, Htypes, <- Hml.
    rewrite (filter_NoDup_key seat_type new_types k m) by (by rewrite ?Hlab).
    split; [done|].
    assert (seat_place <$> filter (λ s, type s = mapping_id m) (Seat_objects db')
            = type_places (rows_from 1 seat_types k) (mapping_id m) st) as Hseats.
    { simpl. rewrite filter_app, (filter_none _ (Seat_objects db)).
      - simpl. rewrite (Hids k m Hm).
        replace (Z.of_nat (length (ScreenSeatTypesMapping_objects db) + k) + 1)
          with (next_id (ScreenSeatTypesMapping_objects db) + Z.of_nat k)
          by (unfold next_id; lia).
        rewrite <- (places_filter 1 _ seat_types k st Hk), <- Hplaces.
        by rewrite filter_fmap.
      - apply Forall_forall. intros s Hs. specialize (Hstypes s Hs).
        rewrite (Hids k m Hm). lia. }
    unfold type_layout. cbn [entry_rows entry_columns entry_seats].
    set (seats := filter (λ s, type s = mapping_id m) (Seat_objects db')) in *.
    split.
    + rewrite length_fmap, <- (length_fmap seat_place), Hseats.
      rewrite <- (length_fmap (λ p, (place_row p, place_col p))), type_places_block.
      rewrite length_block, Nat2Z.inj_mul. lia.
    + intros Hr Hc.
      destruct (type_places_max (rows_from 1 seat_types k) (mapping_id m) st Hr Hc)
        as [Hrows Hcols].
      rewrite <- Hseats, <- !list_fmap_compose in Hrows, Hcols. done.
Qed.

Lemma layout_of_created_screen_witness :
  let seat_types := [Scenario.platinum 4 10 1; Scenario.gold 6 10 2] in
  let out := Provisioning.create_screen_with_seats 1 seat_types empty_db in
  let seat_layout := (get_show_seat_layout None 0 (screen_id out.1) out.2 ∅).1 in
  ∃ e, seat_layout !! "GOLD" = Some e
       ∧ Z.of_nat (length (entry_seats e)) = Z.max 0 6 * Z.max 0 10
       ∧ entry_rows e = 2 * rows_from 1 seat_types 1 + 6 - 1
       ∧ entry_columns e = 10.
Proof.
  intros seat_types out seat_layout.
  assert (NoDup (st_seat_type <$> seat_types)) as Hnd.
  { apply (bool_decide_unpack _). vm_compute. exact I. }
  assert (layout_cache_get 0 (screen_id out.1) ∅ = None) as Hmiss.
  { unfold layout_cache_get. by rewrite lookup_empty. }
  destruct (layout_of_created_screen None 0 1 seat_types empty_db ∅
              (proj1 catalog_wf_empty) Hnd Hmiss) as [_ Hentries].
  destruct (Hentries 1%nat (Scenario.gold 6 10 2) eq_refl) as (e & He & Hlen & Hmax).
  exists e. split; [exact He|]. split; [exact Hlen|]. apply Hmax; simpl; lia.
Defined.

(** ** The numbers of the seats *)

Section SeatNumbers.

Import Provisioning.

Lemma places_layout (rows ty : Z) (seat_types : list SeatTypeDict) :
  (λ p, (place_row p, place_col p)) <$> places rows ty seat_types = layout rows seat_types.
Proof.
  revert rows ty. induction seat_types as [|st sts IH]; intros rows ty; [done|].
  simpl. by rewrite fmap_app, type_places_block, IH.
Qed.

Lemma created_seats_places (number : Z) (seat_types : list SeatTypeDict) (db : DB) :
  seat_place <$> drop (length (Seat_objects db))
                   (Seat_objects (create_screen_with_seats number seat_types db).2)
  = places 1 (next_id (ScreenSeatTypesMapping_objects db)) seat_types.
Proof.
  rewrite fmap_drop, create_screen_places.
  rewrite <- (length_fmap seat_place). by rewrite drop_app_length.
Qed.

(** A one-digit number prints as one character, and as different ones for
    different numbers. *)
Lemma pretty_digit (j : Z) :
  0 ≤ j < 10 → pretty j = String (ascii_of_nat (48 + Z.to_nat j)) EmptyString.
Proof.
  intros Hj.
  assert (j = 0 ∨ j = 1 ∨ j = 2 ∨ j = 3 ∨ j = 4 ∨ j = 5 ∨ j = 6 ∨ j = 7 ∨ j = 8 ∨ j = 9)
    as Hcases by lia.
  repeat destruct Hcases as [->|Hcases]; try subst j; reflexivity.
Qed.

Lemma append_char_inj (s s' : string) (c c' : ascii) :
  s +:+ String c EmptyString = s' +:+ String c' EmptyString → s = s' ∧ c = c'.
Proof.
  revert s'. induction s as [|a s IH]; intros [|a' s']; simpl.
  - by intros [= ->].
  - intros [= -> H]. by destruct s'.
  - intros [= -> H]. by destruct s.
  - intros [= -> H]. apply IH in H as [-> ->]. done.
Qed.

(** [f"{i}{j}"] tells the pair apart as long as [j] has one digit. *)
Lemma seat_number_inj (i j i' j' : Z) :
  0 ≤ j < 10 → 0 ≤ j' < 10 →
  pretty i +:+ pretty j = pretty i' +:+ pretty j' → i = i' ∧ j = j'.
Proof.
  intros Hj Hj'. rewrite (pretty_digit j Hj), (pretty_digit j' Hj').
  intros [Hi Hc]%append_char_inj. split; [by apply (inj pretty)|].
  apply (f_equal nat_of_ascii) in Hc.
  rewrite !nat_ascii_embedding in Hc by lia. lia.
Qed.

Lemma NoDup_places (rows ty : Z) (seat_types : list SeatTypeDict) :
  Forall (λ st, 0 ≤ st_rows st) seat_types → NoDup (places rows ty seat_types).
Proof.
  intros Hpos. apply (NoDup_fmap_1 (λ p, (place_row p, place_col p))).
  rewrite places_layout. by apply NoDup_layout.
Qed.

Lemma places_numbers (rows ty : Z) (seat_types : list SeatTypeDict) (p : Place) :
  Forall (λ st, 0 ≤ st_rows st ∧ st_columns st ≤ 10) seat_types →
  p ∈ places rows ty seat_types →
  ∃ i j, rows ≤ i ∧ 0 ≤ j < 10 ∧ place_number p = pretty i +:+ pretty j.
Proof.
  intros Hst. revert rows ty.
  induction Hst as [|st sts [Hr Hc] _ IH]; intros rows ty; simpl.
  - by intros ?%elem_of_nil.
  - intros [Hp|Hp]%elem_of_app.
    + apply elem_of_type_places in Hp as (i & j & Hi & Hj & ->).
      exists i, j. simpl. split; [lia|]. split; [lia|done].
    + apply IH in Hp as (i & j & Hi & Hj & Hn). exists i, j. split; [lia|done].
Qed.

Lemma NoDup_place_numbers (rows ty : Z) (seat_types : list SeatTypeDict) :
  Forall (λ st, 0 ≤ st_rows st ∧ st_columns st ≤ 10) seat_types →
  NoDup (place_number <$> places rows ty seat_types).
Proof.
  intros Hst. revert rows ty.
  induction Hst as [|st sts [Hr Hc] Hsts IH]; intros rows ty; simpl; [constructor|].
  rewrite fmap_app. apply NoDup_app. split; [|split; [|apply IH]].
  - apply NoDup_fmap_2_strong.
    + intros p q (i & j & Hi & Hj & ->)%elem_of_type_places
        (i' & j' & Hi' & Hj' & ->)%elem_of_type_places. simpl.
      intros [-> ->]%seat_number_inj; [done|lia|lia].
    + pose proof (NoDup_places rows ty [st]) as Hnd. simpl in Hnd.
      rewrite app_nil_r in Hnd. apply Hnd. by repeat constructor.
  - intros n (p & -> & Hp)%list_elem_of_fmap (q & Hq & Hin)%list_elem_of_fmap.
    apply elem_of_type_places in Hp as (i & j & Hi & Hj & ->).
    apply (places_numbers _ _ _ _ Hsts) in Hin as (i' & j' & Hi' & Hj' & Hn).
    simpl in Hq. rewrite Hn in Hq.
    apply seat_number_inj in Hq as [-> ->]; lia.
Qed.

End SeatNumbers.

(** X28.  The seat numbers [create_screen_with_seats] gives, the digits of
    the row index followed by those of the column index.  When no seat
    type has a negative number of rows or more than ten columns, no two
    seats of the new screen have the same number.  When the first seat
    type has eleven rows and eleven columns or more, two of its seats are
    numbered ["110"]. *)
Theorem seat_numbers (number : Z) (seat_types : list SeatTypeDict) (db : DB) :
  let out := Provisioning.create_screen_with_seats number seat_types db in
  let new_seats := drop (length (Seat_objects db)) (Seat_objects out.2) in
  (Forall (λ st, 0 ≤ st_rows st ∧ st_columns st ≤ 10) seat_types →
   NoDup (seat_number <$> new_seats))
  ∧ (∀ st rest, seat_types = st :: rest → 11 ≤ st_rows st → 11 ≤ st_columns st →
       ∃ s1 s2, s1 ∈ new_seats ∧ s2 ∈ new_seats ∧ row s1 ≠ row s2
                ∧ seat_number s1 = "110" ∧ seat_number s2 = "110").
Proof.
  intros out new_seats.
  pose proof (created_seats_places number seat_types db) as Hplaces.
  fold out new_seats in Hplaces. split.
  - intros Hst.
    rewrite (list_fmap_compose seat_place place_number), Hplaces.
    by apply NoDup_place_numbers.
  - intros st rest -> Hr Hc. simpl in Hplaces.
    set (ty := next_id (ScreenSeatTypesMapping_objects db)) in *.
    assert (∀ p, p ∈ type_places 1 ty st → ∃ s, s ∈ new_seats ∧ seat_place s = p) as Hin.
    { intros p Hp.
      assert (p ∈ seat_place <$> new_seats) as (s & -> & Hs)%list_elem_of_fmap
        by (rewrite Hplaces; apply elem_of_app; by left).
      by exists s. }
    destruct (Hin {| place_type := ty; place_number := pretty 1 +:+ pretty 10;
                     place_row := 1 + 1; place_col := 10 + 1 |}) as (s1 & Hs1 & Hp1).
    { apply elem_of_type_places. exists 1, 10. split; [lia|]. split; [lia|done]. }
    destruct (Hin {| place_type := ty; place_number := pretty 11 +:+ pretty 0;
                     place_row := 1 + 11; place_col := 0 + 1 |}) as (s2 & Hs2 & Hp2).
    { apply elem_of_type_places. exists 11, 0. split; [lia|]. split; [lia|done]. }
    exists s1, s2. split; [done|]. split; [done|].
    injection Hp1 as _ Hn1 Hr1 _. injection Hp2 as _ Hn2 Hr2 _.
    split; [lia|]. by rewrite Hn1, Hn2.
Qed.

Lemma seat_numbers_witness :
  (let out := Provisioning.create_screen_with_seats 1
                [Scenario.platinum 4 10 1; Scenario.gold 6 10 2] empty_db in
   NoDup (seat_number <$> drop (length (Seat_objects empty_db)) (Seat_objects out.2)))
  ∧ (let out := Provisioning.create_screen_with_seats 1 [Scenario.platinum 11 11 1]
                  empty_db in
     ∃ s1 s2, s1 ∈ drop (length (Seat_objects empty_db)) (Seat_objects out.2)
              ∧ s2 ∈ drop (length (Seat_objects empty_db)) (Seat_objects out.2)
              ∧ row s1 ≠ row s2 ∧ seat_number s1 = "110" ∧ seat_number s2 = "110").
Proof.
  split.
  - apply (seat_numbers 1 [Scenario.platinum 4 10 1; Scenario.gold 6 10 2] empty_db).
    repeat constructor; simpl; lia.
  - apply (proj2 (seat_numbers 1 [Scenario.platinum 11 11 1] empty_db)
             (Scenario.platinum 11 11 1) []); [reflexivity|simpl; lia|simpl; lia].
Defined.

(** ** A new show and its seats *)


